(** * notifyai: scheduling and delivery reliability

    A shallow embedding of the scheduling core of the notification
    service: the score-to-priority policy of the job queue
    ([src/queue/queue.ts]), the retry engine and the channel retry
    predicates ([src/core/retry.ts]), the sliding-window rate limiter
    ([src/core/limiter.ts]), the scorer's parsing and fallback
    ([src/core/scorer.ts]) and the worker's dispatch
    ([src/queue/worker.ts]).

    Conventions.  A JavaScript [number] that holds a count, a score or a
    millisecond timestamp is a [Z]; the retry delays, which are multiplied
    by a fractional backoff factor, are rationals ([Q]).  Strings are
    ASCII strings.  An [async] function is a function of the world that
    returns a settled promise ([completion]) and the new world.  Calls to
    the logger have no effect on any value and are left out. *)

From Stdlib Require Import ZArith List String Ascii Bool Lia.
From Stdlib Require Import QArith Qminmax Qround DecimalString DecimalZ Sorted.
From stdpp Require Import gmap strings.
Import ListNotations.

Local Open Scope Z_scope.
Local Open Scope string_scope.

(** ** JavaScript values shared by the modules *)

Module Js.

(** An [Error] object: its message and, when the thrower set one, a
    string [code]. *)
Record Error := mkError { message : string; code : option string }.

(** [new Error(msg)] *)
Definition newError (msg : string) : Error :=
  {| message := msg; code := None |}.

(** What a [throw] carries: an [Error] instance, or any other value, of
    which only [String(value)] is ever read. *)
Inductive thrown :=
| ThrownError (e : Error)
| ThrownValue (rendering : string).

(** A settled promise (or the outcome of a [try] block). *)
Inductive completion (A : Type) :=
| Resolve (a : A)
| Reject (t : thrown).
Arguments Resolve {A} a.
Arguments Reject {A} t.

(** [try { body } catch (error) { handler(error) }] *)
Definition tryCatch {A} (body : completion A) (handler : thrown -> completion A)
  : completion A :=
  match body with
  | Resolve a => Resolve a
  | Reject t => handler t
  end.

(** [error instanceof Error ? error.message : "Unknown error"] *)
Definition messageOrUnknown (t : thrown) : string :=
  match t with
  | ThrownError e => message e
  | ThrownValue _ => "Unknown error"
  end.

(** [String.prototype.toLowerCase], on ASCII. *)
Definition lowerChar (c : ascii) : ascii :=
  let n := nat_of_ascii c in
  if ((65 <=? n) && (n <=? 90))%nat then ascii_of_nat (n + 32) else c.

Fixpoint toLowerCase (s : string) : string :=
  match s with
  | EmptyString => EmptyString
  | String c rest => String (lowerChar c) (toLowerCase rest)
  end.

(** [String.prototype.includes] *)
Fixpoint includes (s sub : string) : bool :=
  if String.prefix sub s then true
  else match s with
       | EmptyString => false
       | String _ rest => includes rest sub
       end.

(** An [async] function over a state [S] (the world, or the store):
    it settles and leaves a new state. *)
Definition Async (S A : Type) : Type := S -> completion A * S.

Definition ret {S A} (a : A) : Async S A := fun s => (Resolve a, s).

Definition throw {S A} (t : thrown) : Async S A := fun s => (Reject t, s).

(** [const x = await c; k x]: a rejection of [c] skips [k]. *)
Definition bind {S A B} (c : Async S A) (k : A -> Async S B) : Async S B :=
  fun s =>
    match c s with
    | (Resolve a, s') => k a s'
    | (Reject t, s') => (Reject t, s')
    end.

(** [try { await body } catch (error) { handler(error) }]: the effects of
    the body up to the throw stay. *)
Definition tryAsync {S A} (body : Async S A) (handler : thrown -> Async S A)
  : Async S A :=
  fun s =>
    match body s with
    | (Resolve a, s') => (Resolve a, s')
    | (Reject t, s') => handler t s'
    end.

(** [Number.prototype.toString] of an integer. *)
Definition toString (z : Z) : string :=
  NilEmpty.string_of_int (Z.to_int z).

(** [Math.ceil(x / d)] for integers [x] and a positive [d]. *)
Definition ceilDiv (x d : Z) : Z := - ((- x) / d).

(** The numbers [Number(x)] can give, as far as the scorer tells them
    apart: [NaN], or a numeric value, which is an integer or one of
    the infinities. *)
Inductive numeric := NegInfinity | Int (z : Z) | Infinity.

Inductive number := NaN | Num (n : numeric).

(** [x || d]: [NaN] and [0] are falsy. *)
Definition orElse (x : number) (d : Z) : numeric :=
  match x with
  | NaN => Int d
  | Num (Int 0) => Int d
  | Num n => n
  end.

(** [Math.max(0, Math.min(100, x))] *)
Definition clamp (x : numeric) : Z :=
  match x with
  | NegInfinity => 0
  | Int z => Z.max 0 (Z.min 100 z)
  | Infinity => Z.max 0 100
  end.

End Js.

Declare Scope async_scope.
Delimit Scope async_scope with async.
Notation "'let*' x ':=' c 'in' k" := (Js.bind c (fun x => k))
  (at level 10, x name, c at level 100, k at level 200) : async_scope.

(** ** src/config/index.ts *)

Module Config.

Record Retry := { maxAttempts : Z; delayMs : Q; backoffMultiplier : Q }.

Record RateLimit := { windowMs : Z; maxRequests : Z }.

(** The values the configuration schema falls back to when the
    environment sets none. *)
Definition retry : Retry :=
  {| maxAttempts := 3; delayMs := 2000%Q; backoffMultiplier := (5 # 2)%Q |}.

Definition rateLimit : RateLimit :=
  {| windowMs := 3600000; maxRequests := 100 |}.

End Config.

(** ** The world of a worker process *)

Module World.
Import Js.

(** The clock ([Date.now()]), the number of calls made to external
    collaborators so far, and the delays waited for so far, in order. *)
Record t := mk { now : Z; calls : nat; sleeps : list Q }.

(** A call to an external collaborator: in a given world it settles
    one way or the other after some milliseconds. *)
Definition Operation (A : Type) : Type := t -> completion A * Z.

(** [await operation()] *)
Definition invoke {A} (operation : Operation A) : Async t A :=
  fun w =>
    let '(outcome, elapsed) := operation w in
    (outcome,
     {| now := now w + Z.max 0 elapsed; calls := S (calls w); sleeps := sleeps w |}).

(** [await new Promise((resolve) => setTimeout(resolve, ms))] *)
Definition sleep (ms : Q) (w : t) : t :=
  {| now := now w + Z.max 0 (Qceiling ms); calls := calls w;
     sleeps := sleeps w ++ [ms] |}.

End World.

(** ** src/core/retry.ts *)

Module RetryHandler.
Import Js.

(** [RetryOptions]: every field is optional. *)
Record RetryOptions := {
  maxAttempts : option Z;
  delayMs : option Q;
  backoffMultiplier : option Q;
  maxDelayMs : option Q;
  retryCondition : option (Error -> bool)
}.

(** [Required<RetryOptions>] *)
Module Required.
Record t := {
  maxAttempts : Z;
  delayMs : Q;
  backoffMultiplier : Q;
  maxDelayMs : Q;
  retryCondition : Error -> bool
}.
End Required.

(** The empty [options] object, the default of [execute]'s parameter. *)
Definition noOptions : RetryOptions :=
  {| maxAttempts := None; delayMs := None; backoffMultiplier := None;
     maxDelayMs := None; retryCondition := None |}.

Record RetryResult (T : Type) := {
  success : bool;
  data : option T;
  error : option Error;
  attempts : Z;
  totalTimeMs : Z
}.
Arguments success {T} r.
Arguments data {T} r.
Arguments error {T} r.
Arguments attempts {T} r.
Arguments totalTimeMs {T} r.

(** A [RetryHandler] instance. *)
Record t := { defaultOptions : Required.t }.

(** [constructor()] *)
Definition constructor (retry : Config.Retry) : t :=
  {| defaultOptions :=
       {| Required.maxAttempts := Config.maxAttempts retry;
          Required.delayMs := Config.delayMs retry;
          Required.backoffMultiplier := Config.backoffMultiplier retry;
          Required.maxDelayMs := 30000%Q;
          Required.retryCondition := fun _ => true |} |}.

(** [{ ...this.defaultOptions, ...options }] *)
Definition spread (defaults : Required.t) (options : RetryOptions) : Required.t :=
  {| Required.maxAttempts := default (Required.maxAttempts defaults) (maxAttempts options);
     Required.delayMs := default (Required.delayMs defaults) (delayMs options);
     Required.backoffMultiplier :=
       default (Required.backoffMultiplier defaults) (backoffMultiplier options);
     Required.maxDelayMs := default (Required.maxDelayMs defaults) (maxDelayMs options);
     Required.retryCondition :=
       default (Required.retryCondition defaults) (retryCondition options) |}.

(** [error instanceof Error ? error : new Error(String(error))] *)
Definition asError (t : thrown) : Error :=
  match t with
  | ThrownError e => e
  | ThrownValue rendering => newError rendering
  end.

(** The values [attempt] takes in
    [for (let attempt = 1; attempt <= opts.maxAttempts; attempt++)]. *)
Definition attemptNumbers (maxAttempts : Z) : list Z :=
  map Z.of_nat (seq 1 (Z.to_nat maxAttempts)).

(** How the [for] loop is left: by the [return] of its [try] block, or
    past its end (by [break] or when [attempt] runs out), with
    [lastError] as it then is. *)
Inductive LoopExit (T : Type) :=
| Returned (result : RetryResult T)
| Left (lastError : option Error).
Arguments Returned {T} result.
Arguments Left {T} lastError.

(** The loop of [execute], one element of [todo] per iteration. *)
Fixpoint attemptLoop {T} (opts : Required.t) (operation : World.Operation T)
    (startTime : Z) (todo : list Z) (currentDelay : Q)
    (lastError : option Error) (w : World.t) : LoopExit T * World.t :=
  match todo with
  | [] => (Left lastError, w)
  | attempt :: rest =>
      match World.invoke operation w with
      | (Resolve result, w1) =>
          let totalTime := World.now w1 - startTime in
          (Returned {| success := true; data := Some result; error := None;
                       attempts := attempt; totalTimeMs := totalTime |}, w1)
      | (Reject problem, w1) =>
          let lastError := asError problem in
          if negb (Required.retryCondition opts lastError) then
            (Left (Some lastError), w1)
          else if (attempt =? Required.maxAttempts opts)%Z then
            (Left (Some lastError), w1)
          else
            let w2 := World.sleep currentDelay w1 in
            attemptLoop opts operation startTime rest
              (Qmin (currentDelay * Required.backoffMultiplier opts)
                    (Required.maxDelayMs opts))
              (Some lastError) w2
      end
  end.

(** [execute(operation, options)].  The promise it returns always
    resolves, so the result is a plain [RetryResult]. *)
Definition execute {T} (self : t) (operation : World.Operation T)
    (options : RetryOptions) (w : World.t) : RetryResult T * World.t :=
  let opts := spread (defaultOptions self) options in
  let startTime := World.now w in
  match attemptLoop opts operation startTime
          (attemptNumbers (Required.maxAttempts opts))
          (Required.delayMs opts) None w with
  | (Returned result, w') => (result, w')
  | (Left lastError, w') =>
      let totalTime := World.now w' - startTime in
      ({| success := false; data := None; error := lastError;
          attempts := Required.maxAttempts opts; totalTimeMs := totalTime |}, w')
  end.

(** Whether one of [patterns], lower-cased, occurs in the message or
    in the code: the body shared by the two [for ... of] loops of
    [createRetryCondition]. *)
Fixpoint matchesAny (errorMessage errorCode : string) (patterns : list string) : bool :=
  match patterns with
  | [] => false
  | pattern :: rest =>
      if includes errorMessage (toLowerCase pattern)
         || includes errorCode (toLowerCase pattern)
      then true
      else matchesAny errorMessage errorCode rest
  end.

(** [createRetryCondition(retryableErrors, nonRetryableErrors)] *)
Definition createRetryCondition (retryableErrors nonRetryableErrors : list string)
  : Error -> bool :=
  fun error =>
    let errorMessage := toLowerCase (message error) in
    let errorCode := match code error with
                     | Some c => toLowerCase c
                     | None => ""
                     end in
    if matchesAny errorMessage errorCode nonRetryableErrors then false
    else if (0 <? length retryableErrors)%nat then
      if matchesAny errorMessage errorCode retryableErrors then true else false
    else true.

(** [RetryHandler.conditions] *)
Module conditions.

Definition network : Error -> bool :=
  createRetryCondition
    ["timeout"; "network"; "connection"; "econnrefused"; "enotfound"]
    ["unauthorized"; "forbidden"; "bad request"; "not found"].

Definition slack : Error -> bool :=
  createRetryCondition
    ["rate_limited"; "timeout"; "server_error"; "service_unavailable"]
    ["invalid_token"; "channel_not_found"; "user_not_found"].

Definition email : Error -> bool :=
  createRetryCondition
    ["timeout"; "quota_exceeded"; "service_unavailable"; "temporary_failure"]
    ["invalid_email"; "bounce"; "spam"; "blocked"].

Definition webhook : Error -> bool :=
  createRetryCondition
    ["timeout"; "connection"; "server_error"; "service_unavailable"]
    ["unauthorized"; "forbidden"; "not_found"; "bad_request"].

End conditions.

(** [export const retryHandler = new RetryHandler()] under the default
    configuration. *)
Definition retryHandler : t := constructor Config.retry.

End RetryHandler.

(** ** The Redis commands the limiter issues

    A sorted set is the list of its (score, member) pairs in Redis'
    order: by score, then by member.  A key may carry a time to live; a
    command that finds the key past it finds no key.  The server's clock
    is the caller's [Date.now()]. *)

Module Redis.

Record Key := { zset : list (Z * string); expireAt : option Z }.

Abbreviation Db := (gmap string Key).

(** The key as a command running at time [t] finds it. *)
Definition live (t : Z) (key : string) (db : Db) : option Key :=
  match db !! key with
  | Some k =>
      match expireAt k with
      | Some deadline => if (deadline <=? t)%Z then None else Some k
      | None => Some k
      end
  | None => None
  end.

Definition entries (t : Z) (key : string) (db : Db) : list (Z * string) :=
  match live t key db with
  | Some k => zset k
  | None => []
  end.

Definition before (x y : Z * string) : bool :=
  (fst x <? fst y)%Z || ((fst x =? fst y)%Z && String.ltb (snd x) (snd y)).

Fixpoint place (x : Z * string) (l : list (Z * string)) : list (Z * string) :=
  match l with
  | [] => [x]
  | y :: rest => if before x y then x :: y :: rest else y :: place x rest
  end.

(** [ZADD key score member]: a member already in the set is not added
    again, it only takes the new score. *)
Definition zadd (t : Z) (key : string) (score : Z) (member : string) (db : Db) : Db :=
  let found := live t key db in
  let others :=
    List.filter (fun e => negb (String.eqb (snd e) member))
           (match found with Some k => zset k | None => [] end) in
  <[key := {| zset := place (score, member) others;
              expireAt := match found with Some k => expireAt k | None => None end |}]> db.

(** [ZREMRANGEBYSCORE key min max]: both bounds are inclusive; a set
    left empty is no key any more. *)
Definition zremrangebyscore (t : Z) (key : string) (min max : Z) (db : Db) : Db :=
  match live t key db with
  | None => delete key db
  | Some k =>
      match List.filter (fun e => negb ((min <=? fst e)%Z && (fst e <=? max)%Z)) (zset k) with
      | [] => delete key db
      | kept => <[key := {| zset := kept; expireAt := expireAt k |}]> db
      end
  end.

(** [ZCARD key] *)
Definition zcard (t : Z) (key : string) (db : Db) : Z :=
  Z.of_nat (length (entries t key db)).

(** [EXPIRE key seconds] *)
Definition expire (t : Z) (key : string) (seconds : Z) (db : Db) : Db :=
  match live t key db with
  | None => delete key db
  | Some k =>
      if (seconds <=? 0)%Z then delete key db
      else <[key := {| zset := zset k; expireAt := Some (t + 1000 * seconds) |}]> db
  end.

(** [ZRANGE key 0 0 WITHSCORES]: the member of least rank and its
    score, if the set has one. *)
Definition zrangeFirst (t : Z) (key : string) (db : Db) : option (string * Z) :=
  match entries t key db with
  | [] => None
  | (score, member) :: _ => Some (member, score)
  end.

(** How the store answers during one call of the limiter: normally, or
    with a pipeline whose [exec()] rejects or resolves to [null] (no
    command has run then), or with a pipeline that runs and a [zrange]
    that rejects after it. *)
Inductive Answer :=
| Healthy
| ExecRejects (problem : Js.thrown)
| ExecNull
| ZrangeRejects (problem : Js.thrown).

End Redis.

(** ** src/core/limiter.ts *)

Module RateLimiter.
Import Js.
Local Open Scope async_scope.

Record RateLimitResult := {
  allowed : bool;
  remaining : Z;
  resetTime : Z;
  retryAfter : option Z
}.

(** A [RateLimiter] instance; the Redis client is the store the
    functions thread. *)
Record t := { windowMs : Z; maxRequests : Z }.

(** [constructor(redis)] *)
Definition constructor (rateLimit : Config.RateLimit) : t :=
  {| windowMs := Config.windowMs rateLimit;
     maxRequests := Config.maxRequests rateLimit |}.

(** The four commands queued on the pipeline, in order; [results[1][1]]
    is the reply of the second. *)
Definition pipeline (self : t) (key : string) (now windowStart : Z) (db : Redis.Db)
  : Z * Redis.Db :=
  let db1 := Redis.zremrangebyscore now key 0 windowStart db in
  let count := Redis.zcard now key db1 in
  let db2 := Redis.zadd now key now (toString now) db1 in
  let db3 := Redis.expire now key (ceilDiv (windowMs self) 1000) db2 in
  (count, db3).

(** [await pipeline.exec()]: [None] is the [null] result. *)
Definition exec (answer : Redis.Answer) (self : t) (key : string) (now windowStart : Z)
  : Async Redis.Db (option Z) :=
  fun db =>
    match answer with
    | Redis.ExecRejects problem => (Reject problem, db)
    | Redis.ExecNull => (Resolve None, db)
    | _ => let '(count, db') := pipeline self key now windowStart db in
           (Resolve (Some count), db')
    end.

(** [await this.redis.zrange(key, 0, 0, "WITHSCORES")] *)
Definition zrange (answer : Redis.Answer) (key : string) (now : Z)
  : Async Redis.Db (option (string * Z)) :=
  fun db =>
    match answer with
    | Redis.ZrangeRejects problem => (Reject problem, db)
    | _ => (Resolve (Redis.zrangeFirst now key db), db)
    end.

(** [checkRateLimit(userId)], called at time [now]. *)
Definition checkRateLimit (self : t) (answer : Redis.Answer) (userId : string) (now : Z)
  : Async Redis.Db RateLimitResult :=
  let windowStart := now - windowMs self in
  let key := "rate_limit:" +:+ userId in
  tryAsync
    (let* results := exec answer self key now windowStart in
     match results with
     | None => throw (ThrownError (newError "Redis pipeline failed"))
     | Some currentCount =>
         let isAllowed := (currentCount <? maxRequests self)%Z in
         let remaining := Z.max 0 (maxRequests self - currentCount) in
         let* oldestRequest := zrange answer key now in
         let resetTime :=
           match oldestRequest with
           | Some (_, score) => score + windowMs self
           | None => now + windowMs self
           end in
         ret {| allowed := isAllowed;
                remaining := remaining;
                resetTime := resetTime;
                retryAfter := if isAllowed then None
                              else Some (ceilDiv (resetTime - now) 1000) |}
     end)
    (fun _ =>
       ret {| allowed := true;
              remaining := maxRequests self - 1;
              resetTime := now + windowMs self;
              retryAfter := None |}).

(** [resetRateLimit(userId)] *)
Definition resetRateLimit (userId : string) (db : Redis.Db) : Redis.Db :=
  delete ("rate_limit:" +:+ userId) db.

End RateLimiter.

(** ** src/core/scorer.ts *)

Module AIScorer.

Inductive Priority := low | medium | high | critical.

Record ScoringRequest := {
  message : string;
  metadata : option (gmap string string);
  userId : string;
  channel : string
}.

Record ScoringResult := {
  score : Z;
  reasoning : string;
  priority : Priority;
  shouldSend : bool
}.

(** The [priority] member of the parsed object, as [validatePriority]
    meets it: absent ([undefined] or [null]), a string, or a value
    that has no [toLowerCase]. *)
Inductive PriorityField := Absent | Text (s : string) | NotText.

(** The members of [JSON.parse(jsonMatch[0])] as the object literal
    reads them: [Number(parsed.score)], [parsed.reasoning] ([None]
    when falsy), [parsed.priority] and [Boolean(parsed.shouldSend)]. *)
Record Parsed := {
  parsedScore : Js.number;
  parsedReasoning : option string;
  parsedPriority : PriorityField;
  parsedShouldSend : bool
}.

(** [content.match(/\{[\s\S]*\}/)] followed by [JSON.parse]: no match,
    a match that does not parse, or the parsed object. *)
Inductive JsonMatch := NoMatch | Unparsable | Object (parsed : Parsed).

(** A completion text together with what the regular expressions and
    [JSON.parse] find in it.  [scoreMatch] is the value of the run of
    digits [scoreMatch[1]]; [Number] of it differs from that value only
    far above 100, where the clamp gives 100 for both. *)
Record Content := {
  text : string;
  jsonMatch : JsonMatch;
  scoreMatch : option N;
  priorityMatch : option string;
  shouldSendMatch : option string
}.

(** [validatePriority(priority)] on a string. *)
Definition validatePriority (priority : string) : Priority :=
  let normalized := Js.toLowerCase priority in
  if String.eqb normalized "low" then low
  else if String.eqb normalized "medium" then medium
  else if String.eqb normalized "high" then high
  else if String.eqb normalized "critical" then critical
  else medium.

(** [validatePriority(parsed.priority)]: the call throws a [TypeError]
    when the member is not a string. *)
Definition validatePriorityField (priority : PriorityField) : Js.completion Priority :=
  match priority with
  | Absent => Js.Resolve medium
  | Text s => Js.Resolve (validatePriority s)
  | NotText =>
      Js.Reject (Js.ThrownError (Js.newError "priority?.toLowerCase is not a function"))
  end.

(** The fallback parsing at the end of [parseScoringResponse]. *)
Definition fallbackParsing (content : Content) : ScoringResult :=
  {| score := match scoreMatch content with
              | Some digits => Js.clamp (Js.Int (Z.of_N digits))
              | None => 50
              end;
     reasoning := String.substring 0 200 (text content);
     priority := validatePriority (default "medium" (priorityMatch content));
     shouldSend := match shouldSendMatch content with
                   | Some word => String.eqb word "true"
                   | None => true
                   end |}.

(** [parseScoringResponse(content)] *)
Definition parseScoringResponse (content : Content) : ScoringResult :=
  let attempt : Js.completion (option ScoringResult) :=
    match jsonMatch content with
    | NoMatch => Js.Resolve None
    | Unparsable => Js.Reject (Js.ThrownError (Js.newError "Unexpected token"))
    | Object parsed =>
        match validatePriorityField (parsedPriority parsed) with
        | Js.Resolve p =>
            Js.Resolve (Some
              {| score := Js.clamp (Js.orElse (parsedScore parsed) 50);
                 reasoning := default "No reasoning provided" (parsedReasoning parsed);
                 priority := p;
                 shouldSend := parsedShouldSend parsed |})
        | Js.Reject problem => Js.Reject problem
        end
    end in
  match Js.tryCatch attempt (fun _ => Js.Resolve None) with
  | Js.Resolve (Some result) => result
  | _ => fallbackParsing content
  end.

(** The result [scoreMessage] returns from its [catch] block. *)
Definition fallback : ScoringResult :=
  {| score := 50;
     reasoning := "Fallback score due to AI scoring error";
     priority := medium;
     shouldSend := true |}.

(** [scoreMessage(request)].  [completions] is the call
    [this.openai.chat.completions.create(...)] for the prompt built
    from the request, answering with
    [response.choices[0]?.message?.content]; a throw while the prompt
    is built is caught like a rejection of the call. *)
Definition scoreMessage (completions : ScoringRequest -> World.Operation (option Content))
    (request : ScoringRequest) : Js.Async World.t ScoringResult :=
  Js.tryAsync
    (Js.bind (World.invoke (completions request)) (fun content =>
       match content with
       | None => Js.throw (Js.ThrownError (Js.newError "No response from OpenAI"))
       | Some c =>
           if String.eqb (text c) "" then
             Js.throw (Js.ThrownError (Js.newError "No response from OpenAI"))
           else Js.ret (parseScoringResponse c)
       end))
    (fun _ => Js.ret fallback).

(** [getPriorityFromScore(score)] *)
Definition getPriorityFromScore (score : Z) : Priority :=
  if (score >=? 80)%Z then critical
  else if (score >=? 60)%Z then high
  else if (score >=? 30)%Z then medium
  else low.

End AIScorer.

(** ** The job queue library

    What the code relies on from BullMQ: [Queue.add] stores a job under
    a fresh id, delayed when it has a positive delay and waiting
    otherwise; a [Worker] hands a job to its processor and, when the
    promise of the processor resolves, moves the job to [completed] with
    the resolved value as [returnvalue]; when it rejects, the job has
    made one more attempt and is queued again while attempts are left,
    and is moved to [failed] with the message as [failedReason] when
    none is. *)

Module BullMQ.

Inductive State := waiting | delayed | active | completed | failed.

Record JobsOptions := { priority : Z; delay : Z; attempts : Z }.

Record Job (D R : Type) := {
  id : string;
  data : D;
  opts : JobsOptions;
  state : State;
  attemptsMade : Z;
  progress : Z;
  returnvalue : option R;
  failedReason : option string
}.
Arguments id {D R} j.
Arguments data {D R} j.
Arguments opts {D R} j.
Arguments state {D R} j.
Arguments attemptsMade {D R} j.
Arguments progress {D R} j.
Arguments returnvalue {D R} j.
Arguments failedReason {D R} j.

Record Queue (D R : Type) := { counter : Z; jobs : gmap string (Job D R) }.
Arguments counter {D R} q.
Arguments jobs {D R} q.

Definition empty {D R} : Queue D R := {| counter := 0; jobs := ∅ |}.

(** [queue.add(name, data, { priority, delay })] with the queue's
    [defaultJobOptions.attempts]. *)
Definition add {D R} (defaultAttempts : Z) (payload : D) (priority delay : Z)
    (q : Queue D R) : Job D R * Queue D R :=
  let n := counter q + 1 in
  let job := {| id := Js.toString n;
                data := payload;
                opts := {| priority := priority; delay := delay;
                           attempts := defaultAttempts |};
                state := if (0 <? delay)%Z then delayed else waiting;
                attemptsMade := 0;
                progress := 0;
                returnvalue := None;
                failedReason := None |} in
  (job, {| counter := n; jobs := <[id job := job]> (jobs q) |}).

(** [queue.getJob(jobId)] *)
Definition getJob {D R} (jobId : string) (q : Queue D R) : option (Job D R) :=
  jobs q !! jobId.

(** The job as the processor receives it. *)
Definition activate {D R} (job : Job D R) : Job D R :=
  {| id := id job; data := data job; opts := opts job; state := active;
     attemptsMade := attemptsMade job; progress := progress job;
     returnvalue := returnvalue job;
     failedReason := failedReason job |}.

(** What the worker does with the job once the processor has
    settled. *)
Definition settle {D R} (job : Job D R) (outcome : Js.completion R) : Job D R :=
  match outcome with
  | Js.Resolve value =>
      {| id := id job; data := data job; opts := opts job; state := completed;
         attemptsMade := attemptsMade job; progress := progress job;
         returnvalue := Some value;
         failedReason := failedReason job |}
  | Js.Reject problem =>
      let made := attemptsMade job + 1 in
      {| id := id job; data := data job; opts := opts job;
         state := if (made <? attempts (opts job))%Z then delayed else failed;
         attemptsMade := made; progress := progress job;
         returnvalue := returnvalue job;
         failedReason := match problem with
                         | Js.ThrownError e => Some (Js.message e)
                         | Js.ThrownValue _ => None
                         end |}
  end.

(** One job through the worker: the processor runs on the active job
    and the outcome is recorded in the queue. *)
Definition work {D R} (processor : Job D R -> Js.Async World.t R) (jobId : string)
    (q : Queue D R) (w : World.t) : Queue D R * World.t :=
  match getJob jobId q with
  | None => (q, w)
  | Some job =>
      let '(outcome, w') := processor (activate job) w in
      ({| counter := counter q;
          jobs := <[jobId := settle (activate job) outcome]> (jobs q) |}, w')
  end.

(** A job the worker will pick up (again). *)
Definition queued (s : State) : bool :=
  match s with
  | waiting | delayed => true
  | _ => false
  end.

End BullMQ.

(** ** src/queue/queue.ts *)

Module NotificationQueue.

(** [Omit<NotificationJob, "id" | "createdAt">], the argument of
    [addJob]. *)
Record JobData := {
  userId : string;
  channel : string;
  message : string;
  metadata : option (gmap string string);
  score : Z;
  priority : AIScorer.Priority;
  target : option string
}.

(** The data of a stored job: [{ ...jobData, createdAt }]. *)
Record NotificationJob := { jobData : JobData; createdAt : Z }.

Record JobResult := {
  success : bool;
  deliveryTime : option Z;
  error : option string;
  attempts : Z
}.

Abbreviation Job := (BullMQ.Job NotificationJob JobResult).
Abbreviation Queue := (BullMQ.Queue NotificationJob JobResult).

(** [defaultJobOptions.attempts] *)
Definition defaultAttempts : Z := 3.

(** [getJobPriority]: the rank handed to the queue, 1 served first. *)
Definition getJobPriority (score : Z) : Z :=
  if (score >=? 80)%Z then 1
  else if (score >=? 60)%Z then 2
  else if (score >=? 30)%Z then 3
  else 4.

(** [getJobDelay]: milliseconds before the job becomes eligible. *)
Definition getJobDelay (score : Z) : Z :=
  if (score >=? 60)%Z then 0
  else if (score >=? 30)%Z then 5000
  else 30000.

(** [addJob(jobData)], called at time [now]: the stored job and the
    queue with it; the id returned is [BullMQ.id] of the job. *)
Definition addJob (payload : JobData) (now : Z) (q : Queue) : Job * Queue :=
  BullMQ.add defaultAttempts
    {| jobData := payload; createdAt := now |}
    (getJobPriority (score payload))
    (getJobDelay (score payload))
    q.

(** [getJob(jobId)] *)
Definition getJob (jobId : string) (q : Queue) : option NotificationJob :=
  match BullMQ.getJob jobId q with
  | Some job => Some (BullMQ.data job)
  | None => None
  end.

Record JobStatus := {
  status : BullMQ.State;
  statusProgress : Z;
  statusAttempts : Z;
  result : option JobResult
}.

(** [getJobStatus(jobId)] *)
Definition getJobStatus (jobId : string) (q : Queue) : option JobStatus :=
  match BullMQ.getJob jobId q with
  | None => None
  | Some job =>
      let state := BullMQ.state job in
      let attempts := BullMQ.attemptsMade job in
      Some {| status := state;
              statusProgress := BullMQ.progress job;
              statusAttempts := attempts;
              result :=
                match state with
                | BullMQ.completed => BullMQ.returnvalue job
                | BullMQ.failed =>
                    Some {| success := false;
                            deliveryTime := None;
                            error := Some (default "Unknown error" (BullMQ.failedReason job));
                            attempts := attempts |}
                | _ => None
                end |}
  end.

End NotificationQueue.

(** ** src/queue/worker.ts *)

Module NotificationWorker.
Import Js.
Local Open Scope async_scope.

Record SlackMessage := {
  slackChannel : string;
  slackText : string;
  slackMetadata : option (gmap string string)
}.

Record EmailMessage := {
  to : string;
  subject : string;
  emailText : string;
  emailMetadata : option (gmap string string)
}.

Record WebhookPayload := {
  payloadMessage : string;
  payloadMetadata : option (gmap string string);
  payloadUserId : string;
  payloadScore : Z;
  payloadPriority : AIScorer.Priority;
  timestamp : Z
}.

Record WebhookMessage := { url : string; payload : WebhookPayload }.

(** The three delivery services, external to the worker: what each
    resolves to is not read, only whether it resolves. *)
Record Services (Response : Type) := {
  sendMessage : SlackMessage -> World.Operation Response;
  sendEmail : EmailMessage -> World.Operation Response;
  sendWebhook : WebhookMessage -> World.Operation Response
}.
Arguments sendMessage {Response} s.
Arguments sendEmail {Response} s.
Arguments sendWebhook {Response} s.

(** [x || fallback] on an optional string. *)
Definition orString (x : option string) (fallback : string) : string :=
  match x with
  | Some v => if String.eqb v "" then fallback else v
  | None => fallback
  end.

(** [!job.target] *)
Definition missing (x : option string) : bool :=
  match x with
  | Some v => String.eqb v ""
  | None => true
  end.

(** The [JobResult] each [deliverTo...] builds from a [RetryResult]. *)
Definition report {T} (result : RetryHandler.RetryResult T)
  : NotificationQueue.JobResult :=
  {| NotificationQueue.success := RetryHandler.success result;
     NotificationQueue.deliveryTime := None;
     NotificationQueue.error :=
       match RetryHandler.error result with
       | Some e => Some (message e)
       | None => None
       end;
     NotificationQueue.attempts := RetryHandler.attempts result |}.

(** The [options] each [deliverTo...] passes. *)
Definition onlyCondition (condition : Error -> bool) : RetryHandler.RetryOptions :=
  {| RetryHandler.maxAttempts := None;
     RetryHandler.delayMs := None;
     RetryHandler.backoffMultiplier := None;
     RetryHandler.maxDelayMs := None;
     RetryHandler.retryCondition := Some condition |}.

Section Deliver.
Context {Response : Type}.
Variable retryHandler : RetryHandler.t.
Variable services : Services Response.

(** The arrow function [deliverToSlack] hands to [execute]. *)
Definition slackCall (job : NotificationQueue.JobData) : World.Operation Response :=
  sendMessage services
    {| slackChannel := orString (NotificationQueue.target job) "#general";
       slackText := NotificationQueue.message job;
       slackMetadata := NotificationQueue.metadata job |}.

(** The arrow function [deliverToEmail] hands to [execute]. *)
Definition emailCall (job : NotificationQueue.JobData) : World.Operation Response :=
  sendEmail services
    {| to := default "" (NotificationQueue.target job);
       subject :=
         orString
           (match NotificationQueue.metadata job with
            | Some m => m !! "subject"
            | None => None
            end)
           "Notification";
       emailText := NotificationQueue.message job;
       emailMetadata := NotificationQueue.metadata job |}.

(** The arrow function [deliverToWebhook] hands to [execute]: the
    payload is built, and stamped, at each call. *)
Definition webhookCall (job : NotificationQueue.JobData) : World.Operation Response :=
  fun w =>
    sendWebhook services
      {| url := default "" (NotificationQueue.target job);
         payload :=
           {| payloadMessage := NotificationQueue.message job;
              payloadMetadata := NotificationQueue.metadata job;
              payloadUserId := NotificationQueue.userId job;
              payloadScore := NotificationQueue.score job;
              payloadPriority := NotificationQueue.priority job;
              timestamp := World.now w |} |}
      w.

(** [deliverToSlack(job)] *)
Definition deliverToSlack (job : NotificationQueue.JobData)
  : Async World.t NotificationQueue.JobResult :=
  fun w =>
    let '(result, w') :=
      RetryHandler.execute retryHandler (slackCall job)
        (onlyCondition RetryHandler.conditions.slack) w in
    (Resolve (report result), w').

(** [deliverToEmail(job)] *)
Definition deliverToEmail (job : NotificationQueue.JobData)
  : Async World.t NotificationQueue.JobResult :=
  if missing (NotificationQueue.target job) then
    throw (ThrownError (newError "Email target address is required"))
  else
    fun w =>
      let '(result, w') :=
        RetryHandler.execute retryHandler (emailCall job)
          (onlyCondition RetryHandler.conditions.email) w in
      (Resolve (report result), w').

(** [deliverToWebhook(job)] *)
Definition deliverToWebhook (job : NotificationQueue.JobData)
  : Async World.t NotificationQueue.JobResult :=
  if missing (NotificationQueue.target job) then
    throw (ThrownError (newError "Webhook URL is required"))
  else
    fun w =>
      let '(result, w') :=
        RetryHandler.execute retryHandler (webhookCall job)
          (onlyCondition RetryHandler.conditions.webhook) w in
      (Resolve (report result), w').

(** The [switch] on [notificationJob.channel]. *)
Definition route (job : NotificationQueue.JobData)
  : Async World.t NotificationQueue.JobResult :=
  let channel := NotificationQueue.channel job in
  if String.eqb channel "slack" then deliverToSlack job
  else if String.eqb channel "email" then deliverToEmail job
  else if String.eqb channel "webhook" then deliverToWebhook job
  else throw (ThrownError (newError ("Unsupported channel: " +:+ channel))).

(** [processJob(job)] *)
Definition processJob (job : NotificationQueue.Job)
  : Async World.t NotificationQueue.JobResult :=
  fun w =>
    let startTime := World.now w in
    let notificationJob := NotificationQueue.jobData (BullMQ.data job) in
    tryAsync
      (let* result := route notificationJob in
       fun w' =>
         let deliveryTime := World.now w' - startTime in
         (Resolve
            {| NotificationQueue.success := NotificationQueue.success result;
               NotificationQueue.deliveryTime := Some deliveryTime;
               NotificationQueue.error := NotificationQueue.error result;
               NotificationQueue.attempts := NotificationQueue.attempts result |},
          w'))
      (fun error =>
         let errorMessage := messageOrUnknown error in
         ret {| NotificationQueue.success := false;
                NotificationQueue.deliveryTime := None;
                NotificationQueue.error := Some errorMessage;
                NotificationQueue.attempts := BullMQ.attemptsMade job |})
      w.

(** The worker created by the constructor: [processJob] is the
    processor of every job of the queue. *)
Definition work (jobId : string) (q : NotificationQueue.Queue) (w : World.t)
  : NotificationQueue.Queue * World.t :=
  BullMQ.work processJob jobId q w.

End Deliver.

End NotificationWorker.

(** ** src/api/routes/notify.ts: the submission path *)

Module NotifyRoute.

Record Body := {
  userId : string;
  channel : string;
  message : string;
  metadata : option (gmap string string);
  target : option string
}.

Definition priorityName (p : AIScorer.Priority) : string :=
  match p with
  | AIScorer.low => "low"
  | AIScorer.medium => "medium"
  | AIScorer.high => "high"
  | AIScorer.critical => "critical"
  end.

(** The job data the handler of [POST /notify] builds from the request
    body and the scoring result. *)
Definition toJobData (body : Body) (scoringResult : AIScorer.ScoringResult)
  : NotificationQueue.JobData :=
  {| NotificationQueue.userId := userId body;
     NotificationQueue.channel := channel body;
     NotificationQueue.message := message body;
     NotificationQueue.metadata :=
       Some (<["shouldSend" := if AIScorer.shouldSend scoringResult then "true" else "false"]>
             (<["reasoning" := AIScorer.reasoning scoringResult]>
              (<["priority" := priorityName (AIScorer.priority scoringResult)]>
               (default ∅ (metadata body)))));
     NotificationQueue.score := AIScorer.score scoringResult;
     NotificationQueue.priority := AIScorer.priority scoringResult;
     NotificationQueue.target := target body |}.

(** Steps 1 and 2 of the handler: score the message, add the job. *)
Definition postNotify
    (completions : AIScorer.ScoringRequest -> World.Operation (option AIScorer.Content))
    (body : Body) (q : NotificationQueue.Queue) (w : World.t)
  : Js.completion NotificationQueue.Job * NotificationQueue.Queue * World.t :=
  match AIScorer.scoreMessage completions
          {| AIScorer.message := message body;
             AIScorer.metadata := metadata body;
             AIScorer.userId := userId body;
             AIScorer.channel := channel body |} w with
  | (Js.Resolve scoringResult, w') =>
      let '(job, q') := NotificationQueue.addJob (toJobData body scoringResult)
                          (World.now w') q in
      (Js.Resolve job, q', w')
  | (Js.Reject problem, w') => (Js.Reject problem, q, w')
  end.

End NotifyRoute.


(** * Vocabulary of the statements *)

Module Terms.

(** The pattern, lower-cased, occurs in the lower-cased message or in
    the lower-cased code of the error. *)
Definition occursIn (error : Js.Error) (pattern : string) : Prop :=
  Js.includes (Js.toLowerCase (Js.message error)) (Js.toLowerCase pattern) = true
  \/ exists c, Js.code error = Some c
       /\ Js.includes (Js.toLowerCase c) (Js.toLowerCase pattern) = true.

(** The error matches one of the strings of a set. *)
Definition matches (patterns : list string) (error : Js.Error) : Prop :=
  exists pattern, In pattern patterns /\ occursIn error pattern.

(** The same error written in lower case. *)
Definition lowered (error : Js.Error) : Js.Error :=
  {| Js.message := Js.toLowerCase (Js.message error);
     Js.code := Js.toLowerCase <$> Js.code error |}.

(** The configured sets of the three channels: (retryable,
    non-retryable). *)
Definition chatSets : list string * list string :=
  (["rate_limited"; "timeout"; "server_error"; "service_unavailable"],
   ["invalid_token"; "channel_not_found"; "user_not_found"]).

Definition emailSets : list string * list string :=
  (["timeout"; "quota_exceeded"; "service_unavailable"; "temporary_failure"],
   ["invalid_email"; "bounce"; "spam"; "blocked"]).

Definition webhookSets : list string * list string :=
  (["timeout"; "connection"; "server_error"; "service_unavailable"],
   ["unauthorized"; "forbidden"; "not_found"; "bad_request"]).

(** The channel predicates with the sets each is configured with. *)
Definition channelPredicates : list ((Js.Error -> bool) * (list string * list string)) :=
  [(RetryHandler.conditions.slack, chatSets);
   (RetryHandler.conditions.email, emailSets);
   (RetryHandler.conditions.webhook, webhookSets)].

(** The channels the worker supports. *)
Definition supported (channel : string) : bool :=
  String.eqb channel "slack" || String.eqb channel "email" || String.eqb channel "webhook".

(** What a job is delivered with: the call made at each attempt and the
    predicate that guards the retries; nothing when the channel is not
    supported or the target an email or webhook job needs is missing. *)
Definition delivery {Response} (services : NotificationWorker.Services Response)
    (job : NotificationQueue.JobData)
  : option (World.Operation Response * (Js.Error -> bool)) :=
  let channel := NotificationQueue.channel job in
  if String.eqb channel "slack" then
    Some (NotificationWorker.slackCall services job, RetryHandler.conditions.slack)
  else if NotificationWorker.missing (NotificationQueue.target job) then None
  else if String.eqb channel "email" then
    Some (NotificationWorker.emailCall services job, RetryHandler.conditions.email)
  else if String.eqb channel "webhook" then
    Some (NotificationWorker.webhookCall services job, RetryHandler.conditions.webhook)
  else None.

(** Every call fails, with an error the predicate accepts. *)
Definition alwaysFailsRetryably {T} (operation : World.Operation T)
    (condition : Js.Error -> bool) : Prop :=
  forall w, exists problem elapsed,
    operation w = (Js.Reject problem, elapsed)
    /\ condition (RetryHandler.asError problem) = true.

(** The message of the error a job that cannot be delivered is refused
    with, before any call is made. *)
Definition refusal (job : NotificationQueue.JobData) : string :=
  let channel := NotificationQueue.channel job in
  if String.eqb channel "email" then "Email target address is required"
  else if String.eqb channel "webhook" then "Webhook URL is required"
  else "Unsupported channel: " +:+ channel.

(** The Redis key of an identity. *)
Definition keyOf (userId : string) : string := "rate_limit:" +:+ userId.

(** The stored timestamp set of an identity, as a command at time [now]
    finds it: (timestamp, member) pairs. *)
Definition window (userId : string) (now : Z) (db : Redis.Db) : list (Z * string) :=
  Redis.entries now (keyOf userId) db.

(** A set without the entries older than the window that ends at
    [now]. *)
Definition pruned (self : RateLimiter.t) (now : Z) (entries : list (Z * string))
  : list (Z * string) :=
  List.filter (fun e => negb ((0 <=? fst e)%Z && (fst e <=? now - RateLimiter.windowMs self)%Z))
         entries.

(** The verdict of each check of a run: [Some allowed], or [None] for a
    check that rejected. *)
Definition verdicts (results : list (Js.completion RateLimiter.RateLimitResult))
  : list (option bool) :=
  map (fun c => match c with
                | Js.Resolve r => Some (RateLimiter.allowed r)
                | Js.Reject _ => None
                end) results.

(** The scorer's external call failed: it rejected, or it resolved
    without content, or with empty content. *)
Definition scorerFails (outcome : Js.completion (option AIScorer.Content)) : Prop :=
  match outcome with
  | Js.Reject _ => True
  | Js.Resolve None => True
  | Js.Resolve (Some content) => AIScorer.text content = ""
  end.

(** Nothing in the content can be read as a result: no JSON object
    that parses, no score, no priority, no [shouldSend]. *)
Definition unreadable (content : AIScorer.Content) : Prop :=
  (AIScorer.jsonMatch content = AIScorer.NoMatch
   \/ AIScorer.jsonMatch content = AIScorer.Unparsable)
  /\ AIScorer.scoreMatch content = None
  /\ AIScorer.priorityMatch content = None
  /\ AIScorer.shouldSendMatch content = None.

(** The entry a check at time [t] adds. *)
Definition stamp (t : Z) : Z * string := (t, Js.toString t).

(** The key of an identity holds the entries of the checks made at the
    times [done], and its time to live was set by one of them. *)
Definition holds (self : RateLimiter.t) (done : list Z) (key : option Redis.Key) : Prop :=
  match key with
  | None => done = []
  | Some k =>
      Redis.zset k = map stamp done
      /\ exists latest,
           In latest done
           /\ Redis.expireAt k
              = Some (latest + 1000 * Js.ceilDiv (RateLimiter.windowMs self) 1000)
  end.

End Terms.

(** * Scenarios *)

Module Scenario.

(** A process that has made no call yet. *)
Definition start : World.t :=
  {| World.now := 1700000000000; World.calls := 0; World.sleeps := [] |}.

(** An operation that fails at every call with [new Error(text)]. *)
Definition alwaysRejects {T} (text : string) (elapsed : Z) : World.Operation T :=
  fun _ => (Js.Reject (Js.ThrownError (Js.newError text)), elapsed).

(** [{ maxAttempts: 5, retryCondition: RetryHandler.conditions.slack }] *)
Definition fiveAttemptsChat : RetryHandler.RetryOptions :=
  {| RetryHandler.maxAttempts := Some 5;
     RetryHandler.delayMs := None;
     RetryHandler.backoffMultiplier := None;
     RetryHandler.maxDelayMs := None;
     RetryHandler.retryCondition := Some RetryHandler.conditions.slack |}.

(** Delivery services whose webhook call times out every time, with the
    message [sendWebhook] wraps an axios timeout in; the other two are
    not reached. *)
Definition webhookTimesOut : NotificationWorker.Services unit :=
  {| NotificationWorker.sendMessage := fun _ _ => (Js.Resolve tt, 0);
     NotificationWorker.sendEmail := fun _ _ => (Js.Resolve tt, 0);
     NotificationWorker.sendWebhook := fun _ =>
       alwaysRejects "Webhook delivery failed: timeout of 10000ms exceeded" 10000 |}.

(** The job of the end-to-end scenario: a webhook alert scored 85. *)
Definition alert : NotificationQueue.JobData :=
  {| NotificationQueue.userId := "u1";
     NotificationQueue.channel := "webhook";
     NotificationQueue.message := "alert";
     NotificationQueue.metadata := None;
     NotificationQueue.score := 85;
     NotificationQueue.priority := AIScorer.critical;
     NotificationQueue.target := Some "https://example.com/hook" |}.

(** The queue after [addJob(alert)] on an empty queue; the job has id
    "1". *)
Definition alertQueued : NotificationQueue.Queue :=
  snd (NotificationQueue.addJob alert 1700000000000 BullMQ.empty).

(** That job as stored. *)
Definition alertJob : NotificationQueue.Job :=
  fst (NotificationQueue.addJob alert 1700000000000 BullMQ.empty).

(** A payload whose score is outside 0..100. *)
Definition overscored : NotificationQueue.JobData :=
  {| NotificationQueue.userId := "u1";
     NotificationQueue.channel := "slack";
     NotificationQueue.message := "hello";
     NotificationQueue.metadata := None;
     NotificationQueue.score := 150;
     NotificationQueue.priority := AIScorer.critical;
     NotificationQueue.target := None |}.

(** The result a check falls back to when the store fails. *)
Definition failOpen (self : RateLimiter.t) (now : Z) : RateLimiter.RateLimitResult :=
  {| RateLimiter.allowed := true;
     RateLimiter.remaining := RateLimiter.maxRequests self - 1;
     RateLimiter.resetTime := now + RateLimiter.windowMs self;
     RateLimiter.retryAfter := None |}.

(** A limiter that admits two requests per second. *)
Definition twoPerSecond : RateLimiter.t :=
  {| RateLimiter.windowMs := 1000; RateLimiter.maxRequests := 2 |}.

(** [checkRateLimit(userId)] called at each of the given times in turn,
    the store healthy: the results, in order, and the store at the
    end. *)
Fixpoint checks (self : RateLimiter.t) (userId : string) (times : list Z)
    (db : Redis.Db) : list (Js.completion RateLimiter.RateLimitResult) * Redis.Db :=
  match times with
  | [] => ([], db)
  | now :: later =>
      let '(result, db') := RateLimiter.checkRateLimit self Redis.Healthy userId now db in
      let '(results, db'') := checks self userId later db' in
      (result :: results, db'')
  end.

(** A completions endpoint that cannot be reached. *)
Definition apiDown : AIScorer.ScoringRequest -> World.Operation (option AIScorer.Content) :=
  fun _ => alwaysRejects "connect ETIMEDOUT" 30000.

(** The scoring request of the end-to-end scenario. *)
Definition alertRequest : AIScorer.ScoringRequest :=
  {| AIScorer.message := "alert";
     AIScorer.metadata := None;
     AIScorer.userId := "u1";
     AIScorer.channel := "webhook" |}.

(** The request body of the end-to-end scenario. *)
Definition alertBody : NotifyRoute.Body :=
  {| NotifyRoute.userId := "u1";
     NotifyRoute.channel := "webhook";
     NotifyRoute.message := "alert";
     NotifyRoute.metadata := None;
     NotifyRoute.target := Some "https://example.com/hook" |}.

(** A completions endpoint that answers in plain text with a score of
    85. *)
Definition scores85 : AIScorer.ScoringRequest -> World.Operation (option AIScorer.Content) :=
  fun _ _ =>
    (Js.Resolve
       (Some {| AIScorer.text := "score: 85, priority: critical, shouldSend: true";
                AIScorer.jsonMatch := AIScorer.NoMatch;
                AIScorer.scoreMatch := Some 85%N;
                AIScorer.priorityMatch := Some "critical";
                AIScorer.shouldSendMatch := Some "true" |}),
     800).

(** Delivery services that succeed at the first call. *)
Definition delivers : NotificationWorker.Services unit :=
  {| NotificationWorker.sendMessage := fun _ _ => (Js.Resolve tt, 120);
     NotificationWorker.sendEmail := fun _ _ => (Js.Resolve tt, 120);
     NotificationWorker.sendWebhook := fun _ _ => (Js.Resolve tt, 120) |}.

End Scenario.

(** * More of the code *)

(** ** Runs of the retry engine *)

Module Run.

(** An operation whose outcome depends on nothing but the number of
    calls made before it: [outcomes n] is what the call made after [n]
    calls settles to, and how long it takes. *)
Definition byCall {T} (outcomes : nat -> Js.completion T * Z) : World.Operation T :=
  fun w => outcomes (World.calls w).

(** The delays [execute] waits for when it sleeps [n] times, the first
    of them [currentDelay]: each next one is
    [Math.min(currentDelay * backoffMultiplier, maxDelayMs)]. *)
Fixpoint backoff (opts : RetryHandler.Required.t) (currentDelay : Q) (n : nat) : list Q :=
  match n with
  | O => []
  | S n' =>
      currentDelay
      :: backoff opts
           (Qmin (currentDelay * RetryHandler.Required.backoffMultiplier opts)
                 (RetryHandler.Required.maxDelayMs opts))
           n'
  end.

(** The call made after [n] calls fails with an error the condition
    accepts. *)
Definition failsRetryably {T} (outcomes : nat -> Js.completion T * Z)
    (condition : Js.Error -> bool) (n : nat) : Prop :=
  exists problem elapsed,
    outcomes n = (Js.Reject problem, elapsed)
    /\ condition (RetryHandler.asError problem) = true.

End Run.

(** ** src/core/limiter.ts: the other methods *)

Module RateLimiterMethods.
Import Js.
Local Open Scope async_scope.

(** How the store answers the three commands [getRateLimitStatus]
    awaits one after the other: all three, or with a rejection of the
    first, the second or the third. *)
Inductive Answer :=
| Served
| PruneRejects (problem : thrown)
| CardRejects (problem : thrown)
| RangeRejects (problem : thrown).

(** [await this.redis.zremrangebyscore(key, 0, windowStart)] *)
Definition prune (answer : Answer) (key : string) (now windowStart : Z)
  : Async Redis.Db unit :=
  fun db =>
    match answer with
    | PruneRejects problem => (Reject problem, db)
    | _ => (Resolve tt, Redis.zremrangebyscore now key 0 windowStart db)
    end.

(** [await this.redis.zcard(key)] *)
Definition card (answer : Answer) (key : string) (now : Z) : Async Redis.Db Z :=
  fun db =>
    match answer with
    | CardRejects problem => (Reject problem, db)
    | _ => (Resolve (Redis.zcard now key db), db)
    end.

(** [await this.redis.zrange(key, 0, 0, "WITHSCORES")] *)
Definition range (answer : Answer) (key : string) (now : Z)
  : Async Redis.Db (option (string * Z)) :=
  fun db =>
    match answer with
    | RangeRejects problem => (Reject problem, db)
    | _ => (Resolve (Redis.zrangeFirst now key db), db)
    end.

(** [getRateLimitStatus(userId)], called at time [now]. *)
Definition getRateLimitStatus (self : RateLimiter.t) (answer : Answer) (userId : string)
    (now : Z) : Async Redis.Db RateLimiter.RateLimitResult :=
  let windowStart := now - RateLimiter.windowMs self in
  let key := "rate_limit:" +:+ userId in
  tryAsync
    (let* _ := prune answer key now windowStart in
     let* currentCount := card answer key now in
     let isAllowed := (currentCount <? RateLimiter.maxRequests self)%Z in
     let remaining := Z.max 0 (RateLimiter.maxRequests self - currentCount) in
     let* oldestRequest := range answer key now in
     let resetTime :=
       match oldestRequest with
       | Some (_, score) => score + RateLimiter.windowMs self
       | None => now + RateLimiter.windowMs self
       end in
     ret {| RateLimiter.allowed := isAllowed;
            RateLimiter.remaining := remaining;
            RateLimiter.resetTime := resetTime;
            RateLimiter.retryAfter :=
              if isAllowed then None else Some (ceilDiv (resetTime - now) 1000) |})
    (fun _ =>
       ret {| RateLimiter.allowed := true;
              RateLimiter.remaining := RateLimiter.maxRequests self;
              RateLimiter.resetTime := now + RateLimiter.windowMs self;
              RateLimiter.retryAfter := None |}).

(** What the middleware reads of a request. *)
Record Request := { userId : option string; ip : option string }.

(** The body of the 429 response. *)
Record TooMany := { error : string; message : string; retryAfter : option Z }.

(** What the middleware does with the request: it passes it on with
    [next()], or it answers it. *)
Inductive Reply :=
| Next (headers : gmap string string)
| Json (status : Z) (headers : gmap string string) (body : TooMany).

(** [req.userId || req.ip || "anonymous"] *)
Definition identity (req : Request) : string :=
  NotificationWorker.orString (userId req)
    (NotificationWorker.orString (ip req) "anonymous").

(** The three headers set on every checked request. *)
Definition limitHeaders (self : RateLimiter.t) (result : RateLimiter.RateLimitResult)
  : gmap string string :=
  <["X-RateLimit-Reset" := toString (ceilDiv (RateLimiter.resetTime result) 1000)]>
    (<["X-RateLimit-Remaining" := toString (RateLimiter.remaining result)]>
       (<["X-RateLimit-Limit" := toString (RateLimiter.maxRequests self)]> ∅)).

(** [result.retryAfter?.toString() || "60"] *)
Definition retryAfterHeader (result : RateLimiter.RateLimitResult) : string :=
  NotificationWorker.orString (toString <$> RateLimiter.retryAfter result) "60".

(** The handler [middleware()] returns, for a request met at time
    [now]. *)
Definition middleware (self : RateLimiter.t) (answer : Redis.Answer) (req : Request)
    (now : Z) : Async Redis.Db Reply :=
  tryAsync
    (let* result := RateLimiter.checkRateLimit self answer (identity req) now in
     let headers := limitHeaders self result in
     if RateLimiter.allowed result then ret (Next headers)
     else
       ret (Json 429 (<["Retry-After" := retryAfterHeader result]> headers)
              {| error := "Rate limit exceeded";
                 message := "Too many requests. Please try again later.";
                 retryAfter := RateLimiter.retryAfter result |}))
    (fun _ => ret (Next ∅)).

End RateLimiterMethods.

(** ** The stored window *)

Module Window.

(** The entries stored under the key of an identity, whether or not
    its time to live has run out. *)
Definition stored (userId : string) (db : Redis.Db) : list (Z * string) :=
  match db !! Terms.keyOf userId with
  | Some k => Redis.zset k
  | None => []
  end.

(** The last of the times of a run that follows a check at [start]. *)
Definition latest (start : Z) (times : list Z) : Z := List.last times start.

End Window.

(** ** Cases the statements are tried on *)

Module Case.

(** A call that times out twice and then goes through. *)
Definition flaky : nat -> Js.completion unit * Z :=
  fun n =>
    if (n <? 2)%nat then (Js.Reject (Js.ThrownError (Js.newError "timeout")), 10000)
    else (Js.Resolve tt, 150).

(** A call that times out once and is then refused for good. *)
Definition revoked : nat -> Js.completion unit * Z :=
  fun n =>
    if (n <? 1)%nat then (Js.Reject (Js.ThrownError (Js.newError "timeout")), 10000)
    else (Js.Reject (Js.ThrownError (Js.newError "invalid_token")), 90).

(** [{ retryCondition: RetryHandler.conditions.slack }] *)
Definition chat : RetryHandler.RetryOptions :=
  NotificationWorker.onlyCondition RetryHandler.conditions.slack.

(** [{ maxAttempts: 0 }] *)
Definition noAttempts : RetryHandler.RetryOptions :=
  {| RetryHandler.maxAttempts := Some 0;
     RetryHandler.delayMs := None;
     RetryHandler.backoffMultiplier := None;
     RetryHandler.maxDelayMs := None;
     RetryHandler.retryCondition := None |}.

End Case.

(** ** Submissions to the queue *)

Module Submissions.


(** A payload that is nothing but its score. *)
Definition scored (score : Z) : NotificationQueue.JobData :=
  {| NotificationQueue.userId := "u1";
     NotificationQueue.channel := "slack";
     NotificationQueue.message := "hello";
     NotificationQueue.metadata := None;
     NotificationQueue.score := score;
     NotificationQueue.priority := AIScorer.getPriorityFromScore score;
     NotificationQueue.target := None |}.

End Submissions.

(** ** src/api/routes/notify.ts: the estimate of the response *)

Module NotifyResponse.

(** [getEstimatedDeliveryTime(score)] *)
Definition getEstimatedDeliveryTime (score : Z) : string :=
  if (score >=? 80)%Z then "immediate"
  else if (score >=? 60)%Z then "within 5 minutes"
  else if (score >=? 30)%Z then "within 10 minutes"
  else "within 30 minutes".

End NotifyResponse.

(** ** src/services/slack.ts *)

Module SlackService.
Import Js.

(** [slack.botToken] *)
Record t := { token : option string }.

(** [response.data] of [chat.postMessage]. *)
Record Reply := {
  ok : bool;
  replyChannel : option string;
  replyTs : option string;
  replyError : option string
}.

Record SlackResponse := { channel : option string; ts : option string }.

Section Send.
(** [axios.post(`${this.baseUrl}/chat.postMessage`, payload, ...)] for
    the payload built from the message: it resolves with the body of a
    2xx reply and rejects otherwise. *)
Variable post : NotificationWorker.SlackMessage -> World.Operation Reply.

(** [sendMessage(message)] *)
Definition sendMessage (self : t) (message : NotificationWorker.SlackMessage)
  : World.Operation SlackResponse :=
  fun w =>
    if NotificationWorker.missing (token self) then
      (Reject (ThrownError (newError "Slack bot token not configured")), 0)
    else
      let '(response, elapsed) := post message w in
      (tryCatch
         (match response with
          | Resolve result =>
              if negb (ok result) then
                Reject (ThrownError
                          (newError ("Slack API error: "
                                     +:+ NotificationWorker.orString (replyError result)
                                           "Unknown error")))
              else Resolve {| channel := replyChannel result; ts := replyTs result |}
          | Reject problem => Reject problem
          end)
         (fun error =>
            Reject (ThrownError
                      (newError ("Slack delivery failed: " +:+ messageOrUnknown error)))),
       elapsed).

End Send.

End SlackService.

(** ** src/services/email.ts *)

Module EmailService.
Import Js.

(** [sendgrid.apiKey] and [sendgrid.fromEmail] *)
Record t := { apiKey : option string; fromEmail : option string }.

Record EmailResponse := { messageId : option string }.

Section Send.
(** [sgMail.send(msg)] for the mail built from the message and the
    sender address: it resolves with the [x-message-id] header of the
    response, if there is one. *)
Variable send : NotificationWorker.EmailMessage -> string -> World.Operation (option string).

(** [sendEmail(message)] *)
Definition sendEmail (self : t) (message : NotificationWorker.EmailMessage)
  : World.Operation EmailResponse :=
  fun w =>
    if NotificationWorker.missing (apiKey self) then
      (Reject (ThrownError (newError "SendGrid API key not configured")), 0)
    else if NotificationWorker.missing (fromEmail self) then
      (Reject (ThrownError (newError "From email address not configured")), 0)
    else
      let '(response, elapsed) := send message (default "" (fromEmail self)) w in
      (tryCatch
         (match response with
          | Resolve id => Resolve {| messageId := id |}
          | Reject problem => Reject problem
          end)
         (fun error =>
            Reject (ThrownError
                      (newError ("Email delivery failed: " +:+ messageOrUnknown error)))),
       elapsed).

End Send.

End EmailService.

(** ** src/services/webhook.ts *)

Module WebhookService.
Import Js.
Local Open Scope async_scope.

Record WebhookMessage (P : Type) := {
  url : string;
  payload : P;
  headers : option (gmap string string);
  timeout : option Z
}.
Arguments url {P} _.
Arguments payload {P} _.
Arguments headers {P} _.
Arguments timeout {P} _.

Record WebhookResponse := {
  success : bool;
  statusCode : Z;
  responseData : string
}.

(** An HTTP response: [response.status] and [response.data]. *)
Record AxiosResponse := { status : Z; data : string }.

(** What [axios.post] is called with. *)
Record Request (P : Type) := {
  requestUrl : string;
  requestPayload : P;
  requestHeaders : gmap string string;
  requestTimeout : Z
}.
Arguments requestUrl {P} _.
Arguments requestPayload {P} _.
Arguments requestHeaders {P} _.
Arguments requestTimeout {P} _.

Definition defaultTimeout : Z := 10000.
Definition maxTimeout : Z := 30000.

(** [Math.min(message.timeout || this.defaultTimeout, this.maxTimeout)] *)
Definition timeoutOf {P} (message : WebhookMessage P) : Z :=
  Z.min (match timeout message with
         | Some 0 | None => defaultTimeout
         | Some ms => ms
         end)
        maxTimeout.

(** The headers: those of the message are spread last. *)
Definition headersOf {P} (message : WebhookMessage P) : gmap string string :=
  default ∅ (headers message)
  ∪ <["Content-Type" := "application/json"]>
      (<["User-Agent" := "AI-Notifier/1.0"]>
         (<["X-Source" := "ai-notifier"]> ∅)).

Section Send.
Context {P : Type}.

(** [new URL(url).protocol], or [None] when the constructor throws. *)
Variable protocolOf : string -> option string.

(** The HTTP exchange under [axios]: it resolves with the response,
    whatever its status, and rejects when there is none. *)
Variable exchange : Request P -> World.Operation AxiosResponse.

(** [isValidUrl(url)] *)
Definition isValidUrl (url : string) : bool :=
  match protocolOf url with
  | Some protocol => String.eqb protocol "http:" || String.eqb protocol "https:"
  | None => false
  end.

(** [axios.post(url, payload, { headers, timeout, validateStatus })]:
    a response whose status [validateStatus] refuses is turned into a
    rejection. *)
Definition axiosPost (validateStatus : Z -> bool) (request : Request P)
  : World.Operation AxiosResponse :=
  fun w =>
    let '(outcome, elapsed) := exchange request w in
    (match outcome with
     | Resolve response =>
         if validateStatus (status response) then Resolve response
         else Reject (ThrownError
                        (newError ("Request failed with status code "
                                   +:+ toString (status response))))
     | Reject problem => Reject problem
     end,
     elapsed).

(** The request [sendWebhook] makes for a message. *)
Definition requestOf (message : WebhookMessage P) : Request P :=
  {| requestUrl := url message;
     requestPayload := payload message;
     requestHeaders := headersOf message;
     requestTimeout := timeoutOf message |}.

(** [sendWebhook(message)] *)
Definition sendWebhook (message : WebhookMessage P) : World.Operation WebhookResponse :=
  fun w =>
    let '(attempt, elapsed) :=
      if negb (isValidUrl (url message)) then
        (Reject (ThrownError (newError "Invalid webhook URL")), 0)
      else
        let '(outcome, elapsed) :=
          axiosPost (fun status => (status <? 500)%Z) (requestOf message) w in
        (match outcome with
         | Resolve response =>
             Resolve {| success := (status response >=? 200)%Z
                                   && (status response <? 300)%Z;
                        statusCode := status response;
                        responseData := data response |}
         | Reject problem => Reject problem
         end,
         elapsed) in
    (tryCatch attempt
       (fun error =>
          Reject (ThrownError
                    (newError ("Webhook delivery failed: " +:+ messageOrUnknown error)))),
     elapsed).

(** [Math.min(1000 * Math.pow(2, attempt - 1), 10000)] *)
Definition retryDelay (attempt : Z) : Z := Z.min (1000 * 2 ^ (attempt - 1)) 10000.

(** How the [for] loop of [sendWebhookWithRetry] is left: by the
    [return], by the [throw] in the [catch] block, or at its end (or
    by [break]) with [lastError]. *)
Inductive LoopExit :=
| Returned (response : WebhookResponse)
| Thrown (error : thrown)
| Left (lastError : option Error).

(** The loop over the attempts that are left. *)
Fixpoint retryLoop (message : WebhookMessage P) (maxRetries : Z) (todo : list Z)
    (lastError : option Error) (w : World.t) : LoopExit * World.t :=
  match todo with
  | [] => (Left lastError, w)
  | attempt :: rest =>
      match World.invoke (sendWebhook message) w with
      | (Resolve response, w1) => (Returned response, w1)
      | (Reject error, w1) =>
          let lastError := Some (RetryHandler.asError error) in
          if match error with
             | ThrownError e => includes (Js.message e) "4"
             | ThrownValue _ => false
             end
          then (Thrown error, w1)
          else if (attempt =? maxRetries)%Z then (Left lastError, w1)
          else
            retryLoop message maxRetries rest lastError
              (World.sleep (inject_Z (retryDelay attempt)) w1)
      end
  end.

(** [sendWebhookWithRetry(message, maxRetries)], [maxRetries] an
    integer. *)
Definition sendWebhookWithRetry (message : WebhookMessage P) (maxRetries : Z)
  : Async World.t WebhookResponse :=
  fun w =>
    match retryLoop message maxRetries (RetryHandler.attemptNumbers maxRetries) None w with
    | (Returned response, w') => (Resolve response, w')
    | (Thrown error, w') => (Reject error, w')
    | (Left lastError, w') =>
        (Reject (ThrownError
                   (default (newError "Webhook delivery failed after retries") lastError)),
         w')
    end.

End Send.

End WebhookService.

(** ** The services as the worker holds them *)

Module Deployed.

(** The worker reads of a response only that it came. *)
Definition settled {A} (operation : World.Operation A) : World.Operation unit :=
  fun w =>
    let '(outcome, elapsed) := operation w in
    (match outcome with
     | Js.Resolve _ => Js.Resolve tt
     | Js.Reject problem => Js.Reject problem
     end,
     elapsed).

(** The message [deliverToWebhook] passes: a URL and a payload, no
    headers and no timeout. *)
Definition webhookMessage (m : NotificationWorker.WebhookMessage)
  : WebhookService.WebhookMessage NotificationWorker.WebhookPayload :=
  {| WebhookService.url := NotificationWorker.url m;
     WebhookService.payload := NotificationWorker.payload m;
     WebhookService.headers := None;
     WebhookService.timeout := None |}.

Section Services.
Variable slack : SlackService.t.
Variable post : NotificationWorker.SlackMessage -> World.Operation SlackService.Reply.
Variable email : EmailService.t.
Variable send : NotificationWorker.EmailMessage -> string -> World.Operation (option string).
Variable protocolOf : string -> option string.
Variable exchange :
  WebhookService.Request NotificationWorker.WebhookPayload
  -> World.Operation WebhookService.AxiosResponse.

(** [new SlackService()], [new EmailService()] and
    [new WebhookService()], as the worker's constructor makes them. *)
Definition services : NotificationWorker.Services unit :=
  {| NotificationWorker.sendMessage :=
       fun m => settled (SlackService.sendMessage post slack m);
     NotificationWorker.sendEmail :=
       fun m => settled (EmailService.sendEmail send email m);
     NotificationWorker.sendWebhook :=
       fun m => settled (WebhookService.sendWebhook protocolOf exchange (webhookMessage m)) |}.

End Services.

End Deployed.

(** ** src/api/index.ts: who a request is taken to be *)

Module App.
Import Js.
Local Open Scope async_scope.

(** What the middlewares read of a request, and the [userId] property
    [authenticateUser] sets on it. *)
Record Request := {
  headerUserId : option string;
  queryUserId : option string;
  bodyUserId : option string;
  ip : option string;
  userId : option string
}.

(** A middleware passes the request on with [next()], or answers
    it. *)
Inductive Step :=
| Continue (req : Request)
| Respond (status : Z) (error : string).

(** [authenticateUser(req, res, next)] *)
Definition authenticateUser (req : Request) : Step :=
  let userId :=
    NotificationWorker.orString (headerUserId req)
      (NotificationWorker.orString (queryUserId req)
         (NotificationWorker.orString (bodyUserId req) "anonymous")) in
  if String.eqb userId "" then Respond 401 "Unauthorized"
  else Continue {| headerUserId := headerUserId req;
                   queryUserId := queryUserId req;
                   bodyUserId := bodyUserId req;
                   ip := ip req;
                   userId := Some userId |}.

(** [rateLimiter.middleware()] on the request. *)
Definition rateLimit (limiter : RateLimiter.t) (answer : Redis.Answer) (now : Z)
    (req : Request) : Async Redis.Db Step :=
  let* reply :=
    RateLimiterMethods.middleware limiter answer
      {| RateLimiterMethods.userId := userId req; RateLimiterMethods.ip := ip req |} now in
  match reply with
  | RateLimiterMethods.Next _ => ret (Continue req)
  | RateLimiterMethods.Json status _ body =>
      ret (Respond status (RateLimiterMethods.error body))
  end.

(** The way of a request to a route of [notifyRoutes] in the
    application [createApp] builds, as far as the identity goes:
    [app.use(rateLimiter.middleware())] comes first, the route's
    [authenticateUser] after it. *)
Definition receive (limiter : RateLimiter.t) (answer : Redis.Answer) (now : Z)
    (req : Request) : Async Redis.Db Step :=
  let* step := rateLimit limiter answer now req in
  match step with
  | Continue req' => ret (authenticateUser req')
  | Respond status error => ret (Respond status error)
  end.

End App.

(** ** Characters of a string *)

Module Text.

(** Every character of the string passes the test. *)
Fixpoint every (test : ascii -> bool) (s : string) : bool :=
  match s with
  | EmptyString => true
  | String c rest => test c && every test rest
  end.

(** A character [toString] writes: a decimal digit or the sign. *)
Definition numeral (c : ascii) : bool :=
  let n := nat_of_ascii c in
  ((48 <=? n) && (n <=? 57))%nat || (n =? 45)%nat.

(** The string is not empty, has no space in it and does not occur
    in [context]. *)
Definition foreignTo (context : string) (s : string) : bool :=
  negb (String.eqb s "") && negb (Js.includes s " ") && negb (Js.includes context s).

End Text.

(** ** A deployment the statements are tried on *)

Module Site.

(** A worker with a Slack token and SendGrid settings. *)
Definition slack : SlackService.t := {| SlackService.token := Some "xoxb-1" |}.

Definition email : EmailService.t :=
  {| EmailService.apiKey := Some "SG.1";
     EmailService.fromEmail := Some "noreply@example.com" |}.

(** A worker without either. *)
Definition noSlack : SlackService.t := {| SlackService.token := None |}.

Definition noEmail : EmailService.t :=
  {| EmailService.apiKey := None; EmailService.fromEmail := None |}.

(** Slack accepts every message. *)
Definition posted : NotificationWorker.SlackMessage -> World.Operation SlackService.Reply :=
  fun m _ =>
    (Js.Resolve {| SlackService.ok := true;
                   SlackService.replyChannel := Some (NotificationWorker.slackChannel m);
                   SlackService.replyTs := Some "1700000000.000100";
                   SlackService.replyError := None |},
     120).

(** Slack refuses every message as rate limited. *)
Definition rateLimited
  : NotificationWorker.SlackMessage -> World.Operation SlackService.Reply :=
  fun _ _ =>
    (Js.Resolve {| SlackService.ok := false;
                   SlackService.replyChannel := None;
                   SlackService.replyTs := None;
                   SlackService.replyError := Some "rate_limited" |},
     90).

(** SendGrid accepts every mail. *)
Definition mailed
  : NotificationWorker.EmailMessage -> string -> World.Operation (option string) :=
  fun _ _ _ => (Js.Resolve (Some "m-1"), 200).

(** The protocol of a URL, as far as the cases go: https and http
    URLs are parsed, anything else is not. *)
Definition protocolOf (url : string) : option string :=
  if String.prefix "https://" url then Some "https:"
  else if String.prefix "http://" url then Some "http:"
  else None.

(** An endpoint that answers every request with the given status. *)
Definition answers (status : Z)
  : WebhookService.Request NotificationWorker.WebhookPayload
    -> World.Operation WebhookService.AxiosResponse :=
  fun _ _ =>
    (Js.Resolve {| WebhookService.status := status; WebhookService.data := "" |}, 80).

(** The services of a worker whose webhook endpoint answers with the
    given status. *)
Definition services (status : Z) : NotificationWorker.Services unit :=
  Deployed.services slack posted email mailed protocolOf (answers status).

(** The services of a worker that was given no credentials. *)
Definition bare : NotificationWorker.Services unit :=
  Deployed.services noSlack posted noEmail mailed protocolOf (answers 200).

(** A chat job, as stored. *)
Definition chatJob : NotificationQueue.Job :=
  fst (NotificationQueue.addJob (Submissions.scored 85) 1700000000000 BullMQ.empty).

(** A message for the hook of the cases, with nothing but a URL. *)
Definition hook : WebhookService.WebhookMessage unit :=
  {| WebhookService.url := "https://example.com/hook";
     WebhookService.payload := tt;
     WebhookService.headers := None;
     WebhookService.timeout := None |}.

(** A network on which every request fails with the given message. *)
Definition fails (text : string)
  : WebhookService.Request unit -> World.Operation WebhookService.AxiosResponse :=
  fun _ _ => (Js.Reject (Js.ThrownError (Js.newError text)), 5).

(** A request from the address 203.0.113.9 that names the user
    alice in its header. *)
Definition fromAlice : App.Request :=
  {| App.headerUserId := Some "alice";
     App.queryUserId := None;
     App.bodyUserId := None;
     App.ip := Some "203.0.113.9";
     App.userId := None |}.

End Site.

(** * Properties *)

Example lower_mixed : Js.toLowerCase "Rate_Limited: 429" = "rate_limited: 429".
Proof. reflexivity. Qed.

Example includes_inner : Js.includes "slack api error: invalid_token" "invalid_token" = true.
Proof. reflexivity. Qed.

Example toString_1000 : Js.toString 1000 = "1000".
Proof. reflexivity. Qed.

Example ceilDiv_up : Js.ceilDiv 59001 1000 = 60.
Proof. reflexivity. Qed.

(** ** The score policy *)

Lemma getJobPriority_cases (score : Z) :
  (NotificationQueue.getJobPriority score = 1 /\ 80 <= score)
  \/ (NotificationQueue.getJobPriority score = 2 /\ 60 <= score < 80)
  \/ (NotificationQueue.getJobPriority score = 3 /\ 30 <= score < 60)
  \/ (NotificationQueue.getJobPriority score = 4 /\ score < 30).
Proof.
  unfold NotificationQueue.getJobPriority.
  destruct (Z.geb_spec score 80); [left; lia|].
  destruct (Z.geb_spec score 60); [right; left; lia|].
  destruct (Z.geb_spec score 30); [right; right; left; lia|].
  right; right; right; lia.
Qed.

Lemma getJobDelay_cases (score : Z) :
  (NotificationQueue.getJobDelay score = 0 /\ 60 <= score)
  \/ (NotificationQueue.getJobDelay score = 5000 /\ 30 <= score < 60)
  \/ (NotificationQueue.getJobDelay score = 30000 /\ score < 30).
Proof.
  unfold NotificationQueue.getJobDelay.
  destruct (Z.geb_spec score 60); [left; lia|].
  destruct (Z.geb_spec score 30); [right; left; lia|].
  right; right; lia.
Qed.

Lemma addJob_options (payload : NotificationQueue.JobData) (now : Z)
    (q : NotificationQueue.Queue) :
  BullMQ.opts (fst (NotificationQueue.addJob payload now q))
  = {| BullMQ.priority := NotificationQueue.getJobPriority (NotificationQueue.score payload);
       BullMQ.delay := NotificationQueue.getJobDelay (NotificationQueue.score payload);
       BullMQ.attempts := 3 |}.
Proof. reflexivity. Qed.

(** C1.  For every score, the job [addJob] stores carries scheduling
    rank 1 exactly when the score is at least 80, rank 2 exactly when it
    is in 60..79, rank 3 exactly when it is in 30..59 and rank 4 exactly
    when it is below 30; and initial delay 0 exactly when the score is at
    least 60, 5000 ms exactly when it is in 30..59 and 30000 ms exactly
    when it is below 30. *)
Theorem C1_rank_and_delay_by_score :
  forall (payload : NotificationQueue.JobData) (now : Z) (q : NotificationQueue.Queue),
    let score := NotificationQueue.score payload in
    let options := BullMQ.opts (fst (NotificationQueue.addJob payload now q)) in
    (BullMQ.priority options = 1 <-> 80 <= score)
    /\ (BullMQ.priority options = 2 <-> 60 <= score < 80)
    /\ (BullMQ.priority options = 3 <-> 30 <= score < 60)
    /\ (BullMQ.priority options = 4 <-> score < 30)
    /\ (BullMQ.delay options = 0 <-> 60 <= score)
    /\ (BullMQ.delay options = 5000 <-> 30 <= score < 60)
    /\ (BullMQ.delay options = 30000 <-> score < 30).
Proof.
  intros payload now q score options.
  subst options. rewrite addJob_options. cbn [BullMQ.priority BullMQ.delay].
  fold score.
  destruct (getJobPriority_cases score) as [H|[H|[H|H]]];
    destruct (getJobDelay_cases score) as [G|[G|G]];
    destruct H as [-> ?]; destruct G as [-> ?]; lia.
Qed.

(** ** The retry predicates *)

Lemma includes_empty_pattern (s : string) : Js.includes s "" = true.
Proof. destruct s; reflexivity. Qed.

Lemma includes_in_empty (x : string) : Js.includes "" x = true -> x = "".
Proof. destruct x; cbn; [reflexivity | discriminate]. Qed.

Lemma lowerChar_idempotent (c : ascii) : Js.lowerChar (Js.lowerChar c) = Js.lowerChar c.
Proof. destruct c as [[] [] [] [] [] [] [] []]; reflexivity. Qed.

Lemma toLowerCase_idempotent (s : string) :
  Js.toLowerCase (Js.toLowerCase s) = Js.toLowerCase s.
Proof.
  induction s as [|c s IH]; cbn; [reflexivity|].
  now rewrite lowerChar_idempotent, IH.
Qed.

(** The test made on one pattern in both loops of
    [createRetryCondition] says that the pattern occurs in the error. *)
Lemma pattern_test_occurs (error : Js.Error) (pattern : string) :
  Js.includes (Js.toLowerCase (Js.message error)) (Js.toLowerCase pattern)
  || Js.includes (match Js.code error with
                  | Some c => Js.toLowerCase c
                  | None => ""
                  end) (Js.toLowerCase pattern) = true
  <-> Terms.occursIn error pattern.
Proof.
  unfold Terms.occursIn. rewrite orb_true_iff. split.
  - intros [H|H]; [now left|].
    destruct (Js.code error) as [c|] eqn:E.
    + right. now exists c.
    + left. apply includes_in_empty in H. rewrite H. apply includes_empty_pattern.
  - intros [H|(c & E & H)]; [now left|].
    right. now rewrite E.
Qed.

Lemma matchesAny_matches (error : Js.Error) (patterns : list string) :
  RetryHandler.matchesAny
    (Js.toLowerCase (Js.message error))
    (match Js.code error with Some c => Js.toLowerCase c | None => "" end)
    patterns = true
  <-> Terms.matches patterns error.
Proof.
  unfold Terms.matches.
  induction patterns as [|p rest IH]; cbn [RetryHandler.matchesAny].
  - split; [discriminate | intros (p & [] & _)].
  - destruct (_ || _) eqn:T.
    + split; [intros _ | reflexivity].
      exists p. split; [now left | now apply pattern_test_occurs].
    + rewrite IH. split.
      * intros (p' & Hin & Hocc). exists p'. split; [now right | assumption].
      * intros (p' & [<-|Hin] & Hocc).
        -- apply pattern_test_occurs in Hocc. congruence.
        -- now exists p'.
Qed.

Lemma matchesAny_not_matches (error : Js.Error) (patterns : list string) :
  RetryHandler.matchesAny
    (Js.toLowerCase (Js.message error))
    (match Js.code error with Some c => Js.toLowerCase c | None => "" end)
    patterns = false
  <-> ~ Terms.matches patterns error.
Proof.
  rewrite <- matchesAny_matches. now destruct (RetryHandler.matchesAny _ _ _).
Qed.

(** The non-retryable set wins. *)
Lemma condition_nonRetryable (retryable nonRetryable : list string) (error : Js.Error) :
  Terms.matches nonRetryable error ->
  RetryHandler.createRetryCondition retryable nonRetryable error = false.
Proof.
  intros H. apply matchesAny_matches in H.
  unfold RetryHandler.createRetryCondition. now rewrite H.
Qed.

(** With an allow-list, what matches neither set is not retried. *)
Lemma condition_unlisted (retryable nonRetryable : list string) (error : Js.Error) :
  retryable <> [] ->
  ~ Terms.matches retryable error ->
  RetryHandler.createRetryCondition retryable nonRetryable error = false.
Proof.
  intros Hne H. apply matchesAny_not_matches in H.
  unfold RetryHandler.createRetryCondition.
  destruct (RetryHandler.matchesAny _ _ nonRetryable); [reflexivity|].
  destruct retryable as [|r rs]; [contradiction|].
  cbn [length Nat.ltb Nat.leb]. now rewrite H.
Qed.

(** What matches the allow-list and not the non-retryable set is
    retried. *)
Lemma condition_retryable (retryable nonRetryable : list string) (error : Js.Error) :
  ~ Terms.matches nonRetryable error ->
  Terms.matches retryable error ->
  RetryHandler.createRetryCondition retryable nonRetryable error = true.
Proof.
  intros Hnon Hret.
  apply matchesAny_not_matches in Hnon. apply matchesAny_matches in Hret.
  unfold RetryHandler.createRetryCondition. rewrite Hnon, Hret.
  now destruct (0 <? length retryable)%nat.
Qed.

(** Without an allow-list, everything outside the non-retryable set is
    retried. *)
Lemma condition_default (nonRetryable : list string) (error : Js.Error) :
  ~ Terms.matches nonRetryable error ->
  RetryHandler.createRetryCondition [] nonRetryable error = true.
Proof.
  intros Hnon. apply matchesAny_not_matches in Hnon.
  unfold RetryHandler.createRetryCondition. now rewrite Hnon.
Qed.

(** The case of the error's letters does not matter. *)
Lemma condition_case_insensitive (retryable nonRetryable : list string) (error : Js.Error) :
  RetryHandler.createRetryCondition retryable nonRetryable (Terms.lowered error)
  = RetryHandler.createRetryCondition retryable nonRetryable error.
Proof.
  unfold RetryHandler.createRetryCondition, Terms.lowered. cbn [Js.message Js.code].
  rewrite toLowerCase_idempotent.
  destruct (Js.code error) as [c|]; cbn [fmap option_fmap option_map];
    [rewrite toLowerCase_idempotent|]; reflexivity.
Qed.

Lemma channelPredicates_spec (predicate : Js.Error -> bool)
    (sets : list string * list string) :
  In (predicate, sets) Terms.channelPredicates ->
  predicate = RetryHandler.createRetryCondition (fst sets) (snd sets) /\ fst sets <> [].
Proof.
  unfold Terms.channelPredicates.
  intros [H|[H|[H|[]]]]; inversion H; subst; split; (reflexivity || discriminate).
Qed.

(** C4.  Each channel predicate (chat, email, webhook) classifies an
    error by the strings of its two sets, matched without regard to case
    against the error's message and code, the non-retryable set first: an
    error that matches the non-retryable set is not retryable, whatever
    else it matches; an error that matches neither set is not retryable;
    an error that matches the retryable set and not the non-retryable one
    is retryable; and the verdict is the same for the error written in
    lower case.  For chat, an error whose code is invalid_token (in any
    case) is not retryable, and an error whose message contains
    rate_limited, and which matches no non-retryable string, is
    retryable. *)
Theorem C4_channel_predicates :
  forall (error : Js.Error),
    (forall predicate sets,
        In (predicate, sets) Terms.channelPredicates ->
        (Terms.matches (snd sets) error -> predicate error = false)
        /\ (~ Terms.matches (fst sets) error -> predicate error = false)
        /\ (~ Terms.matches (snd sets) error -> Terms.matches (fst sets) error ->
            predicate error = true)
        /\ predicate (Terms.lowered error) = predicate error)
    /\ (forall c, Js.code error = Some c -> Js.toLowerCase c = "invalid_token" ->
        RetryHandler.conditions.slack error = false)
    /\ (Js.includes (Js.toLowerCase (Js.message error)) "rate_limited" = true ->
        ~ Terms.matches (snd Terms.chatSets) error ->
        RetryHandler.conditions.slack error = true).
Proof.
  intros error. split; [|split].
  - intros predicate sets Hin.
    destruct (channelPredicates_spec _ _ Hin) as [-> Hne].
    repeat split.
    + apply condition_nonRetryable.
    + now apply condition_unlisted.
    + apply condition_retryable.
    + apply condition_case_insensitive.
  - intros c Hcode Hlow. apply condition_nonRetryable.
    exists "invalid_token". split; [now left|].
    right. exists c. split; [assumption|]. now rewrite Hlow.
  - intros Hmsg Hnon. apply condition_retryable; [assumption|].
    exists "rate_limited". split; [now left|]. now left.
Qed.

(** C4 at two errors: a chat error with code INVALID_TOKEN whose message
    mentions a timeout, and a chat error whose message says
    rate_limited. *)
Lemma C4_channel_predicates_witness :
  RetryHandler.conditions.slack
    {| Js.message := "Slack delivery failed: timeout"; Js.code := Some "INVALID_TOKEN" |}
  = false
  /\ RetryHandler.conditions.slack
       {| Js.message := "Slack API error: rate_limited"; Js.code := None |}
     = true.
Proof.
  split.
  - apply (proj1 (proj2 (C4_channel_predicates
                           {| Js.message := "Slack delivery failed: timeout";
                              Js.code := Some "INVALID_TOKEN" |})) "INVALID_TOKEN");
      reflexivity.
  - apply (proj2 (proj2 (C4_channel_predicates
                           {| Js.message := "Slack API error: rate_limited";
                              Js.code := None |}))).
    + reflexivity.
    + intros H. apply matchesAny_not_matches in H; [exact H | reflexivity].
Defined.

(** ** The retry engine *)

Section ExecuteFacts.
Context {T : Type}.
Variable opts : RetryHandler.Required.t.
Variable operation : World.Operation T.
Variable startTime : Z.

Lemma invoke_rejected (w : World.t) (problem : Js.thrown) (elapsed : Z) :
  operation w = (Js.Reject problem, elapsed) ->
  World.invoke operation w
  = (Js.Reject problem,
     {| World.now := World.now w + Z.max 0 elapsed;
        World.calls := S (World.calls w);
        World.sleeps := World.sleeps w |}).
Proof. intros H. unfold World.invoke. now rewrite H. Qed.

Lemma invoke_resolved (w : World.t) (value : T) (elapsed : Z) :
  operation w = (Js.Resolve value, elapsed) ->
  World.invoke operation w
  = (Js.Resolve value,
     {| World.now := World.now w + Z.max 0 elapsed;
        World.calls := S (World.calls w);
        World.sleeps := World.sleeps w |}).
Proof. intros H. unfold World.invoke. now rewrite H. Qed.

(** An attempt that fails with an error the condition refuses ends the
    loop on the spot. *)
Lemma attemptLoop_refused (attempt : Z) (rest : list Z) (currentDelay : Q)
    (lastError : option Js.Error) (w : World.t) (problem : Js.thrown) (elapsed : Z) :
  operation w = (Js.Reject problem, elapsed) ->
  RetryHandler.Required.retryCondition opts (RetryHandler.asError problem) = false ->
  RetryHandler.attemptLoop opts operation startTime (attempt :: rest) currentDelay
    lastError w
  = (RetryHandler.Left (Some (RetryHandler.asError problem)),
     snd (World.invoke operation w)).
Proof.
  intros Hop Hcond. cbn [RetryHandler.attemptLoop].
  rewrite (invoke_rejected _ _ _ Hop). cbn [snd]. now rewrite Hcond.
Qed.

(** When every call fails with an error the condition accepts, the loop
    over the attempts [a .. maxAttempts] calls the operation once per
    attempt, sleeps between two attempts, and is left with the error of
    the last call. *)
Lemma attemptLoop_exhausted :
  (forall w, exists problem elapsed,
      operation w = (Js.Reject problem, elapsed)
      /\ RetryHandler.Required.retryCondition opts (RetryHandler.asError problem) = true) ->
  forall (len a : nat) (currentDelay : Q) (lastError : option Js.Error) (w : World.t),
    Z.of_nat (a + len) = RetryHandler.Required.maxAttempts opts ->
    exists lastWorld problem elapsed,
      operation lastWorld = (Js.Reject problem, elapsed)
      /\ World.calls lastWorld = (World.calls w + len)%nat
      /\ length (World.sleeps lastWorld) = (length (World.sleeps w) + len)%nat
      /\ RetryHandler.attemptLoop opts operation startTime
           (map Z.of_nat (seq a (S len))) currentDelay lastError w
         = (RetryHandler.Left (Some (RetryHandler.asError problem)),
            snd (World.invoke operation lastWorld)).
Proof.
  intros Hfail. induction len as [|len IH]; intros a currentDelay lastError w Hmax.
  - destruct (Hfail w) as (problem & elapsed & Hop & Hcond).
    exists w, problem, elapsed. repeat split; try lia; [assumption|].
    cbn [seq map RetryHandler.attemptLoop].
    rewrite (invoke_rejected _ _ _ Hop). cbn [snd]. rewrite Hcond. cbn [negb].
    replace (Z.of_nat a =? _)%Z with true; [reflexivity|].
    symmetry. apply Z.eqb_eq. rewrite <- Hmax. f_equal. lia.
  - destruct (Hfail w) as (problem & elapsed & Hop & Hcond).
    change (seq a (S (S len))) with (a :: seq (S a) (S len)).
    cbn [map RetryHandler.attemptLoop].
    rewrite (invoke_rejected _ _ _ Hop). rewrite Hcond. cbn [negb].
    replace (Z.of_nat a =? _)%Z with false
      by (symmetry; apply Z.eqb_neq; lia).
    match goal with
    | |- context [RetryHandler.attemptLoop _ _ _ _ ?d ?e ?w2] =>
        destruct (IH (S a) d e w2) as (lastWorld & p & el & Hl & Hcalls & Hsleeps & Hloop);
          [lia|]
    end.
    exists lastWorld, p, el. repeat split; try assumption.
    + rewrite Hcalls. cbn. lia.
    + rewrite Hsleeps. cbn. rewrite length_app. cbn. lia.
Qed.

End ExecuteFacts.

Lemma attemptNumbers_positive (maxAttempts : Z) :
  1 <= maxAttempts ->
  RetryHandler.attemptNumbers maxAttempts
  = map Z.of_nat (seq 1 (S (Z.to_nat maxAttempts - 1))).
Proof.
  intros H. unfold RetryHandler.attemptNumbers.
  replace (S (Z.to_nat maxAttempts - 1)) with (Z.to_nat maxAttempts) by lia.
  reflexivity.
Qed.

(** [execute] when the first call fails with an error the condition
    refuses: one call, no sleep, and [attempts] is [maxAttempts]. *)
Lemma execute_refused {T} (self : RetryHandler.t) (operation : World.Operation T)
    (options : RetryHandler.RetryOptions) (w : World.t)
    (problem : Js.thrown) (elapsed : Z) :
  let opts := RetryHandler.spread (RetryHandler.defaultOptions self) options in
  1 <= RetryHandler.Required.maxAttempts opts ->
  operation w = (Js.Reject problem, elapsed) ->
  RetryHandler.Required.retryCondition opts (RetryHandler.asError problem) = false ->
  RetryHandler.execute self operation options w
  = ({| RetryHandler.success := false;
        RetryHandler.data := None;
        RetryHandler.error := Some (RetryHandler.asError problem);
        RetryHandler.attempts := RetryHandler.Required.maxAttempts opts;
        RetryHandler.totalTimeMs := Z.max 0 elapsed |},
     {| World.now := World.now w + Z.max 0 elapsed;
        World.calls := S (World.calls w);
        World.sleeps := World.sleeps w |}).
Proof.
  intros opts Hmax Hop Hcond. unfold RetryHandler.execute. fold opts.
  rewrite (attemptNumbers_positive _ Hmax).
  change (seq 1 (S ?n)) with (1%nat :: seq 2 n). cbn [map].
  rewrite (attemptLoop_refused opts operation _ _ _ _ _ _ _ _ Hop Hcond).
  rewrite (invoke_rejected _ _ _ _ Hop). cbn [snd World.now].
  do 2 f_equal. lia.
Qed.

(** [execute] when every call fails with an error the condition
    accepts: [maxAttempts] calls, one sleep fewer, and the error of the
    last call in the result. *)
Lemma execute_exhausted {T} (self : RetryHandler.t) (operation : World.Operation T)
    (options : RetryHandler.RetryOptions) (w : World.t) :
  let opts := RetryHandler.spread (RetryHandler.defaultOptions self) options in
  1 <= RetryHandler.Required.maxAttempts opts ->
  (forall w', exists problem elapsed,
      operation w' = (Js.Reject problem, elapsed)
      /\ RetryHandler.Required.retryCondition opts (RetryHandler.asError problem) = true) ->
  exists lastWorld problem elapsed,
    operation lastWorld = (Js.Reject problem, elapsed)
    /\ Z.of_nat (World.calls lastWorld)
       = Z.of_nat (World.calls w) + RetryHandler.Required.maxAttempts opts - 1
    /\ Z.of_nat (length (World.sleeps lastWorld))
       = Z.of_nat (length (World.sleeps w)) + RetryHandler.Required.maxAttempts opts - 1
    /\ snd (RetryHandler.execute self operation options w)
       = snd (World.invoke operation lastWorld)
    /\ RetryHandler.success (fst (RetryHandler.execute self operation options w)) = false
    /\ RetryHandler.error (fst (RetryHandler.execute self operation options w))
       = Some (RetryHandler.asError problem)
    /\ RetryHandler.attempts (fst (RetryHandler.execute self operation options w))
       = RetryHandler.Required.maxAttempts opts.
Proof.
  intros opts Hmax Hfail. unfold RetryHandler.execute. fold opts.
  rewrite (attemptNumbers_positive _ Hmax).
  destruct (attemptLoop_exhausted opts operation (World.now w) Hfail
              (Z.to_nat (RetryHandler.Required.maxAttempts opts) - 1) 1
              (RetryHandler.Required.delayMs opts) None w)
    as (lastWorld & problem & elapsed & Hop & Hcalls & Hsleeps & Hloop); [lia|].
  exists lastWorld, problem, elapsed. rewrite Hloop. cbn [fst snd].
  repeat split; try assumption; lia.
Qed.

(** C3 (the code at the failing input).  An operation that fails with
    the chat error invalid_token, run with [maxAttempts = 5] under the
    chat predicate: [execute] calls it once and never sleeps, and the
    result it returns says [attempts = 5]. *)
Theorem C3_refused_error_attempts_reported :
  let run := RetryHandler.execute RetryHandler.retryHandler
               (Scenario.alwaysRejects (T := unit) "invalid_token" 40)
               Scenario.fiveAttemptsChat Scenario.start in
  World.calls (snd run) = 1%nat
  /\ World.sleeps (snd run) = []
  /\ RetryHandler.success (fst run) = false
  /\ RetryHandler.attempts (fst run) = 5.
Proof. vm_compute. repeat split. Qed.

(** ** The worker *)

Section WorkerFacts.
Context {Response : Type}.
Variable handler : RetryHandler.t.
Variable services : NotificationWorker.Services Response.

Lemma route_delivery (job : NotificationQueue.JobData) (w : World.t)
    (operation : World.Operation Response) (condition : Js.Error -> bool) :
  Terms.delivery services job = Some (operation, condition) ->
  NotificationWorker.route handler services job w
  = (Js.Resolve
       (NotificationWorker.report
          (fst (RetryHandler.execute handler operation
                  (NotificationWorker.onlyCondition condition) w))),
     snd (RetryHandler.execute handler operation
            (NotificationWorker.onlyCondition condition) w)).
Proof.
  unfold Terms.delivery, NotificationWorker.route,
    NotificationWorker.deliverToSlack, NotificationWorker.deliverToEmail,
    NotificationWorker.deliverToWebhook.
  destruct (String.eqb (NotificationQueue.channel job) "slack").
  - intros [= <- <-]. now destruct (RetryHandler.execute _ _ _ _).
  - destruct (NotificationWorker.missing _); [discriminate|].
    destruct (String.eqb (NotificationQueue.channel job) "email").
    + intros [= <- <-]. now destruct (RetryHandler.execute _ _ _ _).
    + destruct (String.eqb (NotificationQueue.channel job) "webhook"); [|discriminate].
      intros [= <- <-]. now destruct (RetryHandler.execute _ _ _ _).
Qed.

Lemma route_no_delivery (job : NotificationQueue.JobData) (w : World.t) :
  Terms.delivery services job = None ->
  NotificationWorker.route handler services job w
  = (Js.Reject (Js.ThrownError (Js.newError (Terms.refusal job))), w).
Proof.
  unfold Terms.delivery, Terms.refusal, NotificationWorker.route,
    NotificationWorker.deliverToEmail, NotificationWorker.deliverToWebhook.
  destruct (String.eqb (NotificationQueue.channel job) "slack") eqn:Es; [discriminate|].
  destruct (NotificationWorker.missing _).
  - intros _.
    destruct (String.eqb (NotificationQueue.channel job) "email"); [reflexivity|].
    now destruct (String.eqb (NotificationQueue.channel job) "webhook").
  - destruct (String.eqb (NotificationQueue.channel job) "email"); [discriminate|].
    now destruct (String.eqb (NotificationQueue.channel job) "webhook").
Qed.

(** [processJob] on a job that is delivered: the report of [execute],
    stamped with the delivery time. *)
Lemma processJob_delivery (job : NotificationQueue.Job) (w : World.t)
    (operation : World.Operation Response) (condition : Js.Error -> bool) :
  Terms.delivery services (NotificationQueue.jobData (BullMQ.data job))
  = Some (operation, condition) ->
  let run := RetryHandler.execute handler operation
               (NotificationWorker.onlyCondition condition) w in
  NotificationWorker.processJob handler services job w
  = (Js.Resolve
       {| NotificationQueue.success := RetryHandler.success (fst run);
          NotificationQueue.deliveryTime := Some (World.now (snd run) - World.now w);
          NotificationQueue.error := Js.message <$> RetryHandler.error (fst run);
          NotificationQueue.attempts := RetryHandler.attempts (fst run) |},
     snd run).
Proof.
  intros Hd run. unfold NotificationWorker.processJob, Js.tryAsync, Js.bind.
  rewrite (route_delivery _ _ _ _ Hd). fold run.
  unfold NotificationWorker.report. cbn.
  now destruct (RetryHandler.error (fst run)).
Qed.

(** [processJob] on a job that is not: a failure result with the
    message of the refusal, and no call made. *)
Lemma processJob_no_delivery (job : NotificationQueue.Job) (w : World.t) :
  Terms.delivery services (NotificationQueue.jobData (BullMQ.data job)) = None ->
  NotificationWorker.processJob handler services job w
  = (Js.Resolve
       {| NotificationQueue.success := false;
          NotificationQueue.deliveryTime := None;
          NotificationQueue.error :=
            Some (Terms.refusal (NotificationQueue.jobData (BullMQ.data job)));
          NotificationQueue.attempts := BullMQ.attemptsMade job |},
     w).
Proof.
  intros Hd. unfold NotificationWorker.processJob, Js.tryAsync, Js.bind.
  now rewrite (route_no_delivery _ _ Hd).
Qed.

(** [processJob] resolves, whatever the job and the services. *)
Lemma processJob_resolves (job : NotificationQueue.Job) (w : World.t) :
  exists result w',
    NotificationWorker.processJob handler services job w = (Js.Resolve result, w').
Proof.
  destruct (Terms.delivery services (NotificationQueue.jobData (BullMQ.data job)))
    as [[operation condition]|] eqn:Hd.
  - eexists _, _. apply (processJob_delivery _ _ _ _ Hd).
  - eexists _, _. apply (processJob_no_delivery _ _ Hd).
Qed.

(** The queue after the worker has run a job: the job is completed with
    what [processJob] resolved to, and keeps its count of attempts. *)
Lemma work_completes (jobId : string) (q : NotificationQueue.Queue) (w : World.t)
    (stored : NotificationQueue.Job) (result : NotificationQueue.JobResult)
    (w' : World.t) :
  BullMQ.getJob jobId q = Some stored ->
  NotificationWorker.processJob handler services (BullMQ.activate stored) w
  = (Js.Resolve result, w') ->
  snd (NotificationWorker.work handler services jobId q w) = w'
  /\ exists settled,
       BullMQ.getJob jobId (fst (NotificationWorker.work handler services jobId q w))
       = Some settled
       /\ BullMQ.state settled = BullMQ.completed
       /\ BullMQ.returnvalue settled = Some result
       /\ BullMQ.attemptsMade settled = BullMQ.attemptsMade stored
       /\ BullMQ.progress settled = BullMQ.progress stored
       /\ BullMQ.failedReason settled = BullMQ.failedReason stored.
Proof.
  intros Hget Hrun. unfold NotificationWorker.work, BullMQ.work.
  rewrite Hget, Hrun. cbn [fst snd]. split; [reflexivity|].
  eexists. split.
  - unfold BullMQ.getJob. cbn [BullMQ.jobs]. apply lookup_insert_eq.
  - cbn. repeat split.
Qed.

End WorkerFacts.

Lemma spread_onlyCondition (defaults : RetryHandler.Required.t)
    (condition : Js.Error -> bool) :
  RetryHandler.Required.maxAttempts
    (RetryHandler.spread defaults (NotificationWorker.onlyCondition condition))
  = RetryHandler.Required.maxAttempts defaults
  /\ RetryHandler.Required.retryCondition
       (RetryHandler.spread defaults (NotificationWorker.onlyCondition condition))
     = condition.
Proof. split; reflexivity. Qed.

Lemma unsupported_no_delivery {Response} (services : NotificationWorker.Services Response)
    (job : NotificationQueue.JobData) :
  Terms.supported (NotificationQueue.channel job) = false ->
  Terms.delivery services job = None
  /\ Terms.refusal job = "Unsupported channel: " +:+ NotificationQueue.channel job.
Proof.
  unfold Terms.supported, Terms.delivery, Terms.refusal.
  destruct (String.eqb _ "slack"); [discriminate|].
  destruct (String.eqb _ "email"); [discriminate|].
  destruct (String.eqb _ "webhook"); [discriminate|].
  intros _. split; [|reflexivity].
  now destruct (NotificationWorker.missing _).
Qed.

(** A job delivered by calls that all fail retryably: the outcome of
    [processJob]. *)
Lemma processJob_exhausted {Response} (handler : RetryHandler.t)
    (services : NotificationWorker.Services Response)
    (job : NotificationQueue.Job) (w : World.t)
    (operation : World.Operation Response) (condition : Js.Error -> bool) :
  let maxAttempts := RetryHandler.Required.maxAttempts (RetryHandler.defaultOptions handler) in
  Terms.delivery services (NotificationQueue.jobData (BullMQ.data job))
  = Some (operation, condition) ->
  1 <= maxAttempts ->
  Terms.alwaysFailsRetryably operation condition ->
  exists lastWorld problem elapsed,
    operation lastWorld = (Js.Reject problem, elapsed)
    /\ Z.of_nat (World.calls lastWorld) = Z.of_nat (World.calls w) + maxAttempts - 1
    /\ Z.of_nat (length (World.sleeps lastWorld))
       = Z.of_nat (length (World.sleeps w)) + maxAttempts - 1
    /\ NotificationWorker.processJob handler services job w
       = (Js.Resolve
            {| NotificationQueue.success := false;
               NotificationQueue.deliveryTime :=
                 Some (World.now (snd (World.invoke operation lastWorld)) - World.now w);
               NotificationQueue.error := Some (Js.message (RetryHandler.asError problem));
               NotificationQueue.attempts := maxAttempts |},
          snd (World.invoke operation lastWorld)).
Proof.
  intros maxAttempts Hd Hmax Hfail.
  destruct (execute_exhausted handler operation
              (NotificationWorker.onlyCondition condition) w)
    as (lastWorld & problem & elapsed & Hop & Hcalls & Hsleeps & Hw & Hs & He & Ha).
  - exact Hmax.
  - exact Hfail.
  - exists lastWorld, problem, elapsed.
    rewrite (processJob_delivery handler services _ _ _ _ Hd).
    rewrite Hw, Hs, He, Ha.
    repeat split; assumption.
Qed.

(** C10.  [processJob] always resolves with a [JobResult] and never
    rejects.  A job on an unsupported channel, a job whose delivery
    fails with an error its channel's predicate refuses, and a job
    whose every delivery attempt fails, each give a result with
    [success = false] and the message of the error.  The queue therefore
    sees the processor resolve: it records the job as completed with
    that result, counts no failed attempt and does not queue the job
    again. *)
Theorem C10_processJob_always_resolves :
  forall (Response : Type) (handler : RetryHandler.t)
         (services : NotificationWorker.Services Response)
         (jobId : string) (q : NotificationQueue.Queue)
         (stored : NotificationQueue.Job) (w : World.t),
    BullMQ.getJob jobId q = Some stored ->
    let job := BullMQ.activate stored in
    let data := NotificationQueue.jobData (BullMQ.data stored) in
    let maxAttempts :=
      RetryHandler.Required.maxAttempts (RetryHandler.defaultOptions handler) in
    exists result w',
      NotificationWorker.processJob handler services job w = (Js.Resolve result, w')
      /\ (Terms.supported (NotificationQueue.channel data) = false ->
          w' = w
          /\ result
             = {| NotificationQueue.success := false;
                  NotificationQueue.deliveryTime := None;
                  NotificationQueue.error :=
                    Some ("Unsupported channel: " +:+ NotificationQueue.channel data);
                  NotificationQueue.attempts := BullMQ.attemptsMade stored |})
      /\ (forall operation condition problem elapsed,
             Terms.delivery services data = Some (operation, condition) ->
             1 <= maxAttempts ->
             operation w = (Js.Reject problem, elapsed) ->
             condition (RetryHandler.asError problem) = false ->
             NotificationQueue.success result = false
             /\ NotificationQueue.error result
                = Some (Js.message (RetryHandler.asError problem))
             /\ World.calls w' = S (World.calls w))
      /\ (forall operation condition,
             Terms.delivery services data = Some (operation, condition) ->
             1 <= maxAttempts ->
             Terms.alwaysFailsRetryably operation condition ->
             NotificationQueue.success result = false
             /\ Z.of_nat (World.calls w') = Z.of_nat (World.calls w) + maxAttempts
             /\ exists lastWorld problem elapsed,
                  operation lastWorld = (Js.Reject problem, elapsed)
                  /\ snd (World.invoke operation lastWorld) = w'
                  /\ NotificationQueue.error result
                     = Some (Js.message (RetryHandler.asError problem)))
      /\ snd (NotificationWorker.work handler services jobId q w) = w'
      /\ exists settled,
           BullMQ.getJob jobId (fst (NotificationWorker.work handler services jobId q w))
           = Some settled
           /\ BullMQ.state settled = BullMQ.completed
           /\ BullMQ.queued (BullMQ.state settled) = false
           /\ BullMQ.returnvalue settled = Some result
           /\ BullMQ.attemptsMade settled = BullMQ.attemptsMade stored
           /\ BullMQ.failedReason settled = BullMQ.failedReason stored.
Proof.
  intros Response handler services jobId q stored w Hget job data maxAttempts.
  destruct (processJob_resolves handler services job w) as (result & w' & Hrun).
  exists result, w'. split; [exact Hrun|].
  split; [|split; [|split]].
  - intros Hun.
    destruct (unsupported_no_delivery services data Hun) as [Hd Hmsg].
    rewrite (processJob_no_delivery handler services job w Hd) in Hrun.
    fold data in Hmsg. cbn [BullMQ.data BullMQ.activate job] in Hrun.
    fold data in Hrun. rewrite Hmsg in Hrun.
    injection Hrun as <- <-. split; reflexivity.
  - intros operation condition problem elapsed Hd Hmax Hop Hcond.
    rewrite (processJob_delivery handler services job w _ _ Hd) in Hrun.
    rewrite (execute_refused handler operation _ w problem elapsed) in Hrun;
      [| exact Hmax | exact Hop | exact Hcond].
    injection Hrun as <- <-. repeat split.
  - intros operation condition Hd Hmax Hfail.
    destruct (processJob_exhausted handler services job w operation condition
                Hd Hmax Hfail)
      as (lastWorld & problem & elapsed & Hop & Hcalls & _ & Hrun').
    rewrite Hrun' in Hrun. injection Hrun as <- <-.
    split; [reflexivity|]. split.
    + rewrite (invoke_rejected _ _ _ _ Hop). cbn [snd World.calls].
      fold maxAttempts in Hcalls. lia.
    + exists lastWorld, problem, elapsed. repeat split. exact Hop.
  - destruct (work_completes handler services jobId q w stored result w' Hget Hrun)
      as (Hw & settled & Hs & Hstate & Hret & Hmade & _ & Hreason).
    split; [exact Hw|].
    exists settled. rewrite Hstate. repeat split; assumption.
Qed.

(** C10 at the webhook alert whose delivery times out every time. *)
Lemma C10_processJob_always_resolves_witness :
  exists result w',
    NotificationWorker.processJob RetryHandler.retryHandler Scenario.webhookTimesOut
      (BullMQ.activate Scenario.alertJob) Scenario.start
    = (Js.Resolve result, w')
    /\ snd (NotificationWorker.work RetryHandler.retryHandler Scenario.webhookTimesOut
              "1" Scenario.alertQueued Scenario.start) = w'.
Proof.
  destruct (C10_processJob_always_resolves unit RetryHandler.retryHandler
              Scenario.webhookTimesOut "1" Scenario.alertQueued Scenario.alertJob
              Scenario.start eq_refl)
    as (result & w' & Hrun & _ & _ & _ & Hw & _).
  exists result, w'. split; assumption.
Defined.

Lemma webhook_timeout_retryable :
  Terms.alwaysFailsRetryably
    (NotificationWorker.webhookCall Scenario.webhookTimesOut Scenario.alert)
    RetryHandler.conditions.webhook.
Proof.
  intros w. eexists _, _. split; reflexivity.
Qed.

(** C2 (as stated, at a concrete job).  The webhook alert whose delivery
    times out at every attempt, a retryable error for webhooks: the
    worker calls the service three times, and the job is then in the
    queue state [completed], not [failed]. *)
Lemma C2_counterexample :
  let after := NotificationWorker.work RetryHandler.retryHandler
                 Scenario.webhookTimesOut "1" Scenario.alertQueued Scenario.start in
  Terms.alwaysFailsRetryably
    (NotificationWorker.webhookCall Scenario.webhookTimesOut Scenario.alert)
    RetryHandler.conditions.webhook
  /\ World.calls (snd after) = 3%nat
  /\ NotificationQueue.status <$> NotificationQueue.getJobStatus "1" (fst after)
     = Some BullMQ.completed
  /\ NotificationQueue.status <$> NotificationQueue.getJobStatus "1" (fst after)
     <> Some BullMQ.failed.
Proof.
  split; [exact webhook_timeout_retryable|].
  split; [vm_compute; reflexivity|].
  assert (H : NotificationQueue.status
                <$> NotificationQueue.getJobStatus "1"
                      (fst (NotificationWorker.work RetryHandler.retryHandler
                              Scenario.webhookTimesOut "1" Scenario.alertQueued
                              Scenario.start))
              = Some BullMQ.completed) by (vm_compute; reflexivity).
  split; [exact H|]. cbv zeta. rewrite H. discriminate.
Qed.

(** C2 (amended).  A job whose every delivery attempt fails with an
    error its channel's predicate accepts, under [maxAttempts = 3]: the
    worker makes three calls with two sleeps between them, and
    [processJob] resolves with a [JobResult] that says
    [success = false], [attempts = 3] and carries the message of the
    third call's error.  The queue records the job as completed with
    that result as its return value; the job is not queued again, and
    [getJobStatus] reports [completed] with that result. *)
Theorem C2_exhausted_job_completes_with_failure_result :
  forall (Response : Type) (handler : RetryHandler.t)
         (services : NotificationWorker.Services Response)
         (jobId : string) (q : NotificationQueue.Queue)
         (stored : NotificationQueue.Job) (w : World.t)
         (operation : World.Operation Response) (condition : Js.Error -> bool),
    RetryHandler.Required.maxAttempts (RetryHandler.defaultOptions handler) = 3 ->
    BullMQ.getJob jobId q = Some stored ->
    Terms.delivery services (NotificationQueue.jobData (BullMQ.data stored))
    = Some (operation, condition) ->
    Terms.alwaysFailsRetryably operation condition ->
    let after := NotificationWorker.work handler services jobId q w in
    World.calls (snd after) = (World.calls w + 3)%nat
    /\ length (World.sleeps (snd after)) = (length (World.sleeps w) + 2)%nat
    /\ exists lastWorld problem elapsed settled,
         operation lastWorld = (Js.Reject problem, elapsed)
         /\ World.calls lastWorld = (World.calls w + 2)%nat
         /\ let outcome :=
              {| NotificationQueue.success := false;
                 NotificationQueue.deliveryTime :=
                   Some (World.now (snd after) - World.now w);
                 NotificationQueue.error :=
                   Some (Js.message (RetryHandler.asError problem));
                 NotificationQueue.attempts := 3 |} in
            NotificationWorker.processJob handler services (BullMQ.activate stored) w
            = (Js.Resolve outcome, snd after)
            /\ BullMQ.getJob jobId (fst after) = Some settled
            /\ BullMQ.state settled = BullMQ.completed
            /\ BullMQ.queued (BullMQ.state settled) = false
            /\ BullMQ.returnvalue settled = Some outcome
            /\ BullMQ.attemptsMade settled = BullMQ.attemptsMade stored
            /\ NotificationQueue.getJobStatus jobId (fst after)
               = Some {| NotificationQueue.status := BullMQ.completed;
                         NotificationQueue.statusProgress := BullMQ.progress stored;
                         NotificationQueue.statusAttempts := BullMQ.attemptsMade stored;
                         NotificationQueue.result := Some outcome |}.
Proof.
  intros Response handler services jobId q stored w operation condition
    Hmax Hget Hd Hfail after.
  destruct (processJob_exhausted handler services (BullMQ.activate stored) w
              operation condition Hd ltac:(rewrite Hmax; lia) Hfail)
    as (lastWorld & problem & elapsed & Hop & Hcalls & Hsleeps & Hrun).
  rewrite Hmax in Hcalls, Hsleeps, Hrun.
  destruct (work_completes handler services jobId q w stored _ _ Hget Hrun)
    as (Hw & settled & Hs & Hstate & Hret & Hmade & Hprogress & Hreason).
  fold after in Hw, Hs. rewrite Hw.
  rewrite (invoke_rejected _ _ _ _ Hop). cbn [snd World.calls World.sleeps World.now].
  split; [lia|]. split; [lia|].
  exists lastWorld, problem, elapsed, settled.
  split; [exact Hop|]. split; [lia|]. cbv zeta.
  rewrite (invoke_rejected _ _ _ _ Hop) in Hrun, Hret.
  cbn [snd World.now] in Hrun, Hret.
  split; [exact Hrun|]. split; [exact Hs|]. split; [exact Hstate|].
  split; [now rewrite Hstate|]. split; [exact Hret|]. split; [exact Hmade|].
  unfold NotificationQueue.getJobStatus. rewrite Hs, Hstate, Hret, Hmade, Hprogress.
  reflexivity.
Qed.

(** C2 (amended) at the webhook alert whose delivery times out every
    time. *)
Lemma C2_exhausted_job_completes_with_failure_result_witness :
  World.calls
    (snd (NotificationWorker.work RetryHandler.retryHandler Scenario.webhookTimesOut
            "1" Scenario.alertQueued Scenario.start))
  = 3%nat.
Proof.
  exact (proj1 (C2_exhausted_job_completes_with_failure_result
                  unit RetryHandler.retryHandler Scenario.webhookTimesOut "1"
                  Scenario.alertQueued Scenario.alertJob Scenario.start
                  (NotificationWorker.webhookCall Scenario.webhookTimesOut Scenario.alert)
                  RetryHandler.conditions.webhook
                  eq_refl eq_refl eq_refl webhook_timeout_retryable)).
Defined.

(** ** The rate limiter *)

(** C7.  When the store fails during a check (the pipeline's [exec]
    rejects or resolves to [null], or the [zrange] that follows
    rejects), [checkRateLimit] does not reject and does not deny: it
    resolves with [allowed = true].  With a healthy store it resolves as
    well, so it never rejects. *)
Theorem C7_fails_open :
  forall (self : RateLimiter.t) (userId : string) (now : Z) (db : Redis.Db)
         (problem : Js.thrown),
    fst (RateLimiter.checkRateLimit self (Redis.ExecRejects problem) userId now db)
    = Js.Resolve (Scenario.failOpen self now)
    /\ fst (RateLimiter.checkRateLimit self Redis.ExecNull userId now db)
       = Js.Resolve (Scenario.failOpen self now)
    /\ fst (RateLimiter.checkRateLimit self (Redis.ZrangeRejects problem) userId now db)
       = Js.Resolve (Scenario.failOpen self now)
    /\ RateLimiter.allowed (Scenario.failOpen self now) = true
    /\ exists result,
         fst (RateLimiter.checkRateLimit self Redis.Healthy userId now db)
         = Js.Resolve result.
Proof.
  intros self userId now db problem.
  unfold RateLimiter.checkRateLimit, Js.tryAsync, Js.bind, RateLimiter.exec,
    RateLimiter.zrange, Js.throw, Js.ret.
  split; [reflexivity|]. split; [reflexivity|].
  split; [now destruct (RateLimiter.pipeline _ _ _ _ _)|].
  split; [reflexivity|].
  destruct (RateLimiter.pipeline _ _ _ _ _). eexists. reflexivity.
Qed.

(** *** The Redis commands *)

Lemma live_lookup (t : Z) (key : string) (db : Redis.Db) (k : Redis.Key) :
  Redis.live t key db = Some k ->
  db !! key = Some k
  /\ forall deadline, Redis.expireAt k = Some deadline -> (deadline <=? t)%Z = false.
Proof.
  unfold Redis.live. destruct (db !! key) as [k'|]; [|discriminate].
  destruct (Redis.expireAt k') as [deadline|] eqn:E.
  - destruct (deadline <=? t)%Z eqn:D; [discriminate|].
    intros [= <-]. split; [reflexivity|]. intros d. rewrite E. now intros [= <-].
  - intros [= <-]. split; [reflexivity|]. intros d. rewrite E. discriminate.
Qed.

Lemma entries_insert (t : Z) (key : string) (db : Redis.Db) (k : Redis.Key) :
  (forall deadline, Redis.expireAt k = Some deadline -> (deadline <=? t)%Z = false) ->
  Redis.entries t key (<[key := k]> db) = Redis.zset k.
Proof.
  intros H. unfold Redis.entries, Redis.live. rewrite lookup_insert_eq.
  destruct (Redis.expireAt k) as [deadline|]; [|reflexivity].
  now rewrite (H deadline eq_refl).
Qed.

Lemma entries_delete (t : Z) (key : string) (db : Redis.Db) :
  Redis.entries t key (delete key db) = [].
Proof. unfold Redis.entries, Redis.live. now rewrite lookup_delete_eq. Qed.

Lemma entries_zremrangebyscore (t : Z) (key : string) (min max : Z) (db : Redis.Db) :
  Redis.entries t key (Redis.zremrangebyscore t key min max db)
  = List.filter (fun e => negb ((min <=? fst e)%Z && (fst e <=? max)%Z))
           (Redis.entries t key db).
Proof.
  unfold Redis.zremrangebyscore.
  destruct (Redis.live t key db) as [k|] eqn:L.
  - destruct (live_lookup _ _ _ _ L) as [_ Halive].
    unfold Redis.entries at 2. rewrite L.
    destruct (List.filter _ (Redis.zset k)) as [|e kept] eqn:F.
    + apply entries_delete.
    + now rewrite entries_insert.
  - unfold Redis.entries at 2. rewrite L. apply entries_delete.
Qed.

Lemma entries_zadd (t : Z) (key : string) (score : Z) (member : string) (db : Redis.Db) :
  Redis.entries t key (Redis.zadd t key score member db)
  = Redis.place (score, member)
      (List.filter (fun e => negb (String.eqb (snd e) member)) (Redis.entries t key db)).
Proof.
  unfold Redis.zadd, Redis.entries at 2.
  destruct (Redis.live t key db) as [k|] eqn:L.
  - destruct (live_lookup _ _ _ _ L) as [_ Halive]. now rewrite entries_insert.
  - now rewrite entries_insert.
Qed.

Lemma entries_expire (t : Z) (key : string) (seconds : Z) (db : Redis.Db) :
  0 < seconds ->
  Redis.entries t key (Redis.expire t key seconds db) = Redis.entries t key db.
Proof.
  intros Hs. unfold Redis.expire, Redis.entries at 2.
  destruct (Redis.live t key db) as [k|] eqn:L.
  - replace (seconds <=? 0)%Z with false by (symmetry; apply Z.leb_gt; lia).
    rewrite entries_insert; [reflexivity|].
    cbn [Redis.expireAt]. intros deadline [= <-]. apply Z.leb_gt. lia.
  - apply entries_delete.
Qed.

Lemma ceilDiv_positive (x : Z) : 0 < x -> 0 < Js.ceilDiv x 1000.
Proof.
  intros H. unfold Js.ceilDiv.
  assert (- x / 1000 < 0) by (apply Z.div_lt_upper_bound; lia). lia.
Qed.

Lemma In_place (x e : Z * string) (l : list (Z * string)) :
  In e (Redis.place x l) <-> e = x \/ In e l.
Proof.
  induction l as [|y rest IH]; cbn [Redis.place].
  - cbn. intuition congruence.
  - destruct (Redis.before x y); cbn [In]; [intuition congruence|].
    rewrite IH. intuition congruence.
Qed.

Lemma length_place (x : Z * string) (l : list (Z * string)) :
  length (Redis.place x l) = S (length l).
Proof.
  induction l as [|y rest IH]; cbn [Redis.place]; [reflexivity|].
  destruct (Redis.before x y); cbn [length]; [reflexivity|]. now rewrite IH.
Qed.

(** *** One check with a healthy store *)

(** The window an identity is left with: the window it had, pruned, with
    the member of the current time placed in it. *)
Lemma window_after_pipeline (self : RateLimiter.t) (userId : string) (now : Z)
    (db : Redis.Db) :
  0 < RateLimiter.windowMs self ->
  Terms.window userId now
    (snd (RateLimiter.pipeline self (Terms.keyOf userId) now
            (now - RateLimiter.windowMs self) db))
  = Redis.place (now, Js.toString now)
      (List.filter (fun e => negb (String.eqb (snd e) (Js.toString now)))
              (Terms.pruned self now (Terms.window userId now db))).
Proof.
  intros Hw. unfold RateLimiter.pipeline, Terms.window, Terms.pruned. cbn [snd].
  rewrite entries_expire by now apply ceilDiv_positive.
  now rewrite entries_zadd, entries_zremrangebyscore.
Qed.

Lemma count_of_pipeline (self : RateLimiter.t) (userId : string) (now : Z)
    (db : Redis.Db) :
  fst (RateLimiter.pipeline self (Terms.keyOf userId) now
         (now - RateLimiter.windowMs self) db)
  = Z.of_nat (length (Terms.pruned self now (Terms.window userId now db))).
Proof.
  unfold RateLimiter.pipeline, Terms.window, Terms.pruned, Redis.zcard. cbn [fst].
  now rewrite entries_zremrangebyscore.
Qed.

(** What a check with a healthy store resolves to, and the store it
    leaves. *)
Lemma check_healthy (self : RateLimiter.t) (userId : string) (now : Z) (db : Redis.Db) :
  let count := Z.of_nat (length (Terms.pruned self now (Terms.window userId now db))) in
  let db' := snd (RateLimiter.pipeline self (Terms.keyOf userId) now
                    (now - RateLimiter.windowMs self) db) in
  let resetTime := match Terms.window userId now db' with
                   | [] => now + RateLimiter.windowMs self
                   | (score, _) :: _ => score + RateLimiter.windowMs self
                   end in
  RateLimiter.checkRateLimit self Redis.Healthy userId now db
  = (Js.Resolve
       {| RateLimiter.allowed := (count <? RateLimiter.maxRequests self)%Z;
          RateLimiter.remaining := Z.max 0 (RateLimiter.maxRequests self - count);
          RateLimiter.resetTime := resetTime;
          RateLimiter.retryAfter :=
            if (count <? RateLimiter.maxRequests self)%Z then None
            else Some (Js.ceilDiv (resetTime - now) 1000) |},
     db').
Proof.
  intros count db' resetTime.
  unfold RateLimiter.checkRateLimit, Js.tryAsync, Js.bind, RateLimiter.exec,
    RateLimiter.zrange, Js.ret.
  fold (Terms.keyOf userId).
  pose proof (count_of_pipeline self userId now db) as Hc. fold count in Hc.
  destruct (RateLimiter.pipeline self (Terms.keyOf userId) now
              (now - RateLimiter.windowMs self) db) as [c d] eqn:P.
  cbn [fst] in Hc. subst c. subst db'. cbn [snd] in *.
  subst resetTime. unfold Terms.window, Redis.zrangeFirst.
  destruct (Redis.entries now (Terms.keyOf userId) d) as [|[score member] rest];
    reflexivity.
Qed.

(** Each command of the pipeline touches the key it is given and no
    other. *)
Lemma pipeline_frame (self : RateLimiter.t) (key other : string) (now windowStart : Z)
    (db : Redis.Db) :
  other <> key ->
  snd (RateLimiter.pipeline self key now windowStart db) !! other = db !! other.
Proof.
  intros Hne. unfold RateLimiter.pipeline. cbn [snd].
  assert (Hkeep : forall (d : Redis.Db) k, (<[key := k]> d) !! other = d !! other)
    by (intros; apply lookup_insert_ne; congruence).
  assert (Hdrop : forall d : Redis.Db, delete key d !! other = d !! other)
    by (intros; apply lookup_delete_ne; congruence).
  assert (Hrem : forall d lo hi,
             Redis.zremrangebyscore now key lo hi d !! other = d !! other).
  { intros d lo hi. unfold Redis.zremrangebyscore.
    destruct (Redis.live now key d); [|apply Hdrop].
    destruct (List.filter _ _); [apply Hdrop | apply Hkeep]. }
  assert (Hadd : forall d score member,
             Redis.zadd now key score member d !! other = d !! other).
  { intros d score member. unfold Redis.zadd. apply Hkeep. }
  assert (Hexp : forall d seconds, Redis.expire now key seconds d !! other = d !! other).
  { intros d seconds. unfold Redis.expire.
    destruct (Redis.live now key d); [|apply Hdrop].
    destruct (seconds <=? 0)%Z; [apply Hdrop | apply Hkeep]. }
  now rewrite Hexp, Hadd, Hrem.
Qed.

(** C6 (as stated, at a concrete check).  A limiter of two requests per
    second, checked at 5000, 5001 and 5002 ms: the third check is
    denied, and the stored set, [5000; 5001] before it with nothing to
    prune, is [5000; 5001; 5002] after it. *)
Lemma C6_counterexample :
  let before := snd (Scenario.checks Scenario.twoPerSecond "u1" [5000; 5001] ∅) in
  let check := RateLimiter.checkRateLimit Scenario.twoPerSecond Redis.Healthy "u1" 5002
                 before in
  Terms.verdicts [fst check] = [Some false]
  /\ Terms.pruned Scenario.twoPerSecond 5002 (Terms.window "u1" 5002 before)
     = [(5000, "5000"); (5001, "5001")]
  /\ Terms.window "u1" 5002 (snd check)
     = [(5000, "5000"); (5001, "5001"); (5002, "5002")]
  /\ Terms.window "u1" 5002 (snd check)
     <> Terms.pruned Scenario.twoPerSecond 5002 (Terms.window "u1" 5002 before).
Proof.
  cbv zeta.
  assert (Hafter :
            Terms.window "u1" 5002
              (snd (RateLimiter.checkRateLimit Scenario.twoPerSecond Redis.Healthy "u1"
                      5002 (snd (Scenario.checks Scenario.twoPerSecond "u1"
                                   [5000; 5001] ∅))))
            = [(5000, "5000"); (5001, "5001"); (5002, "5002")])
    by (vm_compute; reflexivity).
  assert (Hbefore :
            Terms.pruned Scenario.twoPerSecond 5002
              (Terms.window "u1" 5002
                 (snd (Scenario.checks Scenario.twoPerSecond "u1" [5000; 5001] ∅)))
            = [(5000, "5000"); (5001, "5001")])
    by (vm_compute; reflexivity).
  split; [vm_compute; reflexivity|].
  split; [exact Hbefore|]. split; [exact Hafter|].
  rewrite Hafter, Hbefore. discriminate.
Qed.

(** C6 (amended).  [checkRateLimit] records the current time in the
    identity's window at every check the store serves, whether the
    request is admitted or denied: the check is admitted exactly when
    the pruned window holds fewer than [maxRequests] entries, and in
    both cases the window it leaves is the pruned window with the entry
    of the current time in it (an entry of the same member is kept
    once); the keys of other identities are untouched. *)
Theorem C6_every_check_is_recorded :
  forall (self : RateLimiter.t) (userId : string) (now : Z) (db : Redis.Db),
    0 < RateLimiter.windowMs self ->
    let check := RateLimiter.checkRateLimit self Redis.Healthy userId now db in
    let before := Terms.pruned self now (Terms.window userId now db) in
    let after := Terms.window userId now (snd check) in
    (exists result,
        fst check = Js.Resolve result
        /\ RateLimiter.allowed result
           = (Z.of_nat (length before) <? RateLimiter.maxRequests self)%Z)
    /\ In (now, Js.toString now) after
    /\ (forall e, In e after
                  <-> e = (now, Js.toString now)
                      \/ (In e before /\ snd e <> Js.toString now))
    /\ (forall other, other <> Terms.keyOf userId -> snd check !! other = db !! other).
Proof.
  intros self userId now db Hw check before after.
  subst check after. rewrite (check_healthy self userId now db). cbn [fst snd].
  rewrite (window_after_pipeline self userId now db Hw). fold before.
  split; [eexists; split; reflexivity|].
  split; [apply In_place; now left|].
  split.
  - intros e. rewrite In_place, filter_In, negb_true_iff.
    now rewrite String.eqb_neq.
  - intros other Hne. now apply pipeline_frame.
Qed.

(** C6 (amended) at the denied check of the counterexample. *)
Lemma C6_every_check_is_recorded_witness :
  In (5002, Js.toString 5002)
     (Terms.window "u1" 5002
        (snd (RateLimiter.checkRateLimit Scenario.twoPerSecond Redis.Healthy "u1" 5002
                (snd (Scenario.checks Scenario.twoPerSecond "u1" [5000; 5001] ∅))))).
Proof.
  exact (proj1 (proj2 (C6_every_check_is_recorded Scenario.twoPerSecond "u1" 5002
                         (snd (Scenario.checks Scenario.twoPerSecond "u1" [5000; 5001] ∅))
                         eq_refl))).
Defined.

(** C5 (the code at the failing input).  A limiter of two requests per
    second, checked from an empty window twice within the millisecond
    5000 and once more at 5001: the third check, the one past
    [maxRequests], is admitted like the first two, because the first two
    left a single entry in the window. *)
Theorem C5_same_millisecond_checks_admitted :
  let run := Scenario.checks Scenario.twoPerSecond "u1" [5000; 5000; 5001] ∅ in
  Terms.verdicts (fst run) = [Some true; Some true; Some true]
  /\ Terms.window "u1" 5001 (snd run) = [(5000, "5000"); (5001, "5001")]
  /\ Terms.window "u1" 5000
       (snd (Scenario.checks Scenario.twoPerSecond "u1" [5000; 5000] ∅))
     = [(5000, "5000")].
Proof. vm_compute. repeat split. Qed.

(** ** The scorer and the submission path *)

Lemma clamp_range (x : Js.numeric) : 0 <= Js.clamp x <= 100.
Proof. destruct x; cbn; lia. Qed.

Lemma fallbackParsing_range (content : AIScorer.Content) :
  0 <= AIScorer.score (AIScorer.fallbackParsing content) <= 100.
Proof.
  unfold AIScorer.fallbackParsing. cbn [AIScorer.score].
  destruct (AIScorer.scoreMatch content); [apply clamp_range | lia].
Qed.

(** Every score [parseScoringResponse] produces is in 0..100. *)
Lemma parseScoringResponse_range (content : AIScorer.Content) :
  0 <= AIScorer.score (AIScorer.parseScoringResponse content) <= 100.
Proof.
  unfold AIScorer.parseScoringResponse.
  destruct (AIScorer.jsonMatch content) as [| |parsed]; cbn [Js.tryCatch];
    try apply fallbackParsing_range.
  destruct (AIScorer.validatePriorityField (AIScorer.parsedPriority parsed));
    cbn [Js.tryCatch AIScorer.score];
    [apply clamp_range | apply fallbackParsing_range].
Qed.

(** [scoreMessage] resolves, with the parsed result or with the
    fallback. *)
Lemma scoreMessage_cases
    (completions : AIScorer.ScoringRequest -> World.Operation (option AIScorer.Content))
    (request : AIScorer.ScoringRequest) (w : World.t) :
  (Terms.scorerFails (fst (completions request w))
   /\ fst (AIScorer.scoreMessage completions request w) = Js.Resolve AIScorer.fallback)
  \/ (exists content,
         fst (completions request w) = Js.Resolve (Some content)
         /\ AIScorer.text content <> ""
         /\ fst (AIScorer.scoreMessage completions request w)
            = Js.Resolve (AIScorer.parseScoringResponse content)).
Proof.
  unfold AIScorer.scoreMessage, Js.tryAsync, Js.bind, World.invoke, Terms.scorerFails.
  destruct (completions request w) as [[[content|]|problem] elapsed]; cbn [fst].
  - destruct (String.eqb (AIScorer.text content) "") eqn:E.
    + apply String.eqb_eq in E. left. now split.
    + apply String.eqb_neq in E. right. exists content. now repeat split.
  - left. now split.
  - left. now split.
Qed.

Lemma scoreMessage_range
    (completions : AIScorer.ScoringRequest -> World.Operation (option AIScorer.Content))
    (request : AIScorer.ScoringRequest) (w : World.t) :
  exists scoringResult,
    fst (AIScorer.scoreMessage completions request w) = Js.Resolve scoringResult
    /\ 0 <= AIScorer.score scoringResult <= 100.
Proof.
  destruct (scoreMessage_cases completions request w)
    as [[_ H]|(content & _ & _ & H)]; rewrite H; eexists; split; try reflexivity.
  - cbn. lia.
  - apply parseScoringResponse_range.
Qed.

(** What the submission path stores: the job made from the body and the
    score of [scoreMessage]. *)
Lemma postNotify_stores
    (completions : AIScorer.ScoringRequest -> World.Operation (option AIScorer.Content))
    (body : NotifyRoute.Body) (q : NotificationQueue.Queue) (w : World.t)
    (scoringResult : AIScorer.ScoringResult) :
  fst (AIScorer.scoreMessage completions
         {| AIScorer.message := NotifyRoute.message body;
            AIScorer.metadata := NotifyRoute.metadata body;
            AIScorer.userId := NotifyRoute.userId body;
            AIScorer.channel := NotifyRoute.channel body |} w)
  = Js.Resolve scoringResult ->
  exists job q' w',
    NotifyRoute.postNotify completions body q w = (Js.Resolve job, q', w')
    /\ BullMQ.getJob (BullMQ.id job) q' = Some job
    /\ NotificationQueue.score (NotificationQueue.jobData (BullMQ.data job))
       = AIScorer.score scoringResult.
Proof.
  intros H. unfold NotifyRoute.postNotify.
  destruct (AIScorer.scoreMessage _ _ _) as [outcome w']. cbn [fst] in H. subst outcome.
  eexists _, _, _. split; [reflexivity|]. split.
  - unfold BullMQ.getJob. cbn. apply lookup_insert_eq.
  - reflexivity.
Qed.

(** C8 (as stated, at a concrete payload).  [addJob] called with a
    payload whose score is 150 stores a job whose score is 150. *)
Lemma C8_counterexample :
  let added := NotificationQueue.addJob Scenario.overscored 1700000000000 BullMQ.empty in
  NotificationQueue.score <$> (NotificationQueue.jobData
                                 <$> NotificationQueue.getJob (BullMQ.id (fst added))
                                       (snd added))
  = Some 150
  /\ ~ (forall payload now q,
          0 <= NotificationQueue.score
                 (NotificationQueue.jobData
                    (BullMQ.data (fst (NotificationQueue.addJob payload now q))))
            <= 100).
Proof.
  split; [vm_compute; reflexivity|].
  intros H. specialize (H Scenario.overscored 1700000000000 BullMQ.empty).
  cbn in H. lia.
Qed.

(** C8 (amended).  The score is clamped by the scorer, not by [addJob]:
    every score [parseScoringResponse] produces is in 0..100, and so is
    every score [scoreMessage] resolves with; hence every job the
    submission path stores (the score of [scoreMessage] handed to
    [addJob]) has its score in 0..100.  [addJob] itself stores the score
    it is given unchanged. *)
Theorem C8_submitted_scores_in_range :
  forall (completions : AIScorer.ScoringRequest -> World.Operation (option AIScorer.Content))
         (body : NotifyRoute.Body) (q : NotificationQueue.Queue) (w : World.t),
    (exists job q' w',
        NotifyRoute.postNotify completions body q w = (Js.Resolve job, q', w')
        /\ BullMQ.getJob (BullMQ.id job) q' = Some job
        /\ 0 <= NotificationQueue.score (NotificationQueue.jobData (BullMQ.data job)) <= 100)
    /\ (forall content,
           0 <= AIScorer.score (AIScorer.parseScoringResponse content) <= 100)
    /\ (forall request,
           exists scoringResult,
             fst (AIScorer.scoreMessage completions request w) = Js.Resolve scoringResult
             /\ 0 <= AIScorer.score scoringResult <= 100)
    /\ (forall payload now,
           NotificationQueue.score
             (NotificationQueue.jobData
                (BullMQ.data (fst (NotificationQueue.addJob payload now q))))
           = NotificationQueue.score payload).
Proof.
  intros completions body q w.
  split; [|split; [|split]]; [| |intros request; apply scoreMessage_range|].
  - destruct (scoreMessage_range completions
                {| AIScorer.message := NotifyRoute.message body;
                   AIScorer.metadata := NotifyRoute.metadata body;
                   AIScorer.userId := NotifyRoute.userId body;
                   AIScorer.channel := NotifyRoute.channel body |} w)
      as (scoringResult & Hs & Hrange).
    destruct (postNotify_stores completions body q w scoringResult Hs)
      as (job & q' & w' & Hp & Hget & Hscore).
    exists job, q', w'. rewrite Hscore. now repeat split.
  - apply parseScoringResponse_range.
  - reflexivity.
Qed.

(** Content in which nothing can be read parses to the values of the
    fallback, with the content as reasoning. *)
Lemma parse_unreadable (content : AIScorer.Content) :
  Terms.unreadable content ->
  AIScorer.parseScoringResponse content
  = {| AIScorer.score := 50;
       AIScorer.reasoning := String.substring 0 200 (AIScorer.text content);
       AIScorer.priority := AIScorer.medium;
       AIScorer.shouldSend := true |}.
Proof.
  intros (Hjson & Hscore & Hpriority & Hsend).
  unfold AIScorer.parseScoringResponse.
  assert (Hfall : AIScorer.fallbackParsing content
                  = {| AIScorer.score := 50;
                       AIScorer.reasoning := String.substring 0 200 (AIScorer.text content);
                       AIScorer.priority := AIScorer.medium;
                       AIScorer.shouldSend := true |}).
  { unfold AIScorer.fallbackParsing. now rewrite Hscore, Hpriority, Hsend. }
  destruct Hjson as [-> | ->]; exact Hfall.
Qed.

(** C9.  [scoreMessage] never rejects.  When its external call fails
    (it rejects, or yields no content or empty content), [scoreMessage]
    resolves with the fixed fallback, whose score is 50, priority medium
    and [shouldSend] true; the submission then goes on and stores a job
    with score 50.  Content in which nothing can be read gives the same
    score, priority and [shouldSend]. *)
Theorem C9_scorer_falls_back :
  forall (completions : AIScorer.ScoringRequest -> World.Operation (option AIScorer.Content))
         (request : AIScorer.ScoringRequest) (w : World.t),
    (exists scoringResult,
        fst (AIScorer.scoreMessage completions request w) = Js.Resolve scoringResult)
    /\ (Terms.scorerFails (fst (completions request w)) ->
        fst (AIScorer.scoreMessage completions request w) = Js.Resolve AIScorer.fallback)
    /\ AIScorer.score AIScorer.fallback = 50
    /\ AIScorer.priority AIScorer.fallback = AIScorer.medium
    /\ AIScorer.shouldSend AIScorer.fallback = true
    /\ (forall content,
           fst (completions request w) = Js.Resolve (Some content) ->
           AIScorer.text content <> "" ->
           Terms.unreadable content ->
           exists scoringResult,
             fst (AIScorer.scoreMessage completions request w) = Js.Resolve scoringResult
             /\ AIScorer.score scoringResult = 50
             /\ AIScorer.priority scoringResult = AIScorer.medium
             /\ AIScorer.shouldSend scoringResult = true)
    /\ (forall body q,
           request = {| AIScorer.message := NotifyRoute.message body;
                        AIScorer.metadata := NotifyRoute.metadata body;
                        AIScorer.userId := NotifyRoute.userId body;
                        AIScorer.channel := NotifyRoute.channel body |} ->
           Terms.scorerFails (fst (completions request w)) ->
           exists job q' w',
             NotifyRoute.postNotify completions body q w = (Js.Resolve job, q', w')
             /\ NotificationQueue.score (NotificationQueue.jobData (BullMQ.data job)) = 50
             /\ NotificationQueue.priority (NotificationQueue.jobData (BullMQ.data job))
                = AIScorer.medium).
Proof.
  intros completions request w.
  assert (Hfail : Terms.scorerFails (fst (completions request w)) ->
                  fst (AIScorer.scoreMessage completions request w)
                  = Js.Resolve AIScorer.fallback).
  { intros Hf.
    destruct (scoreMessage_cases completions request w)
      as [[_ H]|(content & Hc & Hne & _)]; [exact H|].
    rewrite Hc in Hf. cbn in Hf. contradiction. }
  split.
  { destruct (scoreMessage_range completions request w) as (r & Hr & _). now exists r. }
  split; [exact Hfail|]. repeat (split; [reflexivity|]).
  split.
  { intros content Hc Hne Hu.
    destruct (scoreMessage_cases completions request w)
      as [[Hf _]|(content' & Hc' & _ & H)].
    - rewrite Hc in Hf. cbn in Hf. contradiction.
    - rewrite Hc in Hc'. injection Hc' as <-.
      rewrite H, (parse_unreadable content Hu). eexists. repeat split. }
  intros body q -> Hf. specialize (Hfail Hf).
  unfold NotifyRoute.postNotify.
  destruct (AIScorer.scoreMessage _ _ _) as [outcome w']. cbn [fst] in Hfail.
  subst outcome. eexists _, _, _. repeat split.
Qed.

(** C9 at an endpoint that cannot be reached. *)
Lemma C9_scorer_falls_back_witness :
  fst (AIScorer.scoreMessage Scenario.apiDown Scenario.alertRequest Scenario.start)
  = Js.Resolve AIScorer.fallback.
Proof.
  exact (proj1 (proj2 (C9_scorer_falls_back Scenario.apiDown Scenario.alertRequest
                         Scenario.start)) I).
Defined.

(** ** The limiter over a run of checks at distinct times *)

Lemma toString_injective (a b : Z) : Js.toString a = Js.toString b -> a = b.
Proof.
  unfold Js.toString. intros H.
  apply (f_equal NilEmpty.int_of_string) in H.
  rewrite !NilEmpty.isi in H. injection H as H.
  apply (f_equal Z.of_int) in H. now rewrite !DecimalZ.of_to in H.
Qed.

Lemma ceilDiv_covers (x : Z) : x <= 1000 * Js.ceilDiv x 1000.
Proof.
  unfold Js.ceilDiv.
  pose proof (Z.mul_div_le (- x) 1000 ltac:(lia)). lia.
Qed.

Lemma filter_keeps_all {A} (f : A -> bool) (l : list A) :
  Forall (fun x => f x = true) l -> List.filter f l = l.
Proof.
  induction 1 as [|x l Hx _ IH]; cbn; [reflexivity|]. now rewrite Hx, IH.
Qed.

Lemma filter_keeps_none {A} (f : A -> bool) (l : list A) :
  Forall (fun x => f x = false) l -> List.filter f l = [].
Proof.
  induction 1 as [|x l Hx _ IH]; cbn; [reflexivity|]. now rewrite Hx.
Qed.

Lemma place_latest (t : Z) (done : list Z) :
  Forall (fun x => x < t) done ->
  Redis.place (Terms.stamp t) (map Terms.stamp done) = map Terms.stamp (done ++ [t]).
Proof.
  induction 1 as [|x l Hx _ IH]; cbn [map app Redis.place]; [reflexivity|].
  unfold Redis.before at 1. cbn [fst snd Terms.stamp].
  replace (t <? x)%Z with false by (symmetry; apply Z.ltb_ge; lia).
  replace (t =? x)%Z with false by (symmetry; apply Z.eqb_neq; lia).
  cbn [orb andb]. now rewrite IH.
Qed.

Lemma live_insert (t : Z) (key : string) (db : Redis.Db) (k : Redis.Key) :
  (forall deadline, Redis.expireAt k = Some deadline -> (deadline <=? t)%Z = false) ->
  Redis.live t key (<[key := k]> db) = Some k.
Proof.
  intros H. unfold Redis.live. rewrite lookup_insert_eq.
  destruct (Redis.expireAt k) as [deadline|]; [|reflexivity].
  now rewrite (H deadline eq_refl).
Qed.

(** The key the pipeline leaves: the entries as [window_after_pipeline]
    gives them, and a time to live counted from [now]. *)
Lemma pipeline_key (self : RateLimiter.t) (userId : string) (now : Z) (db : Redis.Db) :
  0 < RateLimiter.windowMs self ->
  snd (RateLimiter.pipeline self (Terms.keyOf userId) now
         (now - RateLimiter.windowMs self) db) !! Terms.keyOf userId
  = Some {| Redis.zset :=
              Redis.place (now, Js.toString now)
                (List.filter (fun e => negb (String.eqb (snd e) (Js.toString now)))
                   (Terms.pruned self now (Terms.window userId now db)));
            Redis.expireAt :=
              Some (now + 1000 * Js.ceilDiv (RateLimiter.windowMs self) 1000) |}.
Proof.
  intros Hw. unfold RateLimiter.pipeline, Terms.pruned, Terms.window. cbn [snd].
  rewrite <- entries_zremrangebyscore.
  set (db1 := Redis.zremrangebyscore _ _ _ _ db).
  unfold Redis.expire, Redis.zadd.
  rewrite live_insert.
  - replace (Js.ceilDiv (RateLimiter.windowMs self) 1000 <=? 0)%Z with false
      by (symmetry; apply Z.leb_gt; now apply ceilDiv_positive).
    rewrite lookup_insert_eq. cbn [Redis.zset]. unfold Redis.entries.
    reflexivity.
  - cbn [Redis.expireAt]. destruct (Redis.live now (Terms.keyOf userId) db1) as [k|] eqn:L;
      [|discriminate].
    apply (live_lookup _ _ _ _ L).
Qed.

(** The window a command at time [t] finds when the key holds the
    entries of [done], all of them younger than the window. *)
Lemma window_of_held (self : RateLimiter.t) (userId : string) (done : list Z) (t : Z)
    (db : Redis.Db) :
  Terms.holds self done (db !! Terms.keyOf userId) ->
  Forall (fun x => t - RateLimiter.windowMs self < x) done ->
  Terms.window userId t db = map Terms.stamp done.
Proof.
  intros Hh Hin. unfold Terms.window, Redis.entries, Redis.live.
  destruct (db !! Terms.keyOf userId) as [k|]; cbn in Hh.
  - destruct Hh as (Hz & latest & Hl & He). rewrite He.
    rewrite List.Forall_forall in Hin. specialize (Hin latest Hl).
    pose proof (ceilDiv_covers (RateLimiter.windowMs self)).
    replace (_ <=? t)%Z with false by (symmetry; apply Z.leb_gt; lia).
    exact Hz.
  - now subst done.
Qed.

(** One check at a time [t] later than the checks of [done], all of
    which are still in the window: it is admitted exactly when [done]
    holds fewer than [maxRequests] entries, it reports as reset time the
    time the oldest entry leaves the window, and the key then holds
    [done ++ [t]]. *)
Lemma check_in_window (self : RateLimiter.t) (userId : string) (done : list Z) (t : Z)
    (db : Redis.Db) :
  0 < RateLimiter.windowMs self ->
  Terms.holds self done (db !! Terms.keyOf userId) ->
  Forall (fun x => t - RateLimiter.windowMs self < x) done ->
  Forall (fun x => x < t) done ->
  let count := Z.of_nat (length done) in
  let resetTime := hd t done + RateLimiter.windowMs self in
  fst (RateLimiter.checkRateLimit self Redis.Healthy userId t db)
  = Js.Resolve
      {| RateLimiter.allowed := (count <? RateLimiter.maxRequests self)%Z;
         RateLimiter.remaining := Z.max 0 (RateLimiter.maxRequests self - count);
         RateLimiter.resetTime := resetTime;
         RateLimiter.retryAfter :=
           if (count <? RateLimiter.maxRequests self)%Z then None
           else Some (Js.ceilDiv (resetTime - t) 1000) |}
  /\ Terms.holds self (done ++ [t])
       (snd (RateLimiter.checkRateLimit self Redis.Healthy userId t db)
          !! Terms.keyOf userId).
Proof.
  intros Hw Hh Hin Hlt count resetTime.
  assert (Hwin : Terms.window userId t db = map Terms.stamp done)
    by now apply (window_of_held self).
  assert (Hpruned : Terms.pruned self t (map Terms.stamp done) = map Terms.stamp done).
  { unfold Terms.pruned. apply filter_keeps_all. rewrite List.Forall_map.
    eapply List.Forall_impl; [|exact Hin]. cbn. intros x Hx.
    apply negb_true_iff, andb_false_iff. right. apply Z.leb_gt. lia. }
  assert (Hothers :
            List.filter (fun e => negb (String.eqb (snd e) (Js.toString t)))
              (map Terms.stamp done)
            = map Terms.stamp done).
  { apply filter_keeps_all. rewrite List.Forall_map.
    eapply List.Forall_impl; [|exact Hlt]. cbn. intros x Hx.
    apply negb_true_iff, String.eqb_neq. intros E.
    apply toString_injective in E. lia. }
  rewrite (check_healthy self userId t db). cbn [fst snd].
  rewrite (window_after_pipeline self userId t db Hw).
  rewrite (pipeline_key self userId t db Hw).
  rewrite Hwin, Hpruned, Hothers.
  change (t, Js.toString t) with (Terms.stamp t).
  rewrite (place_latest t done Hlt). rewrite length_map. fold count.
  split.
  - assert (Hhd : match map Terms.stamp (done ++ [t]) with
                  | [] => t + RateLimiter.windowMs self
                  | (score, _) :: _ => score + RateLimiter.windowMs self
                  end = resetTime)
      by (subst resetTime; now destruct done).
    now rewrite Hhd.
  - cbn. split; [reflexivity|]. exists t. split; [|reflexivity].
    apply in_or_app. right. now left.
Qed.

(** A run of checks at increasing times that all fall in one window,
    after the checks of [done]: the check that finds [k] entries is
    admitted exactly when [k < maxRequests]. *)
Lemma checks_in_window (self : RateLimiter.t) (userId : string) (bound : Z) :
  0 < RateLimiter.windowMs self ->
  forall (todo done : list Z) (db : Redis.Db),
    Terms.holds self done (db !! Terms.keyOf userId) ->
    StronglySorted Z.lt (done ++ todo) ->
    Forall (fun x => bound - RateLimiter.windowMs self < x <= bound) (done ++ todo) ->
    Terms.verdicts (fst (Scenario.checks self userId todo db))
    = map (fun k => Some (Z.of_nat k <? RateLimiter.maxRequests self)%Z)
          (seq (length done) (length todo))
    /\ Terms.holds self (done ++ todo)
         (snd (Scenario.checks self userId todo db) !! Terms.keyOf userId).
Proof.
  intros Hw. induction todo as [|t todo IH]; intros done db Hh Hsorted Hbound.
  - cbn. rewrite app_nil_r. now split.
  - assert (Hlt : Forall (fun x => x < t) done).
    { clear - Hsorted. induction done as [|x done IHd]; [constructor|].
      cbn in Hsorted. apply StronglySorted_inv in Hsorted as [Hs Hx].
      constructor; [|now apply IHd].
      rewrite List.Forall_forall in Hx. apply Hx, in_or_app. right. now left. }
    assert (Hin : Forall (fun x => t - RateLimiter.windowMs self < x) done).
    { rewrite List.Forall_forall in Hbound |- *. intros x Hx.
      pose proof (Hbound x ltac:(apply in_or_app; now left)).
      pose proof (Hbound t ltac:(apply in_or_app; right; now left)). lia. }
    destruct (check_in_window self userId done t db Hw Hh Hin Hlt) as [Hres Hnext].
    cbn [Scenario.checks].
    destruct (RateLimiter.checkRateLimit self Redis.Healthy userId t db) as [result db'].
    cbn [fst snd] in Hres, Hnext. subst result.
    specialize (IH (done ++ [t])%list db' Hnext).
    rewrite <- app_assoc in IH. cbn [app] in IH.
    specialize (IH Hsorted Hbound). destruct IH as [IHv IHh].
    destruct (Scenario.checks self userId todo db') as [results db''].
    cbn [fst snd] in *. split; [|exact IHh].
    cbn [Terms.verdicts map RateLimiter.allowed length seq].
    f_equal. unfold Terms.verdicts in IHv. rewrite IHv.
    rewrite length_app. cbn [length]. now rewrite Nat.add_1_r.
Qed.

(** A check made when every entry the key holds has left the window is
    admitted, if the limiter admits anything at all. *)
Lemma check_after_window (self : RateLimiter.t) (userId : string) (done : list Z)
    (t : Z) (db : Redis.Db) :
  1 <= RateLimiter.maxRequests self ->
  Terms.holds self done (db !! Terms.keyOf userId) ->
  Forall (fun x => 0 <= x <= t - RateLimiter.windowMs self) done ->
  exists result,
    fst (RateLimiter.checkRateLimit self Redis.Healthy userId t db) = Js.Resolve result
    /\ RateLimiter.allowed result = true.
Proof.
  intros Hmax Hh Hold.
  rewrite (check_healthy self userId t db). cbn [fst].
  eexists. split; [reflexivity|]. cbn [RateLimiter.allowed].
  assert (Hnone : Terms.pruned self t (Terms.window userId t db) = []).
  { unfold Terms.pruned. apply filter_keeps_none.
    unfold Terms.window, Redis.entries, Redis.live.
    destruct (db !! Terms.keyOf userId) as [k|]; [|constructor].
    cbn in Hh. destruct Hh as (Hz & _).
    assert (Hall : Forall (fun e => negb ((0 <=? fst e)%Z
                                          && (fst e <=? t - RateLimiter.windowMs self)%Z)
                                    = false) (Redis.zset k)).
    { rewrite Hz, List.Forall_map. eapply List.Forall_impl; [|exact Hold]. cbn. intros x Hx.
      apply negb_false_iff, andb_true_iff. split; apply Z.leb_le; lia. }
    destruct (Redis.expireAt k) as [deadline|]; [|exact Hall].
    destruct (deadline <=? t)%Z; [constructor | exact Hall]. }
  rewrite Hnone. cbn [length]. apply Z.ltb_lt. lia.
Qed.

Lemma map_seq_constant {A} (f : nat -> A) (c : A) (n a : nat) :
  (forall k, (a <= k < a + n)%nat -> f k = c) ->
  map f (seq a n) = repeat c n.
Proof.
  revert a. induction n as [|n IH]; intros a H; cbn; [reflexivity|].
  rewrite (H a) by lia. f_equal. apply IH. intros k Hk. apply H. lia.
Qed.

(** X1.  The limiter over one cycle, at checks made in distinct
    milliseconds.
    From a store without the identity's key, [maxRequests] checks at
    increasing times are all admitted; one more check, still within
    [windowMs] of the first, is denied with a positive [retryAfter]; and
    a check made once [windowMs] has passed since that one is admitted
    again. *)
Theorem rate_limit_cycle :
  forall (self : RateLimiter.t) (userId : string) (db : Redis.Db)
         (times : list Z) (over later : Z),
    0 < RateLimiter.windowMs self ->
    1 <= RateLimiter.maxRequests self ->
    db !! Terms.keyOf userId = None ->
    Z.of_nat (length times) = RateLimiter.maxRequests self ->
    StronglySorted Z.lt (times ++ [over]) ->
    Forall (fun x => 0 <= x /\ over - RateLimiter.windowMs self < x) times ->
    over + RateLimiter.windowMs self <= later ->
    let run := Scenario.checks self userId times db in
    let denied := RateLimiter.checkRateLimit self Redis.Healthy userId over (snd run) in
    let again := RateLimiter.checkRateLimit self Redis.Healthy userId later (snd denied) in
    Terms.verdicts (fst run) = repeat (Some true) (length times)
    /\ (exists result seconds,
           fst denied = Js.Resolve result
           /\ RateLimiter.allowed result = false
           /\ RateLimiter.retryAfter result = Some seconds
           /\ 0 < seconds)
    /\ (exists result,
           fst again = Js.Resolve result /\ RateLimiter.allowed result = true).
Proof.
  intros self userId db times over later Hw Hmax Hfresh Hlen Hsorted Hin Hlater
    run denied again.
  assert (Hlt : Forall (fun x => x < over) times).
  { clear - Hsorted. induction times as [|x times IH]; [constructor|].
    cbn in Hsorted. apply StronglySorted_inv in Hsorted as [Hs Hx].
    constructor; [|now apply IH].
    rewrite List.Forall_forall in Hx. apply Hx, in_or_app. right. now left. }
  assert (Hbound : Forall (fun x => over - RateLimiter.windowMs self < x <= over)
                     ([] ++ times)).
  { cbn. rewrite List.Forall_forall in Hin, Hlt |- *. intros x Hx.
    specialize (Hin x Hx). specialize (Hlt x Hx). lia. }
  assert (Hsorted' : StronglySorted Z.lt ([] ++ times)).
  { clear - Hsorted. cbn. induction times as [|x times IH]; [constructor|].
    cbn in Hsorted. apply StronglySorted_inv in Hsorted as [Hs Hx].
    constructor; [now apply IH|].
    rewrite List.Forall_forall in Hx |- *. intros y Hy. apply Hx, in_or_app. now left. }
  destruct (checks_in_window self userId over Hw times [] db) as [Hv Hh];
    [now rewrite Hfresh | exact Hsorted' | exact Hbound |].
  cbn [app length] in Hv, Hh. fold run in Hv, Hh.
  split; [|split].
  - rewrite Hv. apply map_seq_constant. intros k Hk. f_equal. apply Z.ltb_lt. lia.
  - destruct (check_in_window self userId times over (snd run) Hw Hh) as [Hres _].
    + eapply List.Forall_impl; [|exact Hin]. cbn. intros x Hx. lia.
    + exact Hlt.
    + fold denied in Hres. rewrite Hres.
      replace (Z.of_nat (length times) <? RateLimiter.maxRequests self)%Z with false
        by (symmetry; apply Z.ltb_ge; lia).
      eexists _, _. repeat split. apply ceilDiv_positive.
      destruct times as [|x times]; cbn [hd]; [lia|].
      apply Forall_inv in Hin. lia.
  - destruct (check_in_window self userId times over (snd run) Hw Hh) as [_ Hnext].
    + eapply List.Forall_impl; [|exact Hin]. cbn. intros x Hx. lia.
    + exact Hlt.
    + fold denied in Hnext.
      apply (check_after_window self userId (times ++ [over]) later (snd denied) Hmax Hnext).
      apply Forall_app. split.
      * rewrite List.Forall_forall in Hin, Hlt |- *. intros x Hx.
        specialize (Hin x Hx). specialize (Hlt x Hx). lia.
      * constructor; [|constructor].
        destruct times as [|x times]; [cbn in Hlen; lia|].
        apply Forall_inv in Hin. apply Forall_inv in Hlt. lia.
Qed.

(** The cycle at a limiter of two requests per second: checks at 5000
    and 5001 ms, a third at 5002 ms, a fourth at 6002 ms. *)
Lemma rate_limit_cycle_witness :
  Terms.verdicts (fst (Scenario.checks Scenario.twoPerSecond "u1" [5000; 5001] ∅))
  = [Some true; Some true].
Proof.
  refine (proj1 (rate_limit_cycle Scenario.twoPerSecond "u1" ∅ [5000; 5001] 5002 6002
                   eq_refl _ eq_refl eq_refl _ _ _)).
  - cbn. lia.
  - repeat constructor.
  - repeat constructor; cbn; lia.
  - cbn. lia.
Defined.

(** ** Retry termination *)

(** X2.  [execute] with [maxAttempts = 3] on an operation that fails at
    every call with an error the condition accepts: exactly three calls, two
    sleeps, and a result with [success = false] and [attempts = 3]. *)
Theorem retry_termination :
  forall (T : Type) (self : RetryHandler.t) (operation : World.Operation T)
         (options : RetryHandler.RetryOptions) (w : World.t),
    let opts := RetryHandler.spread (RetryHandler.defaultOptions self) options in
    RetryHandler.Required.maxAttempts opts = 3 ->
    Terms.alwaysFailsRetryably operation (RetryHandler.Required.retryCondition opts) ->
    let run := RetryHandler.execute self operation options w in
    World.calls (snd run) = (World.calls w + 3)%nat
    /\ length (World.sleeps (snd run)) = (length (World.sleeps w) + 2)%nat
    /\ RetryHandler.success (fst run) = false
    /\ RetryHandler.attempts (fst run) = 3.
Proof.
  intros T self operation options w opts Hmax Hfail run.
  destruct (execute_exhausted self operation options w)
    as (lastWorld & problem & elapsed & Hop & Hcalls & Hsleeps & Hw & Hs & _ & Ha).
  - fold opts. lia.
  - exact Hfail.
  - fold opts in Hcalls, Hsleeps, Ha. fold run in Hw, Hs, Ha.
    rewrite Hw, (invoke_rejected _ _ _ _ Hop). cbn [snd World.calls World.sleeps].
    repeat split; try assumption; lia.
Qed.

Lemma timeout_retryable_for_webhooks :
  Terms.alwaysFailsRetryably (Scenario.alwaysRejects (T := unit) "timeout" 10000)
    RetryHandler.conditions.webhook.
Proof. intros w. eexists _, _. split; reflexivity. Qed.

(** Retry termination at a call that always times out, under the
    webhook predicate and the default configuration. *)
Lemma retry_termination_witness :
  World.calls
    (snd (RetryHandler.execute RetryHandler.retryHandler
            (Scenario.alwaysRejects (T := unit) "timeout" 10000)
            (NotificationWorker.onlyCondition RetryHandler.conditions.webhook)
            Scenario.start))
  = 3%nat.
Proof.
  exact (proj1 (retry_termination unit RetryHandler.retryHandler
                  (Scenario.alwaysRejects "timeout" 10000)
                  (NotificationWorker.onlyCondition RetryHandler.conditions.webhook)
                  Scenario.start eq_refl timeout_retryable_for_webhooks)).
Defined.

(** The two sleeps of that run, under the default configuration: 2000 ms,
    then 2000 * 2.5 = 5000 ms. *)
Example default_backoff :
  map Qred
    (World.sleeps
       (snd (RetryHandler.execute RetryHandler.retryHandler
               (Scenario.alwaysRejects (T := unit) "timeout" 10000)
               (NotificationWorker.onlyCondition RetryHandler.conditions.webhook)
               Scenario.start)))
  = [2000%Q; 5000%Q].
Proof. vm_compute. reflexivity. Qed.

(** ** End to end *)

(** The alert is submitted and scored 85: the job is stored with rank 1
    and no delay, waiting; the webhook delivery succeeds at the first
    call and the job is completed with a successful result. *)
Example end_to_end_delivery :
  let '(submitted, q, w) :=
    NotifyRoute.postNotify Scenario.scores85 Scenario.alertBody BullMQ.empty
      Scenario.start in
  let after := NotificationWorker.work RetryHandler.retryHandler Scenario.delivers "1" q w in
  (BullMQ.id <$> (match submitted with Js.Resolve job => Some job | Js.Reject _ => None end)
   = Some "1")
  /\ (BullMQ.opts <$> BullMQ.getJob "1" q
      = Some {| BullMQ.priority := 1; BullMQ.delay := 0; BullMQ.attempts := 3 |})
  /\ (BullMQ.state <$> BullMQ.getJob "1" q = Some BullMQ.waiting)
  /\ (NotificationQueue.getJobStatus "1" (fst after)
      = Some {| NotificationQueue.status := BullMQ.completed;
                NotificationQueue.statusProgress := 0;
                NotificationQueue.statusAttempts := 0;
                NotificationQueue.result :=
                  Some {| NotificationQueue.success := true;
                          NotificationQueue.deliveryTime := Some 120;
                          NotificationQueue.error := None;
                          NotificationQueue.attempts := 1 |} |}).
Proof. vm_compute. repeat split. Qed.

(** * Further properties *)

(** ** The retry engine, run by run *)

Section LoopFacts.
Context {T : Type}.
Variable opts : RetryHandler.Required.t.
Variable startTime : Z.

(** Whatever the operation does, the loop over the attempts
    [a .. maxAttempts] makes between one call and one call per attempt,
    sleeps once between two calls with the delays of the backoff
    schedule, and is left either by the return of a success, which
    carries the number of the attempt, or with the error of the last
    call. *)
Lemma attemptLoop_shape (operation : World.Operation T) :
  forall (len a : nat) (currentDelay : Q) (lastError : option Js.Error) (w : World.t),
    Z.of_nat (a + len) = RetryHandler.Required.maxAttempts opts ->
    exists k,
      (1 <= k <= S len)%nat
      /\ World.calls
           (snd (RetryHandler.attemptLoop opts operation startTime
                   (map Z.of_nat (seq a (S len))) currentDelay lastError w))
         = (World.calls w + k)%nat
      /\ World.sleeps
           (snd (RetryHandler.attemptLoop opts operation startTime
                   (map Z.of_nat (seq a (S len))) currentDelay lastError w))
         = (World.sleeps w ++ Run.backoff opts currentDelay (k - 1))%list
      /\ match fst (RetryHandler.attemptLoop opts operation startTime
                      (map Z.of_nat (seq a (S len))) currentDelay lastError w) with
         | RetryHandler.Returned result =>
             RetryHandler.success result = true
             /\ RetryHandler.attempts result = Z.of_nat (a + k - 1)
             /\ RetryHandler.error result = None
             /\ RetryHandler.data result <> None
         | RetryHandler.Left e => e <> None
         end.
Proof.
  induction len as [|len IH]; intros a currentDelay lastError w Hmax.
  - exists 1%nat. cbn [seq map RetryHandler.attemptLoop].
    unfold World.invoke. destruct (operation w) as [[value|problem] elapsed].
    + cbn. repeat split; try lia; try (now rewrite app_nil_r); try discriminate.
    + destruct (negb _); [cbn; repeat split; try lia; try (now rewrite app_nil_r);
                          discriminate|].
      replace (Z.of_nat a =? _)%Z with true
        by (symmetry; apply Z.eqb_eq; rewrite <- Hmax; f_equal; lia).
      cbn. repeat split; try lia; try (now rewrite app_nil_r); discriminate.
  - change (seq a (S (S len))) with (a :: seq (S a) (S len)).
    cbn [map RetryHandler.attemptLoop].
    unfold World.invoke. destruct (operation w) as [[value|problem] elapsed].
    + exists 1%nat. cbn. repeat split; try lia; try (now rewrite app_nil_r);
        try discriminate.
    + destruct (negb _).
      { exists 1%nat. cbn. repeat split; try lia; try (now rewrite app_nil_r);
          discriminate. }
      replace (Z.of_nat a =? _)%Z with false by (symmetry; apply Z.eqb_neq; lia).
      match goal with
      | |- context [RetryHandler.attemptLoop _ _ _ _ ?d ?e ?w2] =>
          destruct (IH (S a) d e w2 ltac:(lia)) as (k & Hk & Hcalls & Hsleeps & Hexit)
      end.
      exists (S k). split; [lia|]. split; [rewrite Hcalls; cbn; lia|].
      split.
      * rewrite Hsleeps. cbn [World.sleep World.sleeps].
        rewrite <- app_assoc. cbn [app].
        replace (S k - 1)%nat with (S (k - 1)) by lia. reflexivity.
      * destruct (fst (RetryHandler.attemptLoop _ _ _ _ _ _ _)) as [result|e];
          [|exact Hexit].
        destruct Hexit as (Hs & Ha & He & Hd). repeat split; try assumption.
        rewrite Ha. f_equal. lia.
Qed.

(** The loop run on an operation that depends on the call count only,
    whose first [k] calls fail retryably: it calls [k] times, sleeps [k]
    times, and goes on with the attempts that are left. *)
Lemma attemptLoop_retries (outcomes : nat -> Js.completion T * Z) :
  forall (k len a : nat) (currentDelay : Q) (lastError : option Js.Error) (w : World.t),
    Z.of_nat (a + len) = RetryHandler.Required.maxAttempts opts ->
    (k <= len)%nat ->
    (forall i, (i < k)%nat ->
               Run.failsRetryably outcomes (RetryHandler.Required.retryCondition opts)
                 (World.calls w + i)) ->
    exists w' delay' lastError',
      World.calls w' = (World.calls w + k)%nat
      /\ World.sleeps w' = (World.sleeps w ++ Run.backoff opts currentDelay k)%list
      /\ RetryHandler.attemptLoop opts (Run.byCall outcomes) startTime
           (map Z.of_nat (seq a (S len))) currentDelay lastError w
         = RetryHandler.attemptLoop opts (Run.byCall outcomes) startTime
             (map Z.of_nat (seq (a + k) (S (len - k)))) delay' lastError' w'.
Proof.
  induction k as [|k IH]; intros len a currentDelay lastError w Hmax Hk Hfail.
  - exists w, currentDelay, lastError.
    rewrite !Nat.add_0_r, Nat.sub_0_r, app_nil_r. repeat split.
  - destruct len as [|len]; [lia|].
    destruct (Hfail 0%nat ltac:(lia)) as (problem & elapsed & Hop & Hcond).
    rewrite Nat.add_0_r in Hop.
    change (seq a (S (S len))) with (a :: seq (S a) (S len)).
    cbn [map RetryHandler.attemptLoop].
    unfold World.invoke at 1, Run.byCall at 1. rewrite Hop, Hcond. cbn [negb].
    replace (Z.of_nat a =? _)%Z with false by (symmetry; apply Z.eqb_neq; lia).
    match goal with
    | |- context [RetryHandler.attemptLoop _ _ _ _ ?d ?e ?w2] =>
        destruct (IH len (S a) d e w2 ltac:(lia) ltac:(lia))
          as (w' & delay' & lastError' & Hcalls & Hsleeps & Hloop)
    end.
    + intros i Hi. cbn [World.sleep World.calls].
      replace (S (World.calls w) + i)%nat with (World.calls w + S i)%nat by lia.
      apply Hfail. lia.
    + exists w', delay', lastError'. split; [rewrite Hcalls; cbn; lia|].
      split.
      * rewrite Hsleeps. cbn [World.sleep World.sleeps Run.backoff].
        now rewrite <- app_assoc.
      * rewrite Hloop. replace (S a + k)%nat with (a + S k)%nat by lia.
        reflexivity.
Qed.

End LoopFacts.

Lemma attemptNumbers_none (maxAttempts : Z) :
  maxAttempts <= 0 -> RetryHandler.attemptNumbers maxAttempts = [].
Proof.
  intros H. unfold RetryHandler.attemptNumbers.
  now replace (Z.to_nat maxAttempts) with 0%nat by lia.
Qed.

(** [execute], for every operation and options: the calls it makes, the
    sleeps it takes and the result it returns. *)
Lemma execute_shape :
  forall (T : Type) (self : RetryHandler.t) (operation : World.Operation T)
         (options : RetryHandler.RetryOptions) (w : World.t),
    let opts := RetryHandler.spread (RetryHandler.defaultOptions self) options in
    let run := RetryHandler.execute self operation options w in
    (RetryHandler.Required.maxAttempts opts <= 0 ->
     snd run = w
     /\ fst run = {| RetryHandler.success := false;
                     RetryHandler.data := None;
                     RetryHandler.error := None;
                     RetryHandler.attempts := RetryHandler.Required.maxAttempts opts;
                     RetryHandler.totalTimeMs := 0 |})
    /\ (1 <= RetryHandler.Required.maxAttempts opts ->
        exists k : nat,
          1 <= Z.of_nat k <= RetryHandler.Required.maxAttempts opts
          /\ World.calls (snd run) = (World.calls w + k)%nat
          /\ World.sleeps (snd run)
             = (World.sleeps w
                  ++ Run.backoff opts (RetryHandler.Required.delayMs opts) (k - 1))%list
          /\ if RetryHandler.success (fst run)
             then RetryHandler.attempts (fst run) = Z.of_nat k
                  /\ RetryHandler.error (fst run) = None
                  /\ RetryHandler.data (fst run) <> None
             else RetryHandler.attempts (fst run) = RetryHandler.Required.maxAttempts opts
                  /\ RetryHandler.error (fst run) <> None
                  /\ RetryHandler.data (fst run) = None).
Proof.
  intros T self operation options w opts run. split.
  - intros Hmax. subst run. unfold RetryHandler.execute. fold opts.
    rewrite (attemptNumbers_none _ Hmax). cbn. split; [reflexivity|].
    do 2 f_equal. lia.
  - intros Hmax. subst run. unfold RetryHandler.execute. fold opts.
    rewrite (attemptNumbers_positive _ Hmax).
    destruct (attemptLoop_shape opts (World.now w) operation
                (Z.to_nat (RetryHandler.Required.maxAttempts opts) - 1) 1
                (RetryHandler.Required.delayMs opts) None w ltac:(lia))
      as (k & Hk & Hcalls & Hsleeps & Hexit).
    exists k. split; [lia|].
    destruct (RetryHandler.attemptLoop _ _ _ _ _ _ _) as [[result|e] w'];
      cbn [fst snd] in *.
    + destruct Hexit as (Hs & Ha & He & Hd).
      repeat split; try assumption. rewrite Hs. repeat split; try assumption.
      rewrite Ha. f_equal. lia.
    + repeat split; assumption.
Qed.

(** X3.  The budget of [execute], for every operation and options.
    With [maxAttempts] below 1 the operation is not called at all and
    the result is a failure without an error.  Otherwise [execute] makes
    [k] calls for some [k] from 1 to [maxAttempts] and sleeps [k - 1]
    times, with the delays of the backoff schedule; a success reports
    [attempts = k], no error and the data; a failure reports
    [attempts = maxAttempts], an error and no data. *)
Theorem execute_within_budget :
  forall (T : Type) (self : RetryHandler.t) (operation : World.Operation T)
         (options : RetryHandler.RetryOptions) (w : World.t),
    let opts := RetryHandler.spread (RetryHandler.defaultOptions self) options in
    let run := RetryHandler.execute self operation options w in
    (RetryHandler.Required.maxAttempts opts <= 0 ->
     snd run = w
     /\ fst run = {| RetryHandler.success := false;
                     RetryHandler.data := None;
                     RetryHandler.error := None;
                     RetryHandler.attempts := RetryHandler.Required.maxAttempts opts;
                     RetryHandler.totalTimeMs := 0 |})
    /\ (1 <= RetryHandler.Required.maxAttempts opts ->
        exists k : nat,
          1 <= Z.of_nat k <= RetryHandler.Required.maxAttempts opts
          /\ World.calls (snd run) = (World.calls w + k)%nat
          /\ World.sleeps (snd run)
             = (World.sleeps w
                  ++ Run.backoff opts (RetryHandler.Required.delayMs opts) (k - 1))%list
          /\ if RetryHandler.success (fst run)
             then RetryHandler.attempts (fst run) = Z.of_nat k
                  /\ RetryHandler.error (fst run) = None
                  /\ RetryHandler.data (fst run) <> None
             else RetryHandler.attempts (fst run) = RetryHandler.Required.maxAttempts opts
                  /\ RetryHandler.error (fst run) <> None
                  /\ RetryHandler.data (fst run) = None).
Proof. exact execute_shape. Qed.

(** X3 at the default handler and a call that always times out. *)
Lemma execute_within_budget_witness :
  exists k : nat,
    1 <= Z.of_nat k <= 3
    /\ World.calls
         (snd (RetryHandler.execute RetryHandler.retryHandler
                 (Scenario.alwaysRejects (T := unit) "timeout" 10000)
                 RetryHandler.noOptions Scenario.start))
       = k.
Proof.
  destruct (proj2 (execute_within_budget unit RetryHandler.retryHandler
                     (Scenario.alwaysRejects "timeout" 10000)
                     RetryHandler.noOptions Scenario.start) ltac:(cbn; lia))
    as (k & Hk & Hcalls & _).
  exists k. split; [exact Hk | exact Hcalls].
Defined.

Lemma backoff_capped (opts : RetryHandler.Required.t) (n : nat) :
  forall currentDelay,
    Forall (fun d => (d <= RetryHandler.Required.maxDelayMs opts)%Q)
           (tl (Run.backoff opts currentDelay n)).
Proof.
  induction n as [|n IH]; intros currentDelay; cbn [Run.backoff tl]; [constructor|].
  destruct n as [|n]; cbn [Run.backoff]; [constructor|].
  constructor; [apply Q.le_min_r|]. apply (IH (Qmin _ _)).
Qed.

(** X4.  The sleeps of [execute]: the first lasts [delayMs], as
    configured, and every later one is at most [maxDelayMs]; so when
    [delayMs] is at most [maxDelayMs], no sleep is longer than
    [maxDelayMs]. *)
Theorem execute_sleeps_capped :
  forall (T : Type) (self : RetryHandler.t) (operation : World.Operation T)
         (options : RetryHandler.RetryOptions) (w : World.t),
    let opts := RetryHandler.spread (RetryHandler.defaultOptions self) options in
    let run := RetryHandler.execute self operation options w in
    exists naps,
      World.sleeps (snd run) = (World.sleeps w ++ naps)%list
      /\ (naps = [] \/ hd 0%Q naps = RetryHandler.Required.delayMs opts)
      /\ Forall (fun d => (d <= RetryHandler.Required.maxDelayMs opts)%Q) (tl naps)
      /\ ((RetryHandler.Required.delayMs opts <= RetryHandler.Required.maxDelayMs opts)%Q ->
          Forall (fun d => (d <= RetryHandler.Required.maxDelayMs opts)%Q) naps).
Proof.
  intros T self operation options w opts run.
  destruct (Z_le_gt_dec (RetryHandler.Required.maxAttempts opts) 0) as [Hmax|Hmax].
  - exists []. destruct (proj1 (execute_shape T self operation options w) Hmax)
      as [Hw _]. fold run in Hw. rewrite Hw, app_nil_r.
    split; [reflexivity|]. split; [now left|]. split; [constructor|]. intros _. constructor.
  - destruct (proj2 (execute_shape T self operation options w) ltac:(fold opts; lia))
      as (k & _ & _ & Hsleeps & _). fold run opts in Hsleeps.
    exists (Run.backoff opts (RetryHandler.Required.delayMs opts) (k - 1)).
    split; [exact Hsleeps|]. split; [|split].
    + destruct (k - 1)%nat; [now left | now right].
    + apply backoff_capped.
    + intros Hfirst.
      pose proof (backoff_capped opts (k - 1) (RetryHandler.Required.delayMs opts)) as H.
      destruct (k - 1)%nat; cbn [Run.backoff tl] in *; constructor; assumption.
Qed.

(** X4 at the default handler, whose [delayMs], 2000, is below its
    [maxDelayMs], 30000. *)
Lemma execute_sleeps_capped_witness :
  exists naps,
    World.sleeps
      (snd (RetryHandler.execute RetryHandler.retryHandler
              (Scenario.alwaysRejects (T := unit) "timeout" 10000)
              RetryHandler.noOptions Scenario.start))
    = naps
    /\ Forall (fun d => (d <= 30000)%Q) naps.
Proof.
  destruct (execute_sleeps_capped unit RetryHandler.retryHandler
              (Scenario.alwaysRejects "timeout" 10000)
              RetryHandler.noOptions Scenario.start)
    as (naps & Hs & _ & _ & Hall).
  exists naps. split; [exact Hs|]. apply Hall. cbn. discriminate.
Defined.

(** X5.  Success after retries.  An operation whose first [k] calls
    fail with errors the condition accepts and whose next call
    resolves, with [k + 1] within [maxAttempts]: [execute] makes exactly
    [k + 1] calls and [k] sleeps and returns the resolved value with
    [success = true] and [attempts = k + 1]. *)
Theorem execute_succeeds_after_retries :
  forall (T : Type) (self : RetryHandler.t) (outcomes : nat -> Js.completion T * Z)
         (options : RetryHandler.RetryOptions) (w : World.t)
         (k : nat) (value : T) (elapsed : Z),
    let opts := RetryHandler.spread (RetryHandler.defaultOptions self) options in
    Z.of_nat (S k) <= RetryHandler.Required.maxAttempts opts ->
    (forall i, (i < k)%nat ->
               Run.failsRetryably outcomes (RetryHandler.Required.retryCondition opts)
                 (World.calls w + i)) ->
    outcomes (World.calls w + k)%nat = (Js.Resolve value, elapsed) ->
    let run := RetryHandler.execute self (Run.byCall outcomes) options w in
    RetryHandler.success (fst run) = true
    /\ RetryHandler.data (fst run) = Some value
    /\ RetryHandler.error (fst run) = None
    /\ RetryHandler.attempts (fst run) = Z.of_nat (S k)
    /\ World.calls (snd run) = (World.calls w + S k)%nat
    /\ World.sleeps (snd run)
       = (World.sleeps w ++ Run.backoff opts (RetryHandler.Required.delayMs opts) k)%list.
Proof.
  intros T self outcomes options w k value elapsed opts Hmax Hfail Hok run.
  subst run. unfold RetryHandler.execute. fold opts.
  rewrite (attemptNumbers_positive (RetryHandler.Required.maxAttempts opts)) by lia.
  destruct (attemptLoop_retries opts (World.now w) outcomes k
              (Z.to_nat (RetryHandler.Required.maxAttempts opts) - 1) 1
              (RetryHandler.Required.delayMs opts) None w
              ltac:(lia) ltac:(lia) Hfail)
    as (w' & delay' & lastError' & Hcalls & Hsleeps & Hloop).
  rewrite Hloop. cbn [seq map RetryHandler.attemptLoop].
  unfold World.invoke, Run.byCall. rewrite Hcalls, Hok. cbn.
  repeat split; try assumption; try lia; try (f_equal; lia).
Qed.

(** X5 at a call that times out twice and then goes through. *)
Lemma execute_succeeds_after_retries_witness :
  RetryHandler.attempts
    (fst (RetryHandler.execute RetryHandler.retryHandler (Run.byCall Case.flaky)
            Case.chat Scenario.start))
  = 3.
Proof.
  refine (proj1 (proj2 (proj2 (proj2
            (execute_succeeds_after_retries unit RetryHandler.retryHandler Case.flaky
               Case.chat Scenario.start 2 tt 150 _ _ eq_refl))))).
  - cbn. lia.
  - intros i Hi. destruct i as [|[|i]]; [| |lia]; eexists _, _; split; reflexivity.
Defined.

(** X6.  The first refused error ends the run.  An operation whose
    first [k] calls fail with errors the condition accepts and whose
    next call fails with an error the condition refuses: [execute] makes
    exactly [k + 1] calls and [k] sleeps, and returns a failure that
    carries the refused error and [attempts = maxAttempts]. *)
Theorem execute_stops_at_refused_error :
  forall (T : Type) (self : RetryHandler.t) (outcomes : nat -> Js.completion T * Z)
         (options : RetryHandler.RetryOptions) (w : World.t)
         (k : nat) (problem : Js.thrown) (elapsed : Z),
    let opts := RetryHandler.spread (RetryHandler.defaultOptions self) options in
    Z.of_nat (S k) <= RetryHandler.Required.maxAttempts opts ->
    (forall i, (i < k)%nat ->
               Run.failsRetryably outcomes (RetryHandler.Required.retryCondition opts)
                 (World.calls w + i)) ->
    outcomes (World.calls w + k)%nat = (Js.Reject problem, elapsed) ->
    RetryHandler.Required.retryCondition opts (RetryHandler.asError problem) = false ->
    let run := RetryHandler.execute self (Run.byCall outcomes) options w in
    RetryHandler.success (fst run) = false
    /\ RetryHandler.error (fst run) = Some (RetryHandler.asError problem)
    /\ RetryHandler.attempts (fst run) = RetryHandler.Required.maxAttempts opts
    /\ World.calls (snd run) = (World.calls w + S k)%nat
    /\ World.sleeps (snd run)
       = (World.sleeps w ++ Run.backoff opts (RetryHandler.Required.delayMs opts) k)%list.
Proof.
  intros T self outcomes options w k problem elapsed opts Hmax Hfail Hbad Hcond run.
  subst run. unfold RetryHandler.execute. fold opts.
  rewrite (attemptNumbers_positive (RetryHandler.Required.maxAttempts opts)) by lia.
  destruct (attemptLoop_retries opts (World.now w) outcomes k
              (Z.to_nat (RetryHandler.Required.maxAttempts opts) - 1) 1
              (RetryHandler.Required.delayMs opts) None w
              ltac:(lia) ltac:(lia) Hfail)
    as (w' & delay' & lastError' & Hcalls & Hsleeps & Hloop).
  rewrite Hloop.
  change (seq (1 + k) (S ?n)) with ((1 + k)%nat :: seq (S (1 + k)) n). cbn [map].
  rewrite (attemptLoop_refused opts (Run.byCall outcomes) _ _ _ _ _ w' problem elapsed);
    [| unfold Run.byCall; now rewrite Hcalls | exact Hcond].
  unfold World.invoke, Run.byCall. rewrite Hcalls, Hbad. cbn.
  repeat split; try assumption; lia.
Qed.

(** X6 at a call that times out once and is then refused with
    invalid_token. *)
Lemma execute_stops_at_refused_error_witness :
  World.calls
    (snd (RetryHandler.execute RetryHandler.retryHandler (Run.byCall Case.revoked)
            Case.chat Scenario.start))
  = 2%nat.
Proof.
  refine (proj1 (proj2 (proj2 (proj2
            (execute_stops_at_refused_error unit RetryHandler.retryHandler Case.revoked
               Case.chat Scenario.start 1
               (Js.ThrownError (Js.newError "invalid_token")) 90 _ _ eq_refl eq_refl))))).
  - cbn. lia.
  - intros i Hi. destruct i as [|i]; [|lia]. eexists _, _; split; reflexivity.
Defined.

(** ** The limiter, whatever the times of the checks *)

Lemma entries_expire_any (t : Z) (key : string) (seconds : Z) (db : Redis.Db) :
  Redis.entries t key (Redis.expire t key seconds db)
  = if (seconds <=? 0)%Z then [] else Redis.entries t key db.
Proof.
  destruct (seconds <=? 0)%Z eqn:E.
  - unfold Redis.expire. destruct (Redis.live t key db); [rewrite E|]; apply entries_delete.
  - apply entries_expire. now apply Z.leb_gt.
Qed.

(** The window the pipeline leaves, for any [windowMs]: nothing when the
    time to live it sets is not positive. *)
Lemma window_after_pipeline_any (self : RateLimiter.t) (userId : string) (now : Z)
    (db : Redis.Db) :
  Terms.window userId now
    (snd (RateLimiter.pipeline self (Terms.keyOf userId) now
            (now - RateLimiter.windowMs self) db))
  = if (Js.ceilDiv (RateLimiter.windowMs self) 1000 <=? 0)%Z then []
    else Redis.place (now, Js.toString now)
           (List.filter (fun e => negb (String.eqb (snd e) (Js.toString now)))
              (Terms.pruned self now (Terms.window userId now db))).
Proof.
  unfold RateLimiter.pipeline, Terms.window, Terms.pruned. cbn [snd].
  rewrite entries_expire_any.
  destruct (_ <=? 0)%Z; [reflexivity|].
  now rewrite entries_zadd, entries_zremrangebyscore.
Qed.

Lemma window_in_stored (userId : string) (t : Z) (db : Redis.Db) :
  Terms.window userId t db = Window.stored userId db \/ Terms.window userId t db = [].
Proof.
  unfold Terms.window, Window.stored, Redis.entries, Redis.live.
  destruct (db !! Terms.keyOf userId) as [k|]; [|now left].
  destruct (Redis.expireAt k) as [deadline|]; [|now left].
  destruct (deadline <=? t)%Z; [now right | now left].
Qed.

(** What the pipeline leaves stored under the key. *)
Lemma stored_after_pipeline (self : RateLimiter.t) (userId : string) (now : Z)
    (db : Redis.Db) :
  Window.stored userId
    (snd (RateLimiter.pipeline self (Terms.keyOf userId) now
            (now - RateLimiter.windowMs self) db))
  = if (Js.ceilDiv (RateLimiter.windowMs self) 1000 <=? 0)%Z then []
    else Redis.place (now, Js.toString now)
           (List.filter (fun e => negb (String.eqb (snd e) (Js.toString now)))
              (Terms.pruned self now (Terms.window userId now db))).
Proof.
  unfold RateLimiter.pipeline, Terms.pruned, Terms.window, Window.stored. cbn [snd].
  rewrite <- entries_zremrangebyscore.
  set (db1 := Redis.zremrangebyscore _ _ _ _ db).
  unfold Redis.expire, Redis.zadd.
  rewrite live_insert.
  - destruct (_ <=? 0)%Z.
    + now rewrite lookup_delete_eq.
    + rewrite lookup_insert_eq. reflexivity.
  - cbn [Redis.expireAt].
    destruct (Redis.live now (Terms.keyOf userId) db1) as [k|] eqn:L; [|discriminate].
    apply (live_lookup _ _ _ _ L).
Qed.

Lemma length_pruned (self : RateLimiter.t) (now : Z) (l : list (Z * string)) :
  (length (Terms.pruned self now l) <= length l)%nat.
Proof. apply List.filter_length_le. Qed.

(** A check finds at most the stored entries and leaves at most one
    more than it found. *)
Lemma check_stored_growth (self : RateLimiter.t) (userId : string) (now : Z)
    (db : Redis.Db) :
  let found := length (Terms.pruned self now (Terms.window userId now db)) in
  (found <= length (Window.stored userId db))%nat
  /\ (length (Window.stored userId
                (snd (RateLimiter.checkRateLimit self Redis.Healthy userId now db)))
      <= S found)%nat.
Proof.
  intros found. split.
  - subst found. etransitivity; [apply length_pruned|].
    destruct (window_in_stored userId now db) as [-> | ->]; cbn; lia.
  - rewrite (check_healthy self userId now db). cbn [snd].
    rewrite stored_after_pipeline.
    destruct (_ <=? 0)%Z; [cbn; lia|].
    rewrite length_place. apply le_n_S. apply List.filter_length_le.
Qed.

Lemma checks_admitted (self : RateLimiter.t) (userId : string) :
  forall (times : list Z) (db : Redis.Db),
    Z.of_nat (length (Window.stored userId db) + length times)
    <= RateLimiter.maxRequests self ->
    Terms.verdicts (fst (Scenario.checks self userId times db))
    = repeat (Some true) (length times).
Proof.
  induction times as [|t times IH]; intros db Hroom; [reflexivity|].
  cbn [Scenario.checks].
  destruct (check_stored_growth self userId t db) as [Hfound Hleft].
  pose proof (check_healthy self userId t db) as Hcheck. cbv zeta in Hcheck.
  destruct (RateLimiter.checkRateLimit self Redis.Healthy userId t db) as [result db'].
  injection Hcheck as -> Hdb. cbn [snd] in Hleft.
  specialize (IH db'). cbn [length] in Hroom.
  destruct (Scenario.checks self userId times db') as [results db''].
  cbn [fst Terms.verdicts map RateLimiter.allowed length repeat]. f_equal.
  - f_equal. apply Z.ltb_lt. lia.
  - apply IH. lia.
Qed.

(** X7.  Room in the window is always granted.  When the entries
    stored for an identity and the checks to come are together no more
    than [maxRequests], every one of those checks is admitted, whatever
    the times they are made at (equal, out of order, or far apart) and
    whatever [windowMs] is.  In particular the first [maxRequests]
    checks of an identity without a key are admitted. *)
Theorem room_is_granted :
  forall (self : RateLimiter.t) (userId : string) (times : list Z) (db : Redis.Db),
    Z.of_nat (length (Window.stored userId db) + length times)
    <= RateLimiter.maxRequests self ->
    Terms.verdicts (fst (Scenario.checks self userId times db))
    = repeat (Some true) (length times).
Proof. exact checks_admitted. Qed.

(** X7 at two checks in the same millisecond, on a limiter of two
    requests per second. *)
Lemma room_is_granted_witness :
  Terms.verdicts (fst (Scenario.checks Scenario.twoPerSecond "u1" [5000; 5000] ∅))
  = [Some true; Some true].
Proof.
  apply (room_is_granted Scenario.twoPerSecond "u1" [5000; 5000] ∅).
  vm_compute. discriminate.
Defined.

(** ** The window over a run of checks *)

Section WindowFacts.
Variable self : RateLimiter.t.
Variable userId : string.
Hypothesis positiveWindow : 0 < RateLimiter.windowMs self.

(** Every stored entry was put there by one of the checks of [seen],
    none of them later than [hi]. *)
Let recorded (seen : list Z) (hi : Z) (db : Redis.Db) : Prop :=
  Forall (fun e => exists t, In t seen /\ e = Terms.stamp t /\ 0 <= t <= hi)
         (Window.stored userId db).

Lemma stored_after_check (now : Z) (db : Redis.Db) :
  Window.stored userId (snd (RateLimiter.checkRateLimit self Redis.Healthy userId now db))
  = Redis.place (Terms.stamp now)
      (List.filter (fun e => negb (String.eqb (snd e) (Js.toString now)))
         (Terms.pruned self now (Terms.window userId now db)))
  /\ Terms.window userId now
       (snd (RateLimiter.checkRateLimit self Redis.Healthy userId now db))
     = Window.stored userId
         (snd (RateLimiter.checkRateLimit self Redis.Healthy userId now db)).
Proof.
  rewrite (check_healthy self userId now db). cbn [snd].
  rewrite stored_after_pipeline, window_after_pipeline_any.
  replace (Js.ceilDiv (RateLimiter.windowMs self) 1000 <=? 0)%Z with false
    by (symmetry; apply Z.leb_gt; now apply ceilDiv_positive).
  split; reflexivity.
Qed.

Lemma recorded_step (seen : list Z) (hi now : Z) (db : Redis.Db) :
  recorded seen hi db ->
  hi <= now -> 0 <= now ->
  let db' := snd (RateLimiter.checkRateLimit self Redis.Healthy userId now db) in
  recorded (seen ++ [now]) now db'
  /\ Forall (fun e => now - RateLimiter.windowMs self < fst e <= now)
            (Window.stored userId db').
Proof.
  intros Hrec Hhi Hnow db'. subst db'. unfold recorded in *.
  destruct (stored_after_check now db) as [-> _].
  rewrite !List.Forall_forall in *.
  assert (Hold : forall e,
             In e (List.filter (fun e => negb (String.eqb (snd e) (Js.toString now)))
                     (Terms.pruned self now (Terms.window userId now db))) ->
             exists t, In t seen /\ e = Terms.stamp t /\ 0 <= t <= hi
                       /\ now - RateLimiter.windowMs self < t).
  { intros e He. apply filter_In in He as [He _].
    unfold Terms.pruned in He. apply filter_In in He as [He Hkeep].
    assert (Hs : In e (Window.stored userId db)).
    { destruct (window_in_stored userId now db) as [E|E]; rewrite E in He;
        [exact He | destruct He]. }
    destruct (Hrec e Hs) as (t & Ht & -> & Hrange).
    exists t. repeat split; try assumption; try lia.
    cbn [fst Terms.stamp] in Hkeep.
    apply negb_true_iff, andb_false_iff in Hkeep as [H|H].
    - apply Z.leb_gt in H. lia.
    - apply Z.leb_gt in H. lia. }
  split; intros e He; apply In_place in He as [->|He].
  - exists now. split; [apply in_or_app; right; now left|]. split; [reflexivity|lia].
  - destruct (Hold e He) as (t & Ht & -> & Hrange & _).
    exists t. split; [apply in_or_app; now left|]. split; [reflexivity|lia].
  - cbn. lia.
  - destruct (Hold e He) as (t & Ht & -> & Hrange & Hyoung). cbn. lia.
Qed.

Lemma last_any_default (x d d' : Z) (rest : list Z) :
  List.last (x :: rest) d = List.last (x :: rest) d'.
Proof.
  revert x. induction rest as [|y rest IH]; intros x; [reflexivity|].
  change (List.last (y :: rest) d = List.last (y :: rest) d'). apply IH.
Qed.

Lemma last_after_cons (t d : Z) (rest : list Z) : List.last (t :: rest) d = List.last rest t.
Proof.
  destruct rest as [|x rest]; [reflexivity|].
  change (List.last (x :: rest) d = List.last (x :: rest) t). apply last_any_default.
Qed.

Lemma recorded_run :
  forall (times seen : list Z) (hi : Z) (db : Redis.Db),
    recorded seen hi db ->
    StronglySorted Z.le (hi :: times) ->
    0 <= hi ->
    let db' := snd (Scenario.checks self userId times db) in
    recorded (seen ++ times) (Window.latest hi times) db'
    /\ (times <> [] ->
        Forall (fun e => Window.latest hi times - RateLimiter.windowMs self < fst e
                         <= Window.latest hi times)
               (Window.stored userId db')
        /\ Terms.window userId (Window.latest hi times) db' = Window.stored userId db').
Proof.
  induction times as [|t times IH]; intros seen hi db Hrec Hsorted Hhi db'.
  - subst db'. cbn. rewrite app_nil_r. split; [exact Hrec | intros []; reflexivity].
  - apply StronglySorted_inv in Hsorted as [Hrest Hfirst].
    assert (Hle : hi <= t) by (apply Forall_inv in Hfirst; exact Hfirst).
    destruct (recorded_step seen hi t db Hrec Hle ltac:(lia)) as [Hrec' Hyoung].
    destruct (stored_after_check t db) as [_ Hview].
    subst db'. cbn [Scenario.checks].
    destruct (RateLimiter.checkRateLimit self Redis.Healthy userId t db) as [result db1].
    cbn [snd] in Hrec', Hyoung, Hview.
    specialize (IH (seen ++ [t])%list t db1 Hrec' Hrest ltac:(lia)).
    destruct (Scenario.checks self userId times db1) as [results db2] eqn:Hrun.
    cbn [snd] in *. destruct IH as [IHrec IHyoung].
    unfold Window.latest in *. rewrite last_after_cons.
    rewrite <- app_assoc in IHrec. cbn [app] in IHrec.
    split; [exact IHrec|]. intros _.
    destruct times as [|t' times].
    + cbn in Hrun. injection Hrun as <- <-. split; [exact Hyoung | exact Hview].
    + apply IHyoung. discriminate.
Qed.

End WindowFacts.

(** X8.  The stored window stays within the sliding window.  After a
    run of checks at times that do not decrease, from a store without
    the identity's key, every stored entry is the entry of one of those
    checks, made later than [windowMs] before the last check and not
    after it; and the entries a command then finds are the stored ones
    (the key has not expired). *)
Theorem stored_window_is_current :
  forall (self : RateLimiter.t) (userId : string) (first : Z) (later : list Z)
         (db : Redis.Db),
    0 < RateLimiter.windowMs self ->
    db !! Terms.keyOf userId = None ->
    0 <= first ->
    StronglySorted Z.le (first :: later) ->
    let last := Window.latest first later in
    let db' := snd (Scenario.checks self userId (first :: later) db) in
    Terms.window userId last db' = Window.stored userId db'
    /\ Forall (fun e => exists t,
                   In t (first :: later)
                   /\ e = Terms.stamp t
                   /\ last - RateLimiter.windowMs self < t <= last)
              (Window.stored userId db').
Proof.
  intros self userId first later db Hw Hfresh Hfirst Hsorted last db'.
  assert (Hstart : Forall (fun e => exists t, In t [] /\ e = Terms.stamp t
                                              /\ 0 <= t <= first)
                          (Window.stored userId db)).
  { unfold Window.stored. rewrite Hfresh. constructor. }
  assert (Hsorted' : StronglySorted Z.le (first :: first :: later)).
  { constructor; [exact Hsorted|]. constructor; [lia|].
    now apply StronglySorted_inv in Hsorted as [_ H]. }
  destruct (recorded_run self userId Hw (first :: later) [] first db Hstart Hsorted' Hfirst)
    as [Hrec Hyoung].
  destruct (Hyoung ltac:(discriminate)) as [Hrange Hview].
  assert (Hlast : Window.latest first (first :: later) = last).
  { subst last. unfold Window.latest. apply last_after_cons. }
  rewrite Hlast in *. fold db' in Hrec, Hrange, Hview.
  split; [exact Hview|].
  cbn [app] in Hrec. rewrite List.Forall_forall in *.
  intros e He. destruct (Hrec e He) as (t & Ht & -> & _).
  exists t. split; [exact Ht|]. split; [reflexivity|].
  specialize (Hrange _ He). cbn in Hrange. exact Hrange.
Qed.

(** X8 at checks at 5000, 5400 and 6200 ms on a limiter of two
    requests per second: the entry of 5000 is gone. *)
Lemma stored_window_is_current_witness :
  Forall (fun e => exists t, In t [5000; 5400; 6200]
                             /\ e = Terms.stamp t /\ 6200 - 1000 < t <= 6200)
         (Window.stored "u1"
            (snd (Scenario.checks Scenario.twoPerSecond "u1" [5000; 5400; 6200] ∅))).
Proof.
  refine (proj2 (stored_window_is_current Scenario.twoPerSecond "u1" 5000 [5400; 6200] ∅
                   eq_refl eq_refl _ _)).
  - discriminate.
  - repeat constructor; discriminate.
Defined.

(** ** Reset, status and middleware of the limiter *)

(** X9.  A reset forgets the identity and nothing else.  After
    [resetRateLimit(userId)] every other key of the store is as before,
    and a check of that identity counts no earlier request, whatever
    the store held and whenever the check is made. *)
Theorem reset_forgets_identity :
  forall (self : RateLimiter.t) (userId : string) (now : Z) (db : Redis.Db),
    let db0 := RateLimiter.resetRateLimit userId db in
    (forall other, other <> Terms.keyOf userId -> db0 !! other = db !! other)
    /\ fst (RateLimiter.checkRateLimit self Redis.Healthy userId now db0)
       = Js.Resolve
           {| RateLimiter.allowed := (0 <? RateLimiter.maxRequests self)%Z;
              RateLimiter.remaining := Z.max 0 (RateLimiter.maxRequests self);
              RateLimiter.resetTime := now + RateLimiter.windowMs self;
              RateLimiter.retryAfter :=
                if (0 <? RateLimiter.maxRequests self)%Z then None
                else Some (Js.ceilDiv (RateLimiter.windowMs self) 1000) |}.
Proof.
  intros self userId now db db0. split.
  - intros other Hother. subst db0. unfold RateLimiter.resetRateLimit.
    fold (Terms.keyOf userId). now rewrite lookup_delete_ne.
  - rewrite (check_healthy self userId now db0). cbn [fst].
    rewrite window_after_pipeline_any.
    assert (Hgone : Terms.window userId now db0 = []).
    { subst db0. unfold Terms.window, RateLimiter.resetRateLimit.
      fold (Terms.keyOf userId). apply entries_delete. }
    rewrite Hgone. cbn [Terms.pruned List.filter length Redis.place].
    change (Z.of_nat 0) with 0. rewrite Z.sub_0_r.
    destruct (Js.ceilDiv (RateLimiter.windowMs self) 1000 <=? 0)%Z; cbn [fst Terms.stamp];
      replace (now + RateLimiter.windowMs self - now) with (RateLimiter.windowMs self)
        by lia; reflexivity.
Qed.

Lemma filter_again {A} (f : A -> bool) (l : list A) :
  List.filter f (List.filter f l) = List.filter f l.
Proof.
  induction l as [|x l IH]; [reflexivity|]. cbn [List.filter].
  destruct (f x) eqn:Hx; [|exact IH]. cbn [List.filter]. now rewrite Hx, IH.
Qed.

Lemma zremrangebyscore_again (t : Z) (key : string) (min max : Z) (db : Redis.Db) :
  Redis.zremrangebyscore t key min max (Redis.zremrangebyscore t key min max db)
  = Redis.zremrangebyscore t key min max db.
Proof.
  unfold Redis.zremrangebyscore at 2 3.
  destruct (Redis.live t key db) as [k|] eqn:Hlive.
  - destruct (List.filter (fun e => negb ((min <=? fst e)%Z && (fst e <=? max)%Z))
                (Redis.zset k)) as [|e kept] eqn:Hkept.
    + unfold Redis.zremrangebyscore, Redis.live. rewrite lookup_delete_eq.
      now rewrite delete_delete_eq.
    + unfold Redis.zremrangebyscore.
      rewrite live_insert.
      * cbn [Redis.zset Redis.expireAt]. rewrite <- Hkept, filter_again, Hkept.
        now rewrite insert_insert_eq.
      * cbn [Redis.expireAt]. apply live_lookup in Hlive as [_ H]. exact H.
  - unfold Redis.zremrangebyscore, Redis.live. rewrite lookup_delete_eq.
    now rewrite delete_delete_eq.
Qed.

Lemma pipeline_after_prune (self : RateLimiter.t) (key : string) (now windowStart : Z)
    (db : Redis.Db) :
  RateLimiter.pipeline self key now windowStart
    (Redis.zremrangebyscore now key 0 windowStart db)
  = RateLimiter.pipeline self key now windowStart db.
Proof. unfold RateLimiter.pipeline. now rewrite zremrangebyscore_again. Qed.

Lemma status_served (self : RateLimiter.t) (userId : string) (now : Z) (db : Redis.Db) :
  let found := Terms.pruned self now (Terms.window userId now db) in
  let count := Z.of_nat (length found) in
  let resetTime := match found with
                   | [] => now + RateLimiter.windowMs self
                   | (score, _) :: _ => score + RateLimiter.windowMs self
                   end in
  RateLimiterMethods.getRateLimitStatus self RateLimiterMethods.Served userId now db
  = (Js.Resolve
       {| RateLimiter.allowed := (count <? RateLimiter.maxRequests self)%Z;
          RateLimiter.remaining := Z.max 0 (RateLimiter.maxRequests self - count);
          RateLimiter.resetTime := resetTime;
          RateLimiter.retryAfter :=
            if (count <? RateLimiter.maxRequests self)%Z then None
            else Some (Js.ceilDiv (resetTime - now) 1000) |},
     Redis.zremrangebyscore now (Terms.keyOf userId) 0
       (now - RateLimiter.windowMs self) db).
Proof.
  intros found count resetTime.
  unfold RateLimiterMethods.getRateLimitStatus, Js.tryAsync, Js.bind,
    RateLimiterMethods.prune, RateLimiterMethods.card, RateLimiterMethods.range, Js.ret,
    Redis.zcard, Redis.zrangeFirst.
  fold (Terms.keyOf userId). rewrite entries_zremrangebyscore.
  fold (Terms.window userId now db). fold (Terms.pruned self now (Terms.window userId now db)).
  fold found. fold count. subst resetTime.
  destruct found as [|[score member] rest]; reflexivity.
Qed.

(** X10.  Asking for the status does not spend a request.
    [getRateLimitStatus] removes what the next check would remove and
    adds nothing: a check made at the same moment after it returns
    what it would have returned without it and leaves the same store,
    and the status reports the verdict and the remaining count of that
    check. *)
Theorem status_spends_nothing :
  forall (self : RateLimiter.t) (userId : string) (now : Z) (db : Redis.Db),
    let asked :=
      RateLimiterMethods.getRateLimitStatus self RateLimiterMethods.Served userId now db in
    let direct := RateLimiter.checkRateLimit self Redis.Healthy userId now db in
    RateLimiter.checkRateLimit self Redis.Healthy userId now (snd asked) = direct
    /\ Terms.window userId now (snd asked)
       = Terms.pruned self now (Terms.window userId now db)
    /\ exists status result,
         fst asked = Js.Resolve status
         /\ fst direct = Js.Resolve result
         /\ RateLimiter.allowed status = RateLimiter.allowed result
         /\ RateLimiter.remaining status = RateLimiter.remaining result.
Proof.
  intros self userId now db asked direct. subst asked direct.
  rewrite (status_served self userId now db). cbn [fst snd].
  assert (Hview : Terms.window userId now
                    (Redis.zremrangebyscore now (Terms.keyOf userId) 0
                       (now - RateLimiter.windowMs self) db)
                  = Terms.pruned self now (Terms.window userId now db)).
  { unfold Terms.window, Terms.pruned. apply entries_zremrangebyscore. }
  split; [|split; [exact Hview|]].
  - rewrite !check_healthy. rewrite pipeline_after_prune, Hview.
    assert (Honce : Terms.pruned self now
                      (Terms.pruned self now (Terms.window userId now db))
                    = Terms.pruned self now (Terms.window userId now db))
      by apply filter_again.
    now rewrite !Honce.
  - rewrite check_healthy. cbn [fst]. do 2 eexists.
    split; [reflexivity|]. split; [reflexivity|]. split; reflexivity.
Qed.

(** X11.  [getRateLimitStatus] never rejects, and what it reports is
    consistent: whichever of its three commands the store rejects, it
    reports the identity as allowed with all [maxRequests] remaining;
    otherwise the remaining count lies between 0 and [maxRequests],
    and an identity reported as not allowed has nothing remaining and
    is told how long to wait. *)
Theorem status_always_answers :
  forall (self : RateLimiter.t) (answer : RateLimiterMethods.Answer) (userId : string)
         (now : Z) (db : Redis.Db),
    0 <= RateLimiter.maxRequests self ->
    exists status,
      fst (RateLimiterMethods.getRateLimitStatus self answer userId now db)
      = Js.Resolve status
      /\ 0 <= RateLimiter.remaining status <= RateLimiter.maxRequests self
      /\ (answer <> RateLimiterMethods.Served ->
          status = {| RateLimiter.allowed := true;
                      RateLimiter.remaining := RateLimiter.maxRequests self;
                      RateLimiter.resetTime := now + RateLimiter.windowMs self;
                      RateLimiter.retryAfter := None |})
      /\ (RateLimiter.allowed status = false ->
          RateLimiter.remaining status = 0
          /\ exists seconds, RateLimiter.retryAfter status = Some seconds).
Proof.
  intros self answer userId now db Hmax.
  destruct answer as [|problem|problem|problem].
  - rewrite status_served. cbn [fst]. eexists. split; [reflexivity|].
    cbn [RateLimiter.remaining RateLimiter.allowed RateLimiter.retryAfter].
    split; [lia|]. split; [congruence|].
    intros Hdenied. rewrite Hdenied. apply Z.ltb_ge in Hdenied.
    split; [lia | eexists; reflexivity].
  - eexists. split; [reflexivity|]. cbn. split; [lia|]. split; [reflexivity|discriminate].
  - eexists. split; [reflexivity|]. cbn. split; [lia|]. split; [reflexivity|discriminate].
  - eexists. split; [reflexivity|]. cbn. split; [lia|]. split; [reflexivity|discriminate].
Qed.

(** X11 for a store whose [zcard] is rejected. *)
Lemma status_always_answers_witness :
  exists status,
    fst (RateLimiterMethods.getRateLimitStatus Scenario.twoPerSecond
           (RateLimiterMethods.CardRejects (Js.ThrownError (Js.newError "READONLY")))
           "u1" 5000 ∅)
    = Js.Resolve status
    /\ 0 <= RateLimiter.remaining status <= 2
    /\ (RateLimiterMethods.CardRejects (Js.ThrownError (Js.newError "READONLY"))
        <> RateLimiterMethods.Served ->
        status = {| RateLimiter.allowed := true;
                    RateLimiter.remaining := 2;
                    RateLimiter.resetTime := 5000 + 1000;
                    RateLimiter.retryAfter := None |})
    /\ (RateLimiter.allowed status = false ->
        RateLimiter.remaining status = 0
        /\ exists seconds, RateLimiter.retryAfter status = Some seconds).
Proof.
  apply (status_always_answers Scenario.twoPerSecond
           (RateLimiterMethods.CardRejects (Js.ThrownError (Js.newError "READONLY")))
           "u1" 5000 ∅).
  discriminate.
Defined.

Lemma toString_nonempty (z : Z) : Js.toString z <> "".
Proof.
  intros H. assert (Hz : z = 0).
  { unfold Js.toString in H. apply (f_equal NilEmpty.int_of_string) in H.
    rewrite NilEmpty.isi in H. cbn in H. injection H as H.
    apply (f_equal Z.of_int) in H. now rewrite DecimalZ.of_to in H. }
  subst z. discriminate H.
Qed.

Lemma check_answers (self : RateLimiter.t) (answer : Redis.Answer) (userId : string)
    (now : Z) (db : Redis.Db) :
  exists result,
    fst (RateLimiter.checkRateLimit self answer userId now db) = Js.Resolve result
    /\ (RateLimiter.allowed result = false ->
        exists seconds, RateLimiter.retryAfter result = Some seconds)
    /\ (answer <> Redis.Healthy -> RateLimiter.allowed result = true).
Proof.
  destruct answer as [|problem| |problem].
  - rewrite check_healthy. cbn [fst]. eexists. split; [reflexivity|].
    cbn [RateLimiter.allowed RateLimiter.retryAfter]. split; [|congruence].
    intros ->. eexists; reflexivity.
  - eexists. split; [reflexivity|]. cbn. split; [discriminate|reflexivity].
  - eexists. split; [reflexivity|]. cbn. split; [discriminate|reflexivity].
  - unfold RateLimiter.checkRateLimit, Js.tryAsync, Js.bind, RateLimiter.exec,
      RateLimiter.zrange, Js.ret.
    destruct (RateLimiter.pipeline self ("rate_limit:" +:+ userId) now
                (now - RateLimiter.windowMs self) db) as [count db'].
    eexists. split; [reflexivity|]. cbn. split; [discriminate|reflexivity].
Qed.

(** X12.  The middleware turns away exactly the requests the check
    denies.  It never rejects and leaves the store as the check of the
    request's identity leaves it; a request the check allows is passed
    on with the three limit headers; a request it denies is answered
    with status 429, and the Retry-After header and the body carry the
    seconds the check gave (the default of 60 is never sent).  When
    the store does not answer normally, the request is passed on. *)
Theorem middleware_follows_check :
  forall (self : RateLimiter.t) (answer : Redis.Answer)
         (req : RateLimiterMethods.Request) (now : Z) (db : Redis.Db),
    let checked :=
      RateLimiter.checkRateLimit self answer (RateLimiterMethods.identity req) now db in
    let served := RateLimiterMethods.middleware self answer req now db in
    snd served = snd checked
    /\ exists result,
         fst checked = Js.Resolve result
         /\ (answer <> Redis.Healthy -> RateLimiter.allowed result = true)
         /\ (RateLimiter.allowed result = true ->
             fst served
             = Js.Resolve
                 (RateLimiterMethods.Next (RateLimiterMethods.limitHeaders self result)))
         /\ (RateLimiter.allowed result = false ->
             exists seconds,
               RateLimiter.retryAfter result = Some seconds
               /\ fst served
                  = Js.Resolve
                      (RateLimiterMethods.Json 429
                         (<["Retry-After" := Js.toString seconds]>
                            (RateLimiterMethods.limitHeaders self result))
                         {| RateLimiterMethods.error := "Rate limit exceeded";
                            RateLimiterMethods.message :=
                              "Too many requests. Please try again later.";
                            RateLimiterMethods.retryAfter := Some seconds |})).
Proof.
  intros self answer req now db checked served. subst checked served.
  destruct (check_answers self answer (RateLimiterMethods.identity req) now db)
    as (result & Hresult & Hwait & Hopen).
  unfold RateLimiterMethods.middleware, Js.tryAsync, Js.bind.
  destruct (RateLimiter.checkRateLimit self answer (RateLimiterMethods.identity req) now db)
    as [outcome db'] eqn:Hcheck.
  cbn [fst snd] in *. subst outcome.
  destruct (RateLimiter.allowed result) eqn:Hallowed.
  - cbn [Js.ret fst snd]. split; [reflexivity|]. exists result. rewrite Hallowed.
    split; [reflexivity|]. split; [exact Hopen|]. split; [reflexivity|discriminate].
  - cbn [Js.ret fst snd]. split; [reflexivity|]. exists result. rewrite Hallowed.
    split; [reflexivity|]. split; [exact Hopen|]. split; [discriminate|].
    intros _. destruct (Hwait eq_refl) as [seconds Hseconds]. exists seconds.
    split; [exact Hseconds|].
    unfold RateLimiterMethods.retryAfterHeader, NotificationWorker.orString.
    rewrite Hseconds. cbn [fmap option_fmap option_map].
    destruct (String.eqb (Js.toString seconds) "") eqn:Hempty; [|reflexivity].
    apply String.eqb_eq in Hempty. now apply toString_nonempty in Hempty.
Qed.

(** ** The clock of the retry engine *)



(** ** Retry conditions in general *)

(** X14.  What a retry condition accepts.  For any two lists of
    strings, the condition [createRetryCondition] builds accepts an
    error exactly when the error matches none of the non-retryable
    strings and, if retryable strings are given, matches one of them;
    with no list at all it accepts every error. *)
Theorem createRetryCondition_decides :
  forall (retryable nonRetryable : list string) (error : Js.Error),
    (RetryHandler.createRetryCondition retryable nonRetryable error = true
     <-> ~ Terms.matches nonRetryable error
         /\ (retryable = [] \/ Terms.matches retryable error))
    /\ RetryHandler.createRetryCondition [] [] error = true.
Proof.
  intros retryable nonRetryable error. split.
  - split.
    + intros Htrue.
      assert (Hnon : ~ Terms.matches nonRetryable error).
      { intros Hm. rewrite (condition_nonRetryable retryable _ _ Hm) in Htrue.
        discriminate. }
      split; [exact Hnon|].
      destruct retryable as [|r rs]; [now left|]. right.
      apply matchesAny_matches.
      destruct (RetryHandler.matchesAny _ _ (r :: rs)) eqn:Hm; [reflexivity|].
      apply matchesAny_not_matches in Hm.
      rewrite (condition_unlisted (r :: rs) nonRetryable error) in Htrue;
        [discriminate | discriminate | exact Hm].
    + intros [Hnon [-> | Hret]].
      * now apply condition_default.
      * now apply condition_retryable.
  - apply condition_default. intros (p & [] & _).
Qed.

(** ** Submissions and what the queue returns for them *)





(** ** The tables read by score *)

(** X16.  The three tables that read a score use the same bands.  The
    rank [getJobPriority] gives the queue, the level
    [getPriorityFromScore] names, the delay [getJobDelay] sets and the
    estimate [getEstimatedDeliveryTime] answers with go together:
    rank 1 is critical, immediate and undelayed; rank 2 is high and
    undelayed; rank 3 is medium and delayed by 5 seconds; rank 4 is low
    and delayed by 30 seconds. *)
Theorem score_tables_agree :
  forall (score : Z),
    (AIScorer.getPriorityFromScore score,
     NotificationQueue.getJobDelay score,
     NotifyResponse.getEstimatedDeliveryTime score)
    = (if (NotificationQueue.getJobPriority score =? 1)%Z
       then (AIScorer.critical, 0, "immediate")
       else if (NotificationQueue.getJobPriority score =? 2)%Z
       then (AIScorer.high, 0, "within 5 minutes")
       else if (NotificationQueue.getJobPriority score =? 3)%Z
       then (AIScorer.medium, 5000, "within 10 minutes")
       else (AIScorer.low, 30000, "within 30 minutes"))
    /\ 1 <= NotificationQueue.getJobPriority score <= 4.
Proof.
  intros score.
  unfold AIScorer.getPriorityFromScore, NotificationQueue.getJobDelay,
    NotifyResponse.getEstimatedDeliveryTime, NotificationQueue.getJobPriority.
  destruct (score >=? 80)%Z eqn:H80.
  - assert (H60 : (score >=? 60)%Z = true) by lia. rewrite H60. cbn. split; [reflexivity|lia].
  - destruct (score >=? 60)%Z eqn:H60; [cbn; split; [reflexivity|lia]|].
    destruct (score >=? 30)%Z eqn:H30; cbn; (split; [reflexivity|lia]).
Qed.

(** X17.  A higher score is never served later.  Of two scores, the
    higher one gets a rank at least as urgent (a number no greater)
    and a delay no longer. *)
Theorem higher_score_never_later :
  forall (lower higher : Z),
    lower <= higher ->
    NotificationQueue.getJobPriority higher <= NotificationQueue.getJobPriority lower
    /\ NotificationQueue.getJobDelay higher <= NotificationQueue.getJobDelay lower.
Proof.
  intros lower higher Hle.
  unfold NotificationQueue.getJobPriority, NotificationQueue.getJobDelay.
  destruct (lower >=? 80)%Z eqn:L80, (lower >=? 60)%Z eqn:L60, (lower >=? 30)%Z eqn:L30,
    (higher >=? 80)%Z eqn:H80, (higher >=? 60)%Z eqn:H60, (higher >=? 30)%Z eqn:H30; lia.
Qed.

(** X17 at the scores 45 and 85. *)
Lemma higher_score_never_later_witness :
  NotificationQueue.getJobPriority 85 <= NotificationQueue.getJobPriority 45
  /\ NotificationQueue.getJobDelay 85 <= NotificationQueue.getJobDelay 45.
Proof. apply (higher_score_never_later 45 85). lia. Defined.

(** ** Error messages on their way to the retry conditions *)

Lemma toLowerCase_append (a b : string) :
  Js.toLowerCase (a +:+ b) = Js.toLowerCase a +:+ Js.toLowerCase b.
Proof.
  induction a as [|c a IH]; [reflexivity|].
  change (String c a +:+ b) with (String c (a +:+ b)).
  cbn [Js.toLowerCase]. rewrite IH. reflexivity.
Qed.

Lemma includes_char (c x : ascii) (p : string) :
  Js.includes (String x p) (String c "") = false ->
  c <> x /\ Js.includes p (String c "") = false.
Proof.
  cbn [Js.includes String.prefix]. destruct (ascii_dec c x) as [->|Hne].
  - destruct p; discriminate.
  - intros H. split; [exact Hne | exact H].
Qed.

Lemma prefix_stops_at (sep : ascii) (b : string) :
  forall (p u : string),
    Js.includes p (String sep "") = false ->
    String.prefix p (u +:+ String sep b) = String.prefix p (u +:+ String sep "").
Proof.
  induction p as [|c p IH]; intros u Hsep; [destruct u; reflexivity|].
  apply includes_char in Hsep as [Hne Hrest].
  destruct u as [|x u]; simpl.
  - destruct (ascii_dec c sep) as [E|_]; [now subst|reflexivity].
  - destruct (ascii_dec c x); [now apply IH | reflexivity].
Qed.

Lemma includes_through_prefix (sep : ascii) (p b : string) :
  p <> "" ->
  Js.includes p (String sep "") = false ->
  forall u : string,
    Js.includes (u +:+ String sep b) p
    = Js.includes (u +:+ String sep "") p || Js.includes b p.
Proof.
  intros Hp Hsep. induction u as [|x u IH].
  - destruct p as [|c p]; [contradiction|].
    apply includes_char in Hsep as [Hne _]. simpl.
    destruct (ascii_dec c sep) as [E|_]; [now subst|]. reflexivity.
  - change (String x u +:+ String sep b) with (String x (u +:+ String sep b)).
    change (String x u +:+ String sep "") with (String x (u +:+ String sep "")).
    cbn [Js.includes].
    change (String x (u +:+ String sep b)) with (String x u +:+ String sep b).
    change (String x (u +:+ String sep "")) with (String x u +:+ String sep "").
    rewrite (prefix_stops_at sep b p (String x u) Hsep).
    destruct (String.prefix p (String x u +:+ String sep "")); [reflexivity|].
    exact IH.
Qed.

Lemma includes_foreign (test : ascii -> bool) (c : ascii) (p : string) :
  test c = false ->
  forall b : string, Text.every test b = true -> Js.includes b (String c p) = false.
Proof.
  intros Hc. induction b as [|x b IH]; intros Hb; [reflexivity|].
  cbn [Text.every] in Hb. apply andb_true_iff in Hb as [Hx Hb].
  cbn [Js.includes String.prefix].
  destruct (ascii_dec c x) as [E|_]; [subst; congruence|]. now apply IH.
Qed.

Lemma every_numeral_uint (d : Decimal.uint) :
  Text.every Text.numeral (NilEmpty.string_of_uint d) = true.
Proof. induction d; cbn [NilEmpty.string_of_uint Text.every]; try rewrite IHd; reflexivity. Qed.

Lemma every_numeral_toString (z : Z) : Text.every Text.numeral (Js.toString z) = true.
Proof.
  unfold Js.toString. destruct (Z.to_int z) as [d|d]; cbn [NilEmpty.string_of_int].
  - apply every_numeral_uint.
  - cbn [Text.every]. now rewrite every_numeral_uint.
Qed.

(** A prefix that ends in a space and holds none of the patterns does
    not change what [matchesAny] finds. *)
Lemma matchesAny_through_prefix (u b code : string) (patterns : list string) :
  forallb (fun p => Text.foreignTo (u +:+ " ") (Js.toLowerCase p)) patterns = true ->
  RetryHandler.matchesAny ((u +:+ " ") +:+ b) code patterns
  = RetryHandler.matchesAny b code patterns.
Proof.
  induction patterns as [|p rest IH]; intros Hall; [reflexivity|].
  cbn [forallb] in Hall. apply andb_true_iff in Hall as [Hp Hrest].
  unfold Text.foreignTo in Hp.
  apply andb_true_iff in Hp as [Hp Hout]. apply andb_true_iff in Hp as [Hne Hspace].
  apply negb_true_iff in Hne, Hspace, Hout. apply String.eqb_neq in Hne.
  cbn [RetryHandler.matchesAny]. rewrite (IH Hrest).
  assert (E : (u +:+ " ") +:+ b = u +:+ String " " b).
  { clear. induction u as [|x u IHu]; [reflexivity|].
    change (String x ((u +:+ " ") +:+ b) = String x (u +:+ String " " b)).
    now rewrite IHu. }
  rewrite E, (includes_through_prefix " " _ b Hne Hspace u).
  change (String " " "") with " ". now rewrite Hout.
Qed.

Lemma condition_through_prefix (u m : string) (retryable nonRetryable : list string) :
  forallb (fun p => Text.foreignTo (Js.toLowerCase u +:+ " ") (Js.toLowerCase p))
          (nonRetryable ++ retryable)%list = true ->
  RetryHandler.createRetryCondition retryable nonRetryable (Js.newError ((u +:+ " ") +:+ m))
  = RetryHandler.createRetryCondition retryable nonRetryable (Js.newError m).
Proof.
  intros Hall. rewrite forallb_app in Hall. apply andb_true_iff in Hall as [Hnon Hret].
  unfold RetryHandler.createRetryCondition, Js.newError. cbn [Js.message Js.code].
  rewrite !toLowerCase_append. change (Js.toLowerCase " ") with " ".
  now rewrite !matchesAny_through_prefix.
Qed.

(** X18.  The prefix a service puts before an error does not change
    whether the error is retried.  For every message, the predicate of
    each channel gives the error the service throws, with
    "Slack delivery failed: ", "Email delivery failed: " or
    "Webhook delivery failed: " before the message, the verdict it
    gives the message alone; and the same holds for a Slack error
    code, which arrives behind "Slack API error: " as well. *)
Theorem service_prefix_keeps_verdict :
  forall (m : string),
    RetryHandler.conditions.slack (Js.newError ("Slack delivery failed: " +:+ m))
    = RetryHandler.conditions.slack (Js.newError m)
    /\ RetryHandler.conditions.email (Js.newError ("Email delivery failed: " +:+ m))
       = RetryHandler.conditions.email (Js.newError m)
    /\ RetryHandler.conditions.webhook (Js.newError ("Webhook delivery failed: " +:+ m))
       = RetryHandler.conditions.webhook (Js.newError m)
    /\ RetryHandler.conditions.slack
         (Js.newError ("Slack delivery failed: " +:+ ("Slack API error: " +:+ m)))
       = RetryHandler.conditions.slack (Js.newError m).
Proof.
  intros m. split; [|split; [|split]].
  - apply (condition_through_prefix "Slack delivery failed:" m). reflexivity.
  - apply (condition_through_prefix "Email delivery failed:" m). reflexivity.
  - apply (condition_through_prefix "Webhook delivery failed:" m). reflexivity.
  - apply (condition_through_prefix "Slack delivery failed: Slack API error:" m).
    reflexivity.
Qed.

(** ** The worker with its services *)

Lemma execute_first_call_resolves {T} (self : RetryHandler.t)
    (operation : World.Operation T) (options : RetryHandler.RetryOptions) (w : World.t)
    (value : T) (elapsed : Z) :
  1 <= RetryHandler.Required.maxAttempts
         (RetryHandler.spread (RetryHandler.defaultOptions self) options) ->
  operation w = (Js.Resolve value, elapsed) ->
  RetryHandler.execute self operation options w
  = ({| RetryHandler.success := true;
        RetryHandler.data := Some value;
        RetryHandler.error := None;
        RetryHandler.attempts := 1;
        RetryHandler.totalTimeMs := Z.max 0 elapsed |},
     {| World.now := World.now w + Z.max 0 elapsed;
        World.calls := S (World.calls w);
        World.sleeps := World.sleeps w |}).
Proof.
  intros Hmax Hop. unfold RetryHandler.execute.
  rewrite (attemptNumbers_positive _ Hmax).
  change (seq 1 (S ?n)) with (1%nat :: seq 2 n). cbn [map RetryHandler.attemptLoop].
  rewrite (invoke_resolved _ _ _ _ Hop). cbn [World.now]. do 2 f_equal. lia.
Qed.

Lemma webhook_delivery {Response} (services : NotificationWorker.Services Response)
    (data : NotificationQueue.JobData) (target : string) :
  NotificationQueue.channel data = "webhook" ->
  NotificationQueue.target data = Some target ->
  target <> "" ->
  Terms.delivery services data
  = Some (NotificationWorker.webhookCall services data, RetryHandler.conditions.webhook).
Proof.
  intros Hchannel Htarget Hne. unfold Terms.delivery. rewrite Hchannel, Htarget.
  cbn [NotificationWorker.missing].
  apply String.eqb_neq in Hne. rewrite Hne. reflexivity.
Qed.

Lemma numeral_lower (s : string) :
  Text.every Text.numeral s = true -> Js.toLowerCase s = s.
Proof.
  induction s as [|c s IH]; [reflexivity|]. cbn [Text.every Js.toLowerCase].
  intros H. apply andb_true_iff in H as [Hc Hs]. rewrite (IH Hs). f_equal.
  destruct c as [[] [] [] [] [] [] [] []]; try discriminate Hc; reflexivity.
Qed.

Lemma matchesAny_numerals (b : string) (patterns : list string) :
  Text.every Text.numeral b = true ->
  forallb (fun p => match Js.toLowerCase p with
                    | EmptyString => false
                    | String c _ => negb (Text.numeral c)
                    end) patterns = true ->
  RetryHandler.matchesAny b "" patterns = false.
Proof.
  intros Hb. induction patterns as [|p rest IH]; intros Hall; [reflexivity|].
  cbn [forallb] in Hall. apply andb_true_iff in Hall as [Hp Hrest].
  cbn [RetryHandler.matchesAny]. rewrite (IH Hrest).
  destruct (Js.toLowerCase p) as [|c q]; [discriminate|].
  apply negb_true_iff in Hp.
  rewrite (includes_foreign Text.numeral c q Hp b Hb). reflexivity.
Qed.

(** The error [axios] makes of a refused status is not one the
    webhook predicate retries. *)
Lemma status_error_refused (status : Z) :
  RetryHandler.conditions.webhook
    (Js.newError ("Webhook delivery failed: "
                  +:+ ("Request failed with status code " +:+ Js.toString status)))
  = false.
Proof.
  etransitivity;
    [apply (condition_through_prefix "Webhook delivery failed:"); reflexivity|].
  unfold RetryHandler.createRetryCondition, Js.newError.
  cbn [Js.message Js.code].
  change ("Request failed with status code " +:+ Js.toString status)
    with (("Request failed with status code" +:+ " ") +:+ Js.toString status).
  rewrite !toLowerCase_append.
  rewrite (numeral_lower _ (every_numeral_toString status)).
  change (Js.toLowerCase " ") with " ".
  rewrite !matchesAny_through_prefix by reflexivity.
  rewrite !matchesAny_numerals by (apply every_numeral_toString || reflexivity).
  reflexivity.
Qed.

(** X19.  What Slack answers decides the retry.  With a token
    configured, [sendMessage] resolves exactly when the call resolves
    with [ok]; when Slack answers with [ok] false and an error code,
    the error thrown is an [Error] without a code of its own whose
    message ends in Slack's code, and the chat predicate gives it the
    verdict it gives that code alone; when the call itself fails, the
    verdict is that of the failure's message.  Without a token the
    call is not made and the error thrown is one the predicate
    refuses. *)
Theorem slack_answer_decides_retry :
  forall (post : NotificationWorker.SlackMessage -> World.Operation SlackService.Reply)
         (self : SlackService.t) (message : NotificationWorker.SlackMessage) (w : World.t),
    let sent := SlackService.sendMessage post self message w in
    let outcome := fst (post message w) in
    if NotificationWorker.missing (SlackService.token self) then
      sent = (Js.Reject (Js.ThrownError (Js.newError "Slack bot token not configured")), 0)
      /\ RetryHandler.conditions.slack (Js.newError "Slack bot token not configured") = false
    else
      snd sent = snd (post message w)
      /\ match outcome with
         | Js.Resolve result =>
             if SlackService.ok result then
               fst sent = Js.Resolve {| SlackService.channel := SlackService.replyChannel result;
                                        SlackService.ts := SlackService.replyTs result |}
             else
               let code := NotificationWorker.orString (SlackService.replyError result)
                             "Unknown error" in
               fst sent
               = Js.Reject (Js.ThrownError
                              (Js.newError ("Slack delivery failed: "
                                            +:+ ("Slack API error: " +:+ code))))
               /\ (forall e, fst sent = Js.Reject (Js.ThrownError e) ->
                             RetryHandler.conditions.slack e
                             = RetryHandler.conditions.slack (Js.newError code))
         | Js.Reject problem =>
             fst sent
             = Js.Reject (Js.ThrownError
                            (Js.newError ("Slack delivery failed: "
                                          +:+ Js.messageOrUnknown problem)))
             /\ (forall e, fst sent = Js.Reject (Js.ThrownError e) ->
                           RetryHandler.conditions.slack e
                           = RetryHandler.conditions.slack
                               (Js.newError (Js.messageOrUnknown problem)))
         end.
Proof.
  intros post self message w sent outcome. subst sent outcome.
  unfold SlackService.sendMessage.
  destruct (NotificationWorker.missing (SlackService.token self)).
  - split; reflexivity.
  - destruct (post message w) as [[result|problem] elapsed]; cbn [fst snd].
    + split; [reflexivity|]. destruct (SlackService.ok result); cbn [negb Js.tryCatch].
      * reflexivity.
      * split; [reflexivity|]. intros e He. injection He as <-.
        apply (condition_through_prefix "Slack delivery failed: Slack API error:").
        reflexivity.
    + split; [reflexivity|]. cbn [Js.tryCatch]. split; [reflexivity|].
      intros e He. injection He as <-.
      apply (condition_through_prefix "Slack delivery failed:"). reflexivity.
Qed.

Section DeployedFacts.
Variable handler : RetryHandler.t.
Variable slack : SlackService.t.
Variable post : NotificationWorker.SlackMessage -> World.Operation SlackService.Reply.
Variable email : EmailService.t.
Variable send : NotificationWorker.EmailMessage -> string -> World.Operation (option string).
Variable protocolOf : string -> option string.
Variable exchange :
  WebhookService.Request NotificationWorker.WebhookPayload
  -> World.Operation WebhookService.AxiosResponse.

Let services := Deployed.services slack post email send protocolOf exchange.

(** What the webhook call of the worker settles to when the endpoint
    answers. *)
Lemma webhookCall_answered (data : NotificationQueue.JobData) (target : string)
    (w : World.t) (response : WebhookService.AxiosResponse) (elapsed : Z) :
  NotificationQueue.target data = Some target ->
  WebhookService.isValidUrl protocolOf target = true ->
  (forall request, exchange request w = (Js.Resolve response, elapsed)) ->
  NotificationWorker.webhookCall services data w
  = (if (WebhookService.status response <? 500)%Z then Js.Resolve tt
     else Js.Reject
            (Js.ThrownError
               (Js.newError ("Webhook delivery failed: "
                             +:+ ("Request failed with status code "
                                  +:+ Js.toString (WebhookService.status response))))),
     elapsed).
Proof.
  intros Htarget Hvalid Hanswer.
  unfold NotificationWorker.webhookCall, services, Deployed.services.
  cbn [NotificationWorker.sendWebhook]. unfold Deployed.settled, WebhookService.sendWebhook.
  rewrite Htarget. cbn [default Deployed.webhookMessage WebhookService.url
                          NotificationWorker.url].
  unfold id. rewrite Hvalid. cbn [negb]. unfold WebhookService.axiosPost. rewrite Hanswer.
  destruct (WebhookService.status response <? 500)%Z; reflexivity.
Qed.

End DeployedFacts.

(** X20.  A webhook that was answered counts as delivered.  For a
    webhook job with a valid URL whose endpoint answers the first
    request with a status below 500, [processJob] makes that one call
    and resolves with [success] true, one attempt and no error,
    whatever the status: also for a 4xx answer, for which the
    service's own response says [success] false. *)
Theorem answered_webhook_counts_as_delivered :
  forall (handler : RetryHandler.t) (slack : SlackService.t)
         (post : NotificationWorker.SlackMessage -> World.Operation SlackService.Reply)
         (email : EmailService.t)
         (send : NotificationWorker.EmailMessage -> string
                 -> World.Operation (option string))
         (protocolOf : string -> option string)
         (exchange : WebhookService.Request NotificationWorker.WebhookPayload
                     -> World.Operation WebhookService.AxiosResponse)
         (job : NotificationQueue.Job) (target : string) (w : World.t)
         (response : WebhookService.AxiosResponse) (elapsed : Z),
    let data := NotificationQueue.jobData (BullMQ.data job) in
    1 <= RetryHandler.Required.maxAttempts (RetryHandler.defaultOptions handler) ->
    NotificationQueue.channel data = "webhook" ->
    NotificationQueue.target data = Some target ->
    target <> "" ->
    WebhookService.isValidUrl protocolOf target = true ->
    (forall request, exchange request w = (Js.Resolve response, elapsed)) ->
    WebhookService.status response < 500 ->
    NotificationWorker.processJob handler
      (Deployed.services slack post email send protocolOf exchange) job w
    = (Js.Resolve {| NotificationQueue.success := true;
                     NotificationQueue.deliveryTime := Some (Z.max 0 elapsed);
                     NotificationQueue.error := None;
                     NotificationQueue.attempts := 1 |},
       {| World.now := World.now w + Z.max 0 elapsed;
          World.calls := S (World.calls w);
          World.sleeps := World.sleeps w |}).
Proof.
  intros handler slack post email send protocolOf exchange job target w response elapsed
    data Hmax Hchannel Htarget Hne Hvalid Hanswer Hstatus.
  rewrite (processJob_delivery handler _ job w _ _
             (webhook_delivery _ data target Hchannel Htarget Hne)).
  pose proof (webhookCall_answered slack post email send protocolOf exchange data target w
                response elapsed Htarget Hvalid Hanswer) as Hcall.
  replace (WebhookService.status response <? 500)%Z with true in Hcall
    by (symmetry; now apply Z.ltb_lt).
  rewrite (execute_first_call_resolves handler _
             (NotificationWorker.onlyCondition RetryHandler.conditions.webhook)
             w tt elapsed Hmax Hcall).
  cbn [fst snd RetryHandler.success RetryHandler.error RetryHandler.attempts World.now
         fmap option_fmap option_map].
  replace (World.now w + Z.max 0 elapsed - World.now w) with (Z.max 0 elapsed) by lia.
  reflexivity.
Qed.

(** X20 at an endpoint that answers 404. *)
Lemma answered_webhook_counts_as_delivered_witness :
  fst (NotificationWorker.processJob RetryHandler.retryHandler (Site.services 404)
         Scenario.alertJob Scenario.start)
  = Js.Resolve {| NotificationQueue.success := true;
                  NotificationQueue.deliveryTime := Some 80;
                  NotificationQueue.error := None;
                  NotificationQueue.attempts := 1 |}.
Proof.
  refine (f_equal fst
            (answered_webhook_counts_as_delivered RetryHandler.retryHandler Site.slack
               Site.posted Site.email Site.mailed Site.protocolOf (Site.answers 404)
               Scenario.alertJob "https://example.com/hook" Scenario.start
               {| WebhookService.status := 404; WebhookService.data := "" |} 80
               _ eq_refl eq_refl _ eq_refl (fun _ => eq_refl) eq_refl)).
  - vm_compute. discriminate.
  - discriminate.
Defined.

(** X21.  A server error of the endpoint is not retried.  For a
    webhook job with a valid URL whose endpoint answers the first
    request with a status of 500 or more, [processJob] makes that one
    call and no other, does not sleep, and resolves with [success]
    false and the error of the refused status; the attempts it reports
    are [maxAttempts]. *)
Theorem server_error_is_not_retried :
  forall (handler : RetryHandler.t) (slack : SlackService.t)
         (post : NotificationWorker.SlackMessage -> World.Operation SlackService.Reply)
         (email : EmailService.t)
         (send : NotificationWorker.EmailMessage -> string
                 -> World.Operation (option string))
         (protocolOf : string -> option string)
         (exchange : WebhookService.Request NotificationWorker.WebhookPayload
                     -> World.Operation WebhookService.AxiosResponse)
         (job : NotificationQueue.Job) (target : string) (w : World.t)
         (response : WebhookService.AxiosResponse) (elapsed : Z),
    let data := NotificationQueue.jobData (BullMQ.data job) in
    1 <= RetryHandler.Required.maxAttempts (RetryHandler.defaultOptions handler) ->
    NotificationQueue.channel data = "webhook" ->
    NotificationQueue.target data = Some target ->
    target <> "" ->
    WebhookService.isValidUrl protocolOf target = true ->
    (forall request, exchange request w = (Js.Resolve response, elapsed)) ->
    500 <= WebhookService.status response ->
    NotificationWorker.processJob handler
      (Deployed.services slack post email send protocolOf exchange) job w
    = (Js.Resolve
         {| NotificationQueue.success := false;
            NotificationQueue.deliveryTime := Some (Z.max 0 elapsed);
            NotificationQueue.error :=
              Some ("Webhook delivery failed: "
                    +:+ ("Request failed with status code "
                         +:+ Js.toString (WebhookService.status response)));
            NotificationQueue.attempts :=
              RetryHandler.Required.maxAttempts (RetryHandler.defaultOptions handler) |},
       {| World.now := World.now w + Z.max 0 elapsed;
          World.calls := S (World.calls w);
          World.sleeps := World.sleeps w |}).
Proof.
  intros handler slack post email send protocolOf exchange job target w response elapsed
    data Hmax Hchannel Htarget Hne Hvalid Hanswer Hstatus.
  rewrite (processJob_delivery handler _ job w _ _
             (webhook_delivery _ data target Hchannel Htarget Hne)).
  pose proof (webhookCall_answered slack post email send protocolOf exchange data target w
                response elapsed Htarget Hvalid Hanswer) as Hcall.
  replace (WebhookService.status response <? 500)%Z with false in Hcall
    by (symmetry; now apply Z.ltb_ge).
  rewrite (execute_refused handler _
             (NotificationWorker.onlyCondition RetryHandler.conditions.webhook)
             w _ elapsed Hmax Hcall
             (status_error_refused (WebhookService.status response))).
  cbn [fst snd RetryHandler.success RetryHandler.error RetryHandler.attempts World.now
         fmap option_fmap option_map RetryHandler.asError Js.message Js.newError].
  replace (World.now w + Z.max 0 elapsed - World.now w) with (Z.max 0 elapsed) by lia.
  reflexivity.
Qed.

(** X21 at an endpoint that answers 503. *)
Lemma server_error_is_not_retried_witness :
  World.calls
    (snd (NotificationWorker.processJob RetryHandler.retryHandler (Site.services 503)
            Scenario.alertJob Scenario.start))
  = 1%nat.
Proof.
  refine (f_equal (fun run => World.calls (snd run))
            (server_error_is_not_retried RetryHandler.retryHandler Site.slack
               Site.posted Site.email Site.mailed Site.protocolOf (Site.answers 503)
               Scenario.alertJob "https://example.com/hook" Scenario.start
               {| WebhookService.status := 503; WebhookService.data := "" |} 80
               _ eq_refl eq_refl _ eq_refl (fun _ => eq_refl) _)).
  - vm_compute. discriminate.
  - discriminate.
  - vm_compute. discriminate.
Defined.

(** X22.  A service without its credentials fails a job at once.
    When the Slack token is not configured, a chat job is refused by
    the service before any request is made; the error is not one the
    chat predicate retries, so [processJob] makes one call of the
    service, does not sleep and resolves with [success] false, the
    service's message and [maxAttempts] as the attempts.  The same
    holds for an email job when the SendGrid key or the sender
    address is not configured. *)
Theorem unconfigured_service_fails_once :
  forall (handler : RetryHandler.t) (slack : SlackService.t)
         (post : NotificationWorker.SlackMessage -> World.Operation SlackService.Reply)
         (email : EmailService.t)
         (send : NotificationWorker.EmailMessage -> string
                 -> World.Operation (option string))
         (protocolOf : string -> option string)
         (exchange : WebhookService.Request NotificationWorker.WebhookPayload
                     -> World.Operation WebhookService.AxiosResponse)
         (job : NotificationQueue.Job) (w : World.t),
    let data := NotificationQueue.jobData (BullMQ.data job) in
    let refused (reason : string) :=
      (Js.Resolve
         {| NotificationQueue.success := false;
            NotificationQueue.deliveryTime := Some 0;
            NotificationQueue.error := Some reason;
            NotificationQueue.attempts :=
              RetryHandler.Required.maxAttempts (RetryHandler.defaultOptions handler) |},
       {| World.now := World.now w;
          World.calls := S (World.calls w);
          World.sleeps := World.sleeps w |}) in
    let run :=
      NotificationWorker.processJob handler
        (Deployed.services slack post email send protocolOf exchange) job w in
    1 <= RetryHandler.Required.maxAttempts (RetryHandler.defaultOptions handler) ->
    (NotificationQueue.channel data = "slack" ->
     NotificationWorker.missing (SlackService.token slack) = true ->
     run = refused "Slack bot token not configured")
    /\ (NotificationQueue.channel data = "email" ->
        NotificationWorker.missing (NotificationQueue.target data) = false ->
        NotificationWorker.missing (EmailService.apiKey email) = true ->
        run = refused "SendGrid API key not configured")
    /\ (NotificationQueue.channel data = "email" ->
        NotificationWorker.missing (NotificationQueue.target data) = false ->
        NotificationWorker.missing (EmailService.apiKey email) = false ->
        NotificationWorker.missing (EmailService.fromEmail email) = true ->
        run = refused "From email address not configured").
Proof.
  intros handler slack post email send protocolOf exchange job w data refused run Hmax.
  subst run refused.
  assert (Hback : forall reason,
             (Js.Resolve
                {| NotificationQueue.success := false;
                   NotificationQueue.deliveryTime :=
                     Some (World.now w + Z.max 0 0 - World.now w);
                   NotificationQueue.error := Some reason;
                   NotificationQueue.attempts :=
                     RetryHandler.Required.maxAttempts (RetryHandler.defaultOptions handler) |},
              {| World.now := World.now w + Z.max 0 0;
                 World.calls := S (World.calls w);
                 World.sleeps := World.sleeps w |})
             = (Js.Resolve
                  {| NotificationQueue.success := false;
                     NotificationQueue.deliveryTime := Some 0;
                     NotificationQueue.error := Some reason;
                     NotificationQueue.attempts :=
                       RetryHandler.Required.maxAttempts
                         (RetryHandler.defaultOptions handler) |},
                {| World.now := World.now w;
                   World.calls := S (World.calls w);
                   World.sleeps := World.sleeps w |})).
  { intros reason. replace (World.now w + Z.max 0 0 - World.now w) with 0 by lia.
    now replace (World.now w + Z.max 0 0) with (World.now w) by lia. }
  split; [|split].
  - intros Hchannel Htoken.
    assert (Hdelivery : Terms.delivery
                          (Deployed.services slack post email send protocolOf exchange) data
                        = Some (NotificationWorker.slackCall
                                  (Deployed.services slack post email send protocolOf exchange)
                                  data,
                                RetryHandler.conditions.slack)).
    { unfold Terms.delivery. now rewrite Hchannel. }
    rewrite (processJob_delivery handler _ job w _ _ Hdelivery).
    rewrite (execute_refused handler _
               (NotificationWorker.onlyCondition RetryHandler.conditions.slack) w
               (Js.ThrownError (Js.newError "Slack bot token not configured")) 0 Hmax).
    + apply Hback.
    + unfold NotificationWorker.slackCall, Deployed.services.
      cbn [NotificationWorker.sendMessage]. unfold Deployed.settled, SlackService.sendMessage.
      now rewrite Htoken.
    + reflexivity.
  - intros Hchannel Htarget Hkey.
    assert (Hdelivery : Terms.delivery
                          (Deployed.services slack post email send protocolOf exchange) data
                        = Some (NotificationWorker.emailCall
                                  (Deployed.services slack post email send protocolOf exchange)
                                  data,
                                RetryHandler.conditions.email)).
    { unfold Terms.delivery. now rewrite Hchannel, Htarget. }
    rewrite (processJob_delivery handler _ job w _ _ Hdelivery).
    rewrite (execute_refused handler _
               (NotificationWorker.onlyCondition RetryHandler.conditions.email) w
               (Js.ThrownError (Js.newError "SendGrid API key not configured")) 0 Hmax).
    + apply Hback.
    + unfold NotificationWorker.emailCall, Deployed.services.
      cbn [NotificationWorker.sendEmail]. unfold Deployed.settled, EmailService.sendEmail.
      now rewrite Hkey.
    + reflexivity.
  - intros Hchannel Htarget Hkey Hfrom.
    assert (Hdelivery : Terms.delivery
                          (Deployed.services slack post email send protocolOf exchange) data
                        = Some (NotificationWorker.emailCall
                                  (Deployed.services slack post email send protocolOf exchange)
                                  data,
                                RetryHandler.conditions.email)).
    { unfold Terms.delivery. now rewrite Hchannel, Htarget. }
    rewrite (processJob_delivery handler _ job w _ _ Hdelivery).
    rewrite (execute_refused handler _
               (NotificationWorker.onlyCondition RetryHandler.conditions.email) w
               (Js.ThrownError (Js.newError "From email address not configured")) 0 Hmax).
    + apply Hback.
    + unfold NotificationWorker.emailCall, Deployed.services.
      cbn [NotificationWorker.sendEmail]. unfold Deployed.settled, EmailService.sendEmail.
      now rewrite Hkey, Hfrom.
    + reflexivity.
Qed.

(** X22 at a chat job and a worker without a Slack token. *)
Lemma unconfigured_service_fails_once_witness :
  NotificationQueue.error
  <$> (match fst (NotificationWorker.processJob RetryHandler.retryHandler Site.bare
                    Site.chatJob Scenario.start) with
       | Js.Resolve result => Some result
       | Js.Reject _ => None
       end)
  = Some (Some "Slack bot token not configured").
Proof.
  refine (f_equal (fun run => NotificationQueue.error
                              <$> (match fst run with
                                   | Js.Resolve result => Some result
                                   | Js.Reject _ => None
                                   end))
            (proj1 (unconfigured_service_fails_once RetryHandler.retryHandler Site.noSlack
                      Site.posted Site.noEmail Site.mailed Site.protocolOf (Site.answers 200)
                      Site.chatJob Scenario.start _)
               eq_refl eq_refl)).
  vm_compute. discriminate.
Defined.

(** ** The webhook service's own retries *)

Lemma includes_behind (a b p : string) :
  Js.includes b p = true -> Js.includes (a +:+ b) p = true.
Proof.
  intros H. induction a as [|x a IH]; [exact H|].
  change (String x a +:+ b) with (String x (a +:+ b)). cbn [Js.includes].
  rewrite IH. now destruct (String.prefix p (String x (a +:+ b))).
Qed.

Section WebhookRetryFacts.
Context {P : Type}.
Variable protocolOf : string -> option string.
Variable exchange : WebhookService.Request P -> World.Operation WebhookService.AxiosResponse.
Variable message : WebhookService.WebhookMessage P.
Variable maxRetries : Z.

(** Every call of [sendWebhook] fails, with an error whose message
    has no 4 in it. *)
Let alwaysFails : Prop :=
  forall w, exists e elapsed,
    WebhookService.sendWebhook protocolOf exchange message w
    = (Js.Reject (Js.ThrownError e), elapsed)
    /\ Js.includes (Js.message e) "4" = false.

Lemma retryLoop_exhausts :
  alwaysFails ->
  forall (len a : nat) (lastError : option Js.Error) (w : World.t),
    Z.of_nat (a + len) = maxRetries ->
    exists e w',
      WebhookService.retryLoop protocolOf exchange message maxRetries
        (map Z.of_nat (seq a (S len))) lastError w
      = (WebhookService.Left (Some e), w')
      /\ World.calls w' = (World.calls w + S len)%nat
      /\ World.sleeps w'
         = (World.sleeps w
              ++ map (fun i => inject_Z (WebhookService.retryDelay (Z.of_nat i)))
                   (seq a len))%list.
Proof.
  intros Hfails. induction len as [|len IH]; intros a lastError w Hmax.
  - cbn [seq map WebhookService.retryLoop]. unfold World.invoke.
    destruct (Hfails w) as (e & elapsed & -> & Hclean). rewrite Hclean.
    replace (Z.of_nat a =? maxRetries)%Z with true by (symmetry; apply Z.eqb_eq; lia).
    exists e. eexists. split; [reflexivity|]. cbn [World.calls World.sleeps].
    split; [lia | now rewrite app_nil_r].
  - change (seq a (S (S len))) with (a :: seq (S a) (S len)).
    cbn [map WebhookService.retryLoop]. unfold World.invoke.
    destruct (Hfails w) as (e & elapsed & -> & Hclean). rewrite Hclean.
    replace (Z.of_nat a =? maxRetries)%Z with false by (symmetry; apply Z.eqb_neq; lia).
    match goal with
    | |- context [WebhookService.retryLoop _ _ _ _ _ ?l ?w2] =>
        destruct (IH (S a) l w2 ltac:(lia)) as (e' & w' & Hloop & Hcalls & Hsleeps)
    end.
    exists e', w'. split; [exact Hloop|]. split.
    + rewrite Hcalls. cbn [World.sleep World.calls]. lia.
    + rewrite Hsleeps. cbn [World.sleep World.sleeps seq map].
      now rewrite <- app_assoc.
Qed.

End WebhookRetryFacts.

(** X23.  A 4 anywhere in the error ends the webhook retries.  When
    the request of [sendWebhookWithRetry] fails with an error whose
    message has the digit 4 in it, whatever the failure is, the error
    of [sendWebhook] is thrown on at once: one call is made, no sleep
    is taken, however many retries are allowed. *)
Theorem four_in_error_ends_retries :
  forall (P : Type) (protocolOf : string -> option string)
         (exchange : WebhookService.Request P
                     -> World.Operation WebhookService.AxiosResponse)
         (message : WebhookService.WebhookMessage P) (maxRetries : Z) (w : World.t)
         (problem : Js.thrown) (elapsed : Z),
    1 <= maxRetries ->
    WebhookService.isValidUrl protocolOf (WebhookService.url message) = true ->
    exchange (WebhookService.requestOf message) w = (Js.Reject problem, elapsed) ->
    Js.includes (Js.messageOrUnknown problem) "4" = true ->
    WebhookService.sendWebhookWithRetry protocolOf exchange message maxRetries w
    = (Js.Reject
         (Js.ThrownError
            (Js.newError ("Webhook delivery failed: " +:+ Js.messageOrUnknown problem))),
       {| World.now := World.now w + Z.max 0 elapsed;
          World.calls := S (World.calls w);
          World.sleeps := World.sleeps w |}).
Proof.
  intros P protocolOf exchange message maxRetries w problem elapsed Hmax Hvalid Hfail Hfour.
  unfold WebhookService.sendWebhookWithRetry.
  rewrite (attemptNumbers_positive _ Hmax).
  change (seq 1 (S ?n)) with (1%nat :: seq 2 n). cbn [map WebhookService.retryLoop].
  unfold World.invoke, WebhookService.sendWebhook, WebhookService.axiosPost.
  rewrite Hvalid, Hfail. cbn [negb Js.tryCatch Js.message Js.newError].
  now rewrite (includes_behind "Webhook delivery failed: " _ "4" Hfour).
Qed.

(** X23 at a connection refused by the address 10.0.0.4. *)
Lemma four_in_error_ends_retries_witness :
  World.calls
    (snd (WebhookService.sendWebhookWithRetry Site.protocolOf
            (Site.fails "connect ECONNREFUSED 10.0.0.4:443") Site.hook 3 Scenario.start))
  = 1%nat.
Proof.
  refine (f_equal (fun run => World.calls (snd run))
            (four_in_error_ends_retries unit Site.protocolOf
               (Site.fails "connect ECONNREFUSED 10.0.0.4:443") Site.hook 3 Scenario.start
               (Js.ThrownError (Js.newError "connect ECONNREFUSED 10.0.0.4:443")) 5
               _ eq_refl eq_refl eq_refl)).
  vm_compute. discriminate.
Defined.

(** X24.  The webhook retries run out on schedule.  When every call
    of [sendWebhook] fails with an error that has no 4 in its message,
    [sendWebhookWithRetry] with [maxRetries] of 1 or more makes exactly
    [maxRetries] calls, sleeps between two calls and not after the
    last, for 1000 ms doubled at each retry and never more than
    10000 ms, and rejects with an error of [sendWebhook]. *)
Theorem webhook_retries_run_out :
  forall (P : Type) (protocolOf : string -> option string)
         (exchange : WebhookService.Request P
                     -> World.Operation WebhookService.AxiosResponse)
         (message : WebhookService.WebhookMessage P) (maxRetries : Z) (w : World.t),
    1 <= maxRetries ->
    (forall w', exists e elapsed,
        WebhookService.sendWebhook protocolOf exchange message w'
        = (Js.Reject (Js.ThrownError e), elapsed)
        /\ Js.includes (Js.message e) "4" = false) ->
    let run := WebhookService.sendWebhookWithRetry protocolOf exchange message maxRetries w in
    let naps := map (fun i => Z.min (1000 * 2 ^ (Z.of_nat i - 1)) 10000)
                    (seq 1 (Z.to_nat maxRetries - 1)) in
    Z.of_nat (World.calls (snd run)) = Z.of_nat (World.calls w) + maxRetries
    /\ World.sleeps (snd run) = (World.sleeps w ++ map inject_Z naps)%list
    /\ Forall (fun ms => 1000 <= ms <= 10000) naps
    /\ exists e, fst run = Js.Reject (Js.ThrownError e).
Proof.
  intros P protocolOf exchange message maxRetries w Hmax Hfails run naps. subst run naps.
  unfold WebhookService.sendWebhookWithRetry.
  rewrite (attemptNumbers_positive _ Hmax).
  destruct (retryLoop_exhausts protocolOf exchange message maxRetries Hfails
              (Z.to_nat maxRetries - 1) 1 None w ltac:(lia))
    as (e & w' & -> & Hcalls & Hsleeps).
  cbn [fst snd default from_option id]. split; [rewrite Hcalls; lia|].
  split; [rewrite Hsleeps, map_map; reflexivity|].
  split; [|now exists e].
  apply List.Forall_forall. intros ms Hin.
  apply in_map_iff in Hin as (i & <- & Hi). apply in_seq in Hi.
  assert (1 <= 2 ^ (Z.of_nat i - 1)) by (apply Z.pow_le_mono_r with (b := 0); lia).
  lia.
Qed.

(** X24 at three retries on a network that hangs up: two sleeps, of
    1000 and 2000 ms. *)
Lemma webhook_retries_run_out_witness :
  World.sleeps
    (snd (WebhookService.sendWebhookWithRetry Site.protocolOf
            (Site.fails "socket hang up") Site.hook 3 Scenario.start))
  = [inject_Z 1000; inject_Z 2000].
Proof.
  refine (proj1 (proj2
            (webhook_retries_run_out unit Site.protocolOf (Site.fails "socket hang up")
               Site.hook 3 Scenario.start _ _))).
  - vm_compute. discriminate.
  - intros w'. eexists. exists 5. split; reflexivity.
Defined.

(** ** Who a request is taken to be *)

Lemma orString_nonempty (x : option string) (fallback : string) :
  fallback <> "" -> NotificationWorker.orString x fallback <> "".
Proof.
  intros Hf. unfold NotificationWorker.orString. destruct x as [v|]; [|exact Hf].
  destruct (String.eqb v "") eqn:E; [exact Hf|]. now apply String.eqb_neq.
Qed.

(** X25.  [authenticateUser] never refuses a request.  Whatever the
    header, the query and the body hold, the user id it computes is
    not empty, so its 401 answer is never given: the request is
    passed on, marked with the id of the header if there is one,
    else of the query, else of the body, else "anonymous". *)
Theorem authenticateUser_never_refuses :
  forall (req : App.Request),
    exists id,
      id <> ""
      /\ App.authenticateUser req
         = App.Continue {| App.headerUserId := App.headerUserId req;
                           App.queryUserId := App.queryUserId req;
                           App.bodyUserId := App.bodyUserId req;
                           App.ip := App.ip req;
                           App.userId := Some id |}
      /\ id = NotificationWorker.orString (App.headerUserId req)
                (NotificationWorker.orString (App.queryUserId req)
                   (NotificationWorker.orString (App.bodyUserId req) "anonymous")).
Proof.
  intros req. eexists. split; [|split; [|reflexivity]].
  - do 3 apply orString_nonempty. discriminate.
  - unfold App.authenticateUser.
    destruct (String.eqb _ "") eqn:E; [|reflexivity].
    apply String.eqb_eq in E. exfalso. revert E.
    do 3 apply orString_nonempty. discriminate.
Qed.

(** X26.  The limiter counts by address, not by user.  In the
    application the limiter's middleware runs before
    [authenticateUser] has set [req.userId]: a request that arrives
    without that property is checked under its address (or
    "anonymous" without one), whatever user it names; it is answered
    with 429 exactly when that check denies it, and only a request
    that is let through is given its user id. *)
Theorem limiter_counts_by_address :
  forall (limiter : RateLimiter.t) (answer : Redis.Answer) (now : Z)
         (req : App.Request) (db : Redis.Db),
    App.userId req = None ->
    let address := NotificationWorker.orString (App.ip req) "anonymous" in
    let checked := RateLimiter.checkRateLimit limiter answer address now db in
    let received := App.receive limiter answer now req db in
    snd received = snd checked
    /\ exists result,
         fst checked = Js.Resolve result
         /\ fst received
            = Js.Resolve (if RateLimiter.allowed result then App.authenticateUser req
                          else App.Respond 429 "Rate limit exceeded").
Proof.
  intros limiter answer now req db Hnew address checked received.
  subst address checked received.
  unfold App.receive, App.rateLimit, RateLimiterMethods.middleware, Js.bind, Js.tryAsync.
  unfold RateLimiterMethods.identity. cbn [RateLimiterMethods.userId RateLimiterMethods.ip].
  rewrite Hnew. cbn [NotificationWorker.orString].
  fold (NotificationWorker.orString (App.ip req) "anonymous").
  destruct (check_answers limiter answer
              (NotificationWorker.orString (App.ip req) "anonymous") now db)
    as (result & Hresult & _ & _).
  destruct (RateLimiter.checkRateLimit limiter answer
              (NotificationWorker.orString (App.ip req) "anonymous") now db)
    as [outcome db'].
  cbn [fst snd] in *. subst outcome.
  destruct (RateLimiter.allowed result) eqn:Hallowed; cbn [Js.ret fst snd].
  - split; [reflexivity|]. exists result. rewrite Hallowed. split; reflexivity.
  - split; [reflexivity|]. exists result. rewrite Hallowed. split; reflexivity.
Qed.

(** X26 at a request that names alice: the key written is that of
    the address. *)
Lemma limiter_counts_by_address_witness :
  snd (App.receive Scenario.twoPerSecond Redis.Healthy 5000 Site.fromAlice ∅)
  = snd (RateLimiter.checkRateLimit Scenario.twoPerSecond Redis.Healthy "203.0.113.9"
           5000 ∅).
Proof.
  exact (proj1 (limiter_counts_by_address Scenario.twoPerSecond Redis.Healthy 5000
                  Site.fromAlice ∅ eq_refl)).
Defined.

(** ** A score of zero *)

(** X27.  The two parsers read a score of 0 differently.  From a
    reply that is a JSON object with a usable priority, the score is
    0 only when the reported score is negative: a reported 0, like one
    that is not a number, is read as 50.  From a reply without JSON in
    which a score is found in the text, the score is 0 exactly when
    the digits found are 0. *)
Theorem zero_score_reading :
  forall (content : AIScorer.Content),
    (forall parsed,
        AIScorer.jsonMatch content = AIScorer.Object parsed ->
        AIScorer.parsedPriority parsed <> AIScorer.NotText ->
        (AIScorer.score (AIScorer.parseScoringResponse content) = 0
         <-> AIScorer.parsedScore parsed = Js.Num Js.NegInfinity
             \/ exists z, z < 0 /\ AIScorer.parsedScore parsed = Js.Num (Js.Int z))
        /\ (AIScorer.parsedScore parsed = Js.Num (Js.Int 0)
            \/ AIScorer.parsedScore parsed = Js.NaN ->
            AIScorer.score (AIScorer.parseScoringResponse content) = 50))
    /\ (forall digits,
           AIScorer.jsonMatch content = AIScorer.NoMatch ->
           AIScorer.scoreMatch content = Some digits ->
           (AIScorer.score (AIScorer.parseScoringResponse content) = 0 <-> digits = 0%N)).
Proof.
  intros content. split.
  - intros parsed Hjson Hpriority.
    unfold AIScorer.parseScoringResponse. rewrite Hjson.
    destruct (AIScorer.parsedPriority parsed) as [|s|] eqn:Hp; [| |contradiction];
      cbn [AIScorer.validatePriorityField Js.tryCatch AIScorer.score].
    + destruct (AIScorer.parsedScore parsed) as [|[|z|]]; cbn [Js.orElse Js.clamp].
      * split; [split; [discriminate|intros [H|(z & _ & H)]; discriminate H]|reflexivity].
      * split; [split; [now left|reflexivity]|intros [H|H]; discriminate H].
      * destruct z as [|p|p]; cbn [Js.orElse Js.clamp].
        -- split; [split; [discriminate|]|reflexivity].
           intros [H|(z & Hz & H)]; [discriminate H|]. injection H as <-. lia.
        -- split; [split; [lia|]|intros [H|H]; discriminate H].
           intros [H|(z & Hz & H)]; [discriminate H|]. injection H as <-. lia.
        -- split; [split; [|lia]|intros [H|H]; discriminate H].
           intros _. right. exists (Z.neg p). split; [lia|reflexivity].
      * split; [split; [discriminate|intros [H|(z & _ & H)]; discriminate H]|].
        intros [H|H]; discriminate H.
    + destruct (AIScorer.parsedScore parsed) as [|[|z|]]; cbn [Js.orElse Js.clamp].
      * split; [split; [discriminate|intros [H|(z & _ & H)]; discriminate H]|reflexivity].
      * split; [split; [now left|reflexivity]|intros [H|H]; discriminate H].
      * destruct z as [|p|p]; cbn [Js.orElse Js.clamp].
        -- split; [split; [discriminate|]|reflexivity].
           intros [H|(z & Hz & H)]; [discriminate H|]. injection H as <-. lia.
        -- split; [split; [lia|]|intros [H|H]; discriminate H].
           intros [H|(z & Hz & H)]; [discriminate H|]. injection H as <-. lia.
        -- split; [split; [|lia]|intros [H|H]; discriminate H].
           intros _. right. exists (Z.neg p). split; [lia|reflexivity].
      * split; [split; [discriminate|intros [H|(z & _ & H)]; discriminate H]|].
        intros [H|H]; discriminate H.
  - intros digits Hjson Hscore.
    unfold AIScorer.parseScoringResponse, AIScorer.fallbackParsing.
    rewrite Hjson, Hscore. cbn [Js.tryCatch AIScorer.score Js.clamp]. lia.
Qed.
